(** * ssbh: Singularity sandbox build helper -- a shallow embedding

    The Python program [ssbh.py] is embedded function by function.  Text is
    [string]; Python sets and dicts are stdpp's [gset] and [gmap]; code that
    raises returns a [result]; code that touches the file system, runs
    subprocesses or prints is a state-and-exception computation over a
    [World]. *)

From Stdlib Require Import ZArith Ascii String List Bool Lia.
From stdpp Require Import base option list gmap sets strings sorting.

Local Open Scope string_scope.
Local Open Scope list_scope.

(** ** Python exceptions and results *)

(** The exception classes the program can meet.  Exceptions the program
    raises itself carry their message; those raised by the Python library
    carry what identifies them. *)
Inductive exn : Type :=
| FileExistsError (msg : string)
| FileNotFoundError (path : string)
| NotADirectoryError (path : string)
| IsADirectoryError (path : string)
| PermissionError (path : string)
| RuntimeError (msg : string)
| AttributeError (msg : string)
| ValueError (msg : string)
| KeyError (key : string)
| TypeError (msg : string)
| IndexError (msg : string)
| CalledProcessError (cmd : list string) (code : Z)
| csv_Error (msg : string)
| OverflowError (msg : string)
| UnicodeDecodeError (path : string)
| UnicodeEncodeError (path : string)
| SystemExit (code : Z).

Inductive result (A : Type) : Type :=
| Ok (a : A)
| Raise (e : exn).
Arguments Ok {A} a.
Arguments Raise {A} e.

Definition is_ok {A} (r : result A) : bool :=
  match r with Ok _ => true | Raise _ => false end.

(** ** Characters and the string methods the program calls *)

Definition NUL : ascii := "000"%char.
Definition LF : ascii := "010"%char.
Definition CR : ascii := "013"%char.

Definition str1 (c : ascii) : string := String c "".

(** [s.startswith(pre)]. *)
Fixpoint startswith (pre s : string) : bool :=
  match pre with
  | "" => true
  | String c p =>
      match s with
      | "" => false
      | String d r => Ascii.eqb c d && startswith p r
      end
  end.

(** [c in s] for a one-character needle. *)
Fixpoint contains_char (c : ascii) (s : string) : bool :=
  match s with
  | "" => false
  | String d r => if Ascii.eqb d c then true else contains_char c r
  end.

(** [s.split(sep)] for a one-character separator, as its first field and the
    others: the list Python returns is never empty. *)
Fixpoint split_fields (sep : ascii) (s : string) : string * list string :=
  match s with
  | "" => ("", [])
  | String c r =>
      let (f, fs) := split_fields sep r in
      if Ascii.eqb c sep then ("", f :: fs) else (String c f, fs)
  end.

Definition split (sep : ascii) (s : string) : list string :=
  let (f, fs) := split_fields sep s in f :: fs.

Definition is_digit (c : ascii) : bool :=
  let n := nat_of_ascii c in (48 <=? n)%nat && (n <=? 57)%nat.

(** ** Text and bytes *)

(** A Python [str] is held as the [string] of the bytes of its UTF-8
    encoding, the encoding of the locale under which Python opens text files
    on the hosts the program is written for; a character is one byte or a
    leading byte and its continuation bytes.  A [string] that is no UTF-8
    holds a [str] with the escapes Python makes of the bytes of a command
    line that do not decode; written to a text file it does not encode.
    What a record of the process tree holds is a [string] of bytes as
    well, and reading it as text decodes it. *)
Definition byte (c : ascii) : N := N_of_ascii c.

Definition between (lo hi : N) (c : ascii) : bool :=
  ((lo <=? byte c) && (byte c <=? hi))%N.

Definition is_continuation (c : ascii) : bool := between 128 191 c.

(** [len(s)]: the number of characters. *)
Fixpoint text_len (s : string) : N :=
  match s with
  | "" => 0
  | String c r => ((if is_continuation c then 0 else 1) + text_len r)%N
  end.

(** The second byte a leading byte admits: the encodings that are longer
    than need be, the surrogates and what lies beyond U+10FFFF are no
    UTF-8. *)
Definition second_ok (b0 b1 : ascii) : bool :=
  if (byte b0 =? 224)%N then between 160 191 b1
  else if (byte b0 =? 237)%N then between 128 159 b1
  else if (byte b0 =? 240)%N then between 144 191 b1
  else if (byte b0 =? 244)%N then between 128 143 b1
  else is_continuation b1.

Definition decoded (seq : string) (r : option (string * string))
    : option (string * string) :=
  match r with
  | Some (text, rest) => Some (seq +:+ text, rest)
  | None => None
  end.

(** [codecs.utf_8_decode(s, 'strict', final=False)]: the text decoded and
    the bytes of a sequence that the end of [s] cuts short, which the
    decoder keeps for its next call; [None] when [s] holds a sequence
    that is not valid.  A surrogate cut short after its second byte is
    kept as well and refused with its third byte. *)
Fixpoint utf8_decode (s : string) : option (string * string) :=
  match s with
  | "" => Some ("", "")
  | String b0 r =>
      if between 0 127 b0 then decoded (str1 b0) (utf8_decode r)
      else if between 194 223 b0 then
        match r with
        | "" => Some ("", s)
        | String b1 r1 =>
            if is_continuation b1
            then decoded (String b0 (str1 b1)) (utf8_decode r1)
            else None
        end
      else if between 224 239 b0 then
        match r with
        | "" => Some ("", s)
        | String b1 r1 =>
            if second_ok b0 b1 then
              match r1 with
              | "" => Some ("", s)
              | String b2 r2 =>
                  if is_continuation b2
                  then decoded (String b0 (String b1 (str1 b2)))
                         (utf8_decode r2)
                  else None
              end
            else if is_continuation b1 && (byte b0 =? 237)%N then
              match r1 with
              | "" => Some ("", s)
              | String _ _ => None
              end
            else None
        end
      else if between 240 244 b0 then
        match r with
        | "" => Some ("", s)
        | String b1 r1 =>
            if second_ok b0 b1 then
              match r1 with
              | "" => Some ("", s)
              | String b2 r2 =>
                  if is_continuation b2 then
                    match r2 with
                    | "" => Some ("", s)
                    | String b3 r3 =>
                        if is_continuation b3
                        then decoded
                               (String b0 (String b1 (String b2 (str1 b3))))
                               (utf8_decode r3)
                        else None
                    end
                  else None
              end
            else None
        end
      else None
  end.

(** Text: the UTF-8 encoding of a sequence of characters. *)
Definition is_text (s : string) : bool :=
  match utf8_decode s with
  | Some (_, "") => true
  | _ => false
  end.

(** Universal newlines: "\r\n" and "\r" are read as "\n". *)
Fixpoint translate (s : string) : string :=
  match s with
  | "" => ""
  | String c r =>
      if Ascii.eqb c CR then
        String LF match r with
                  | String d r' => if Ascii.eqb d LF then translate r'
                                   else translate r
                  | "" => ""
                  end
      else String c (translate r)
  end.

(** The text without a "\r" at its end, and whether there was one. *)
Fixpoint hold_cr (s : string) : string * bool :=
  match s with
  | "" => ("", false)
  | String c r =>
      match r with
      | "" => if Ascii.eqb c CR then ("", true) else (s, false)
      | String _ _ => let (t, b) := hold_cr r in (String c t, b)
      end
  end.

(** The decoder of a file opened in text mode: the bytes and the "\r" it
    keeps from one chunk to the next. *)
Record decoder : Type := { d_pending : string; d_pendingcr : bool }.

(** [IncrementalNewlineDecoder.decode(chunk, final)] over the strict UTF-8
    decoder, for the file [p]. *)
Definition decode_chunk (p : string) (d : decoder) (chunk : string)
    (final : bool) : result (string * decoder) :=
  match utf8_decode (d_pending d +:+ chunk) with
  | None => Raise (UnicodeDecodeError p)
  | Some (text, rest) =>
      if final && negb (String.eqb rest "") then Raise (UnicodeDecodeError p)
      else
        let flush := d_pendingcr d && (final || negb (String.eqb text "")) in
        let output := if flush then String CR text else text in
        let kept := d_pendingcr d && negb flush in
        let (held, cr) := if final then (output, false) else hold_cr output in
        Ok (translate held, {| d_pending := rest; d_pendingcr := cr || kept |})
  end.

(** The text up to and including its first "\n", if it has one. *)
Fixpoint first_line (s : string) : option string :=
  match s with
  | "" => None
  | String c r =>
      if Ascii.eqb c LF then Some (str1 LF)
      else match first_line r with
           | Some l => Some (String c l)
           | None => None
           end
  end.

(** The first [n] bytes of [s] and the others. *)
Fixpoint take_drop (n : N) (s : string) : string * string :=
  match s with
  | "" => ("", "")
  | String c r =>
      if (n =? 0)%N then ("", s)
      else let (a, b) := take_drop (N.pred n) r in (String c a, b)
  end.

(** The chunks a text file is read in: 8192 bytes at a time. *)
Fixpoint chunks (fuel : nat) (s : string) : list string :=
  match fuel with
  | O => []
  | S fuel =>
      match s with
      | "" => []
      | String _ _ => let (a, b) := take_drop 8192 s in a :: chunks fuel b
      end
  end.

(** The loop of [readline()]: chunks are read and decoded until the text
    read so far holds the end of a line; at the end of the file what has
    been read is the line. *)
Fixpoint readline_chunks (p : string) (d : decoder) (line : string)
    (cs : list string) : result string :=
  match cs with
  | [] =>
      match decode_chunk p d "" true with
      | Raise e => Raise e
      | Ok (out, _) => Ok (default (line +:+ out) (first_line (line +:+ out)))
      end
  | c :: rest =>
      match decode_chunk p d c false with
      | Raise e => Raise e
      | Ok (out, d') =>
          match first_line (line +:+ out) with
          | Some l => Ok l
          | None => readline_chunks p d' (line +:+ out) rest
          end
      end
  end.

(** [open(p)] on a file that holds [data], then [fh.readline()]. *)
Definition text_readline (p data : string) : result string :=
  readline_chunks p {| d_pending := ""; d_pendingcr := false |} ""
    (chunks (String.length data) data).

(** ** ps_bins: the process snapshot *)

(** The process-information tree [ps_bins] scans.  An entry is a regular
    file (the bytes it holds, and whether the caller may open it) or a
    directory, a finite map from names to entries. *)
#[warnings="-register-all"]
Inductive node : Type :=
| File (data : string) (readable : bool)
| Dir (entries : gmap string node).

(** [fnmatch(name, '[0-9]*')]: a first character in 0..9, then anything. *)
Definition match_digit_star (name : string) : bool :=
  match name with
  | "" => false
  | String c _ => is_digit c
  end.

(** Whether [x] is a directory in which an entry [cmdline] exists. *)
Definition has_cmdline (x : node) : bool :=
  match x with
  | Dir es => match es !! "cmdline" with Some _ => true | None => false end
  | File _ _ => false
  end.

Fixpoint select_cmdline (es : list (string * node)) : list string :=
  match es with
  | [] => []
  | (name, x) :: r =>
      if match_digit_star name && has_cmdline x
      then name :: select_cmdline r
      else select_cmdline r
  end.

(** [Path(path).glob('[0-9]*/cmdline')]: the directories of [root] whose
    name matches [[0-9]*] and in which [cmdline] exists, in the order the
    directory is listed.  A path is identified by its directory name. *)
Definition glob_cmdline (root : gmap string node) : list string :=
  select_cmdline (map_to_list root).

(** [open(p)] then [fh.readline()] for [p = root/name/cmdline]. *)
Definition open_readline (root : gmap string node) (name : string)
    : result string :=
  let p := name +:+ "/cmdline" in
  match root !! name with
  | Some (Dir es) =>
      match es !! "cmdline" with
      | Some (File data true) => text_readline p data
      | Some (File _ false) => Raise (PermissionError p)
      | Some (Dir _) => Raise (IsADirectoryError p)
      | None => Raise (FileNotFoundError p)
      end
  | Some (File _ _) => Raise (NotADirectoryError p)
  | None => Raise (FileNotFoundError p)
  end.

(** The [for] loop of [ps_bins] over the paths the glob yields; [rd] is
    what opening and reading a path gives when the body runs. *)
Fixpoint ps_bins_loop (rd : string -> result string) (ps : list string)
    (s : gset string) : result (gset string) :=
  match ps with
  | [] => Ok s
  | p :: r =>
      match rd p with
      | Raise e => Raise e
      | Ok line =>
          match split NUL line with
          | [] => Raise (IndexError "list index out of range")
          | f :: _ =>
              if String.eqb f "" then ps_bins_loop rd r s
              else ps_bins_loop rd r ({[ f ]} ∪ s)
          end
      end
  end.

(** [ps_bins] when the tree is [seen] while the glob enumerates and [now]
    while the loop body opens the records. *)
Definition ps_bins_between (seen now : gmap string node)
    : result (gset string) :=
  ps_bins_loop (open_readline now) (glob_cmdline seen) ∅.

(** [ps_bins(path)] on a tree that does not change during the scan. *)
Definition ps_bins (root : gmap string node) : result (gset string) :=
  ps_bins_between root root.

(** The snapshot in the words of the specification: the non-empty first
    null-separated fields of the command-line records of the directories
    whose names are purely numeric. *)
Definition all_digits (name : string) : bool :=
  negb (String.eqb name "") && forallb is_digit (list_ascii_of_string name).

Definition spec_record_field (e : string * node) : gset string :=
  match e with
  | (name, Dir es) =>
      match es !! "cmdline" with
      | Some (File text _) =>
          let f := fst (split_fields NUL text) in
          if all_digits name && negb (String.eqb f "") then {[ f ]} else ∅
      | _ => ∅
      end
  | _ => ∅
  end.

Definition spec_snapshot (root : gmap string node) : gset string :=
  ⋃ (spec_record_field <$> map_to_list root).

(** The behaviour the specification asks of a scan during which records
    vanish or become unreadable: the scan returns, and returns the fields
    of the records that could still be read. *)
Definition skips_lost_records (seen now : gmap string node) : Prop :=
  ∃ s, ps_bins_between seen now = Ok s ∧
       ∀ name line, name ∈ glob_cmdline seen →
                    open_readline now name = Ok line →
                    fst (split_fields NUL line) ≠ "" →
                    fst (split_fields NUL line) ∈ s.

(** A tree like the one of the specification's example: process [1] runs
    [unifi], process [2] has an empty command line, and [foo] is whatever
    non-numeric entry. *)
Definition proc_example (foo : node) : gmap string node :=
  {[ "1" := Dir {[ "cmdline" := File ("unifi" +:+ str1 NUL) true ]};
     "2" := Dir {[ "cmdline" := File "" true ]};
     "foo" := foo ]}.

Definition records_readable (root : gmap string node) : Prop :=
  ∀ name, name ∈ glob_cmdline root → is_ok (open_readline root name) = true.

(** Two processes, [init] and [unifi]. *)
Definition proc_pair : gmap string node :=
  {[ "1" := Dir {[ "cmdline" := File ("/sbin/init" +:+ str1 NUL) true ]};
     "5" := Dir {[ "cmdline" := File ("unifi" +:+ str1 NUL) true ]} ]}.

Definition proc_1x : gmap string node :=
  {[ "1x" := Dir {[ "cmdline" := File ("bash" +:+ str1 NUL) true ]} ]}.
Definition proc_two_lines : gmap string node :=
  {[ "7" := Dir {[ "cmdline" :=
       File ("a" +:+ str1 LF +:+ "b" +:+ str1 NUL) true ]} ]}.
Definition proc_locked : gmap string node :=
  {[ "7" := Dir {[ "cmdline" := File ("a" +:+ str1 NUL) false ]} ]}.

(** A record that is no text: the bytes ff fe 00. *)
Definition proc_binary : gmap string node :=
  {[ "7" := Dir {[ "cmdline" :=
       File (String (ascii_of_nat 255) (String (ascii_of_nat 254) (str1 NUL)))
         true ]} ]}.


(** ** The world the program acts on *)

(** A regular file of the store: its text and its permission bits. *)
Record file : Type := { f_text : string; f_mode : Z }.

(** What the store holds at a path: a regular file or a directory. *)
Inductive entry : Type :=
| Reg (f : file)
| Directory (mode : Z).

(** What the program does that can be observed from outside besides the
    files it leaves: the lines it prints, the subprocesses it runs, the
    files it opens for reading, and the error its argument parser reports
    for a target before it exits. *)
Inductive event : Type :=
| EvPrint (line : string)
| EvRun (cmd : list string) (cwd : string)
| EvRead (path : string)
| EvError (name : string) (e : exn).

(** The store maps a path, as the program hands it to the operating system,
    to what is there; the trace lists the events so far, oldest first.
    A store describes a file system when the directories on the way to each
    of its entries are directories in it; an entry is made only where the
    directories on the way to it are there. *)
Record World : Type := { w_files : gmap string entry; w_trace : list event }.

(** A computation: from a world to the world it leaves and a value or the
    exception it raised. *)
Definition M (A : Type) : Type := World → World * result A.

Definition ret {A} (a : A) : M A := λ w, (w, Ok a).
Definition raise {A} (e : exn) : M A := λ w, (w, Raise e).
Definition bind {A B} (c : M A) (k : A → M B) : M B :=
  λ w, match c w with
       | (w', Ok a) => k a w'
       | (w', Raise e) => (w', Raise e)
       end.
Definition lift {A} (r : result A) : M A := λ w, (w, r).

Declare Scope M_scope.
Delimit Scope M_scope with M.
Notation "x <- c ;; k" := (bind c (λ x, k))
  (at level 20, c at level 99, k at level 200, only parsing) : M_scope.
Notation "c ;; k" := (bind c (λ _, k))
  (at level 100, k at level 200, only parsing, right associativity) : M_scope.
Local Open Scope M_scope.

Definition emit (e : event) : M unit :=
  λ w, ({| w_files := w_files w; w_trace := w_trace w ++ [e] |}, Ok tt).

(** [print(line)]. *)
Definition print (line : string) : M unit := emit (EvPrint line).

(** ** Paths *)

(** [os.path.join(a, b)]. *)
Definition ends_with_slash (s : string) : bool :=
  match rev (list_ascii_of_string s) with
  | c :: _ => Ascii.eqb c "/"
  | [] => false
  end.

Definition starts_with_slash (s : string) : bool :=
  match s with
  | String c _ => Ascii.eqb c "/"
  | "" => false
  end.

Definition os_path_join (a b : string) : string :=
  if starts_with_slash b then b
  else if String.eqb a "" || ends_with_slash a then a +:+ b
  else a +:+ "/" +:+ b.

(** The root pathlib keeps: exactly two leading slashes stay two. *)
Definition path_root (s : string) : string :=
  match s with
  | String "/" (String "/" (String "/" _)) => "/"
  | String "/" (String "/" _) => "//"
  | String "/" _ => "/"
  | _ => ""
  end.

Definition keep_part (c : string) : bool :=
  negb (String.eqb c "") && negb (String.eqb c ".").

Definition path_parts (s : string) : list string :=
  List.filter keep_part (split "/" s).

(** [str(Path(s))]: the root, then the parts that are neither empty nor
    [.], joined by single slashes. *)
Definition Path (s : string) : string :=
  match path_root s, path_parts s with
  | "", [] => "."
  | r, ps => r +:+ String.concat "/" ps
  end.

(** [str(Path(a, b))] and [str(Path(a).joinpath(b))]. *)
Definition Path2 (a b : string) : string := Path (os_path_join a b).


(** The non-empty beginnings of a list, shortest first. *)
Fixpoint prefixes {A} (l : list A) : list (list A) :=
  match l with
  | [] => []
  | x :: r => [x] :: (cons x <$> prefixes r)
  end.

(** The directories on the way to [p], from the top down: [/a] and [/a/b]
    for [/a/b/c].  The root and the current directory are there on every
    host and are not listed. *)
Definition path_ancestors (p : string) : list string :=
  (λ ps, path_root p +:+ String.concat "/" ps)
    <$> removelast (prefixes (path_parts p)).

(** The walk of the system along the directories [ds] on the way to [p]:
    it stops at the first one that is missing or is no directory. *)
Fixpoint walk (fs : gmap string entry) (p : string) (ds : list string)
    : result unit :=
  match ds with
  | [] => Ok tt
  | d :: r =>
      match fs !! d with
      | Some (Directory _) => walk fs p r
      | Some (Reg _) => Raise (NotADirectoryError p)
      | None => Raise (FileNotFoundError p)
      end
  end.

(** Whether an entry can be made at [p]: every directory on the way is
    there. *)
Definition dirs_check (fs : gmap string entry) (p : string) : result unit :=
  walk fs p (path_ancestors p).

(** The error of a system call on a path at which the store holds nothing:
    [ENOTDIR] when a regular file is on the way, [ENOENT] otherwise. *)
Definition no_entry (fs : gmap string entry) (p : string) : exn :=
  match dirs_check fs p with
  | Raise e => e
  | Ok _ => FileNotFoundError p
  end.

(** [p.exists()]. *)
Definition path_exists (p : string) : M bool :=
  λ w, (w, Ok (bool_decide (is_Some (w_files w !! p)))).

(** [open(p)] for reading in text mode, and the whole text behind it. *)
Definition open_read (p : string) : M string :=
  λ w, match w_files w !! p with
       | Some (Reg f) =>
           ({| w_files := w_files w; w_trace := w_trace w ++ [EvRead p] |},
            Ok (f_text f))
       | Some (Directory _) => (w, Raise (IsADirectoryError p))
       | None => (w, Raise (no_entry (w_files w) p))
       end.

(** ** The csv reader with [delimiter] and the default dialect otherwise *)

(** The lines a text file yields when iterated (universal newlines). *)
Fixpoint readlines (s : string) : list string :=
  match s with
  | "" => []
  | String c r =>
      if Ascii.eqb c LF then str1 LF :: readlines r
      else if Ascii.eqb c CR then
        str1 LF :: match r with
                   | String d r' => if Ascii.eqb d LF then readlines r'
                                    else readlines r
                   | "" => []
                   end
      else match readlines r with
           | [] => [str1 c]
           | l :: ls => String c l :: ls
           end
  end.

(** The states of the reader that the default dialect can reach: it has no
    escape character. *)
Inductive csv_state : Type :=
| START_RECORD | START_FIELD | IN_FIELD | IN_QUOTED_FIELD
| QUOTE_IN_QUOTED_FIELD | EAT_CRNL.

Record csv_reader : Type := {
  r_state : csv_state;
  r_field : string;          (* the field being collected *)
  r_fields : list string     (* the fields of the record so far *)
}.

Definition csv_reset : csv_reader :=
  {| r_state := START_RECORD; r_field := ""; r_fields := [] |}.

Definition parse_save_field (r : csv_reader) (st : csv_state) : csv_reader :=
  {| r_state := st; r_field := ""; r_fields := r_fields r ++ [r_field r] |}.

(** [csv.field_size_limit()], which the program leaves as it is. *)
Definition field_limit : N := 131072.

(** [parse_add_char], a byte at a time: a character is refused when the
    field holds [field_limit] characters. *)
Definition parse_add_char (r : csv_reader) (c : ascii) (st : csv_state)
    : result csv_reader :=
  if negb (is_continuation c) && (field_limit <=? text_len (r_field r))%N
  then Raise (csv_Error "field larger than field limit (131072)")
  else Ok {| r_state := st; r_field := r_field r +:+ str1 c;
             r_fields := r_fields r |}.

Definition set_state (r : csv_reader) (st : csv_state) : csv_reader :=
  {| r_state := st; r_field := r_field r; r_fields := r_fields r |}.

Definition quotechar : ascii := "034"%char.

Definition is_newline (c : ascii) : bool := Ascii.eqb c LF || Ascii.eqb c CR.

(** [parse_process_char]; [None] is the end-of-line mark the reader feeds
    itself after each line. *)
Definition parse_process_char (delimiter : ascii) (r : csv_reader)
    (c : option ascii) : result csv_reader :=
  let start_field r :=
    match c with
    | None => Ok (parse_save_field r START_RECORD)
    | Some c =>
        if is_newline c then Ok (parse_save_field r EAT_CRNL)
        else if Ascii.eqb c quotechar then Ok (set_state r IN_QUOTED_FIELD)
        else if Ascii.eqb c delimiter then Ok (parse_save_field r START_FIELD)
        else parse_add_char r c IN_FIELD
    end in
  match r_state r with
  | START_RECORD =>
      match c with
      | None => Ok r
      | Some c' => if is_newline c' then Ok (set_state r EAT_CRNL)
                   else start_field r
      end
  | START_FIELD => start_field r
  | IN_FIELD =>
      match c with
      | None => Ok (parse_save_field r START_RECORD)
      | Some c =>
          if is_newline c then Ok (parse_save_field r EAT_CRNL)
          else if Ascii.eqb c delimiter then Ok (parse_save_field r START_FIELD)
          else parse_add_char r c IN_FIELD
      end
  | IN_QUOTED_FIELD =>
      match c with
      | None => Ok r
      | Some c =>
          if Ascii.eqb c quotechar then Ok (set_state r QUOTE_IN_QUOTED_FIELD)
          else parse_add_char r c IN_QUOTED_FIELD
      end
  | QUOTE_IN_QUOTED_FIELD =>
      match c with
      | None => Ok (parse_save_field r START_RECORD)
      | Some c =>
          if Ascii.eqb c quotechar then parse_add_char r c IN_QUOTED_FIELD
          else if Ascii.eqb c delimiter then Ok (parse_save_field r START_FIELD)
          else if is_newline c then Ok (parse_save_field r EAT_CRNL)
          else parse_add_char r c IN_FIELD
      end
  | EAT_CRNL =>
      match c with
      | None => Ok (set_state r START_RECORD)
      | Some c =>
          if is_newline c then Ok r
          else Raise (csv_Error "new-line character seen in unquoted field")
      end
  end.

(** The characters of one line, then the end-of-line mark. *)
Fixpoint parse_line (delimiter : ascii) (r : csv_reader) (line : string)
    : result csv_reader :=
  match line with
  | "" => parse_process_char delimiter r None
  | String c rest =>
      match parse_process_char delimiter r (Some c) with
      | Ok r' => parse_line delimiter r' rest
      | Raise e => Raise e
      end
  end.

(** [list(csv_reader(fh, delimiter=...))]: a record is returned when a line
    ends in state [START_RECORD]; at the end of the input a record under
    way is returned as it stands. *)
Fixpoint csv_records (delimiter : ascii) (r : csv_reader) (lines : list string)
    : result (list (list string)) :=
  match lines with
  | [] =>
      if negb (String.eqb (r_field r) "")
         || match r_state r with IN_QUOTED_FIELD => true | _ => false end
      then Ok [r_fields r ++ [r_field r]]
      else Ok []
  | line :: rest =>
      match parse_line delimiter r line with
      | Raise e => Raise e
      | Ok r' =>
          match r_state r' with
          | START_RECORD =>
              match csv_records delimiter csv_reset rest with
              | Ok rows => Ok (r_fields r' :: rows)
              | Raise e => Raise e
              end
          | _ => csv_records delimiter r' rest
          end
      end
  end.

Definition csv_reader_rows (delimiter : ascii) (text : string)
    : result (list (list string)) :=
  csv_records delimiter csv_reset (readlines text).

(** [dict(rows)]: every row must have exactly two elements; a later row
    replaces an earlier one with the same key. *)
Fixpoint dict_of_rows (d : gmap string string) (rows : list (list string))
    : result (gmap string string) :=
  match rows with
  | [] => Ok d
  | [k; v] :: rest => dict_of_rows (<[k := v]> d) rest
  | _ :: _ => Raise (ValueError "dictionary update sequence element has the wrong length; 2 is required")
  end.

(** ** OSrelease *)

Fixpoint all_chars (P : ascii → bool) (s : string) : bool :=
  match s with
  | "" => true
  | String c r => P c && all_chars P r
  end.

Definition upper_char (c : ascii) : ascii :=
  let n := nat_of_ascii c in
  if (97 <=? n)%nat && (n <=? 122)%nat then ascii_of_nat (n - 32) else c.

Definition lower_char (c : ascii) : ascii :=
  let n := nat_of_ascii c in
  if (65 <=? n)%nat && (n <=? 90)%nat then ascii_of_nat (n + 32) else c.

Fixpoint map_string (f : ascii → ascii) (s : string) : string :=
  match s with
  | "" => ""
  | String c r => String (f c) (map_string f r)
  end.

(** Text of ASCII characters. *)
Definition ascii_text : string → bool := all_chars (between 0 127).

(** [s.upper()] and [s.lower()]: the ASCII letters change case, the bytes
    of other characters stay; this is what Python does on [ascii_text]. *)
Definition upper : string → string := map_string upper_char.
Definition lower : string → string := map_string lower_char.

Record OSrelease : Type := {
  _root : string;
  _case_sensitive : bool;
  _exact : bool;
  _fname : string;
  _data : gmap string string
}.

(** Defaults from "man 5 os-release". *)
Definition os_release_defaults : gmap string string :=
  {[ "NAME" := "Linux"; "ID" := "linux"; "PRETTY_NAME" := "Linux" ]}.

(** [dict(csv_reader(fh, delimiter="="))] on the text of a file. *)
Definition parse_os_release (text : string) : result (gmap string string) :=
  match csv_reader_rows "=" text with
  | Ok rows => dict_of_rows ∅ rows
  | Raise e => Raise e
  end.

(** The [for fname in ...] loop of [__init__]: the first candidate that
    exists is parsed and ends the loop. *)
Fixpoint OSrelease_scan (self : OSrelease) (fnames : list string)
    : M OSrelease :=
  match fnames with
  | [] => ret self
  | fname :: rest =>
      let p := Path2 (_root self) fname in
      found <- path_exists p ;;
      if found then
        text <- open_read p ;;
        data <- lift (parse_os_release text) ;;
        ret {| _root := _root self; _case_sensitive := _case_sensitive self;
               _exact := _exact self; _fname := p; _data := data |}
      else OSrelease_scan self rest
  end.

(** [OSrelease.__init__]. *)
Definition OSrelease_init (root : string) (case_sensitive exact : bool)
    : M OSrelease :=
  OSrelease_scan
    {| _root := root; _case_sensitive := case_sensitive; _exact := exact;
       _fname := ""; _data := os_release_defaults |}
    ["etc/os-release"; "usr/lib/os-release"].

(** [OSrelease.__getattr__]. *)
Definition OSrelease_getattr (self : OSrelease) (attr : string)
    : result string :=
  let attr := if _case_sensitive self then attr else upper attr in
  if _exact self && negb (bool_decide (is_Some (_data self !! attr)))
  then Raise (AttributeError
                ("module 'OSrelease' has no attribute '" +:+ attr +:+ "'"))
  else Ok (default "" (_data self !! attr)).

(** The world after one more event. *)
Definition after (w : World) (e : event) : World :=
  {| w_files := w_files w; w_trace := w_trace w ++ [e] |}.

(** What [__init__] leaves when it parses the file [p] holding [text]. *)
Definition OSrelease_from (root : string) (case_sensitive exact : bool)
    (p text : string) : result OSrelease :=
  match parse_os_release text with
  | Ok data => Ok {| _root := root; _case_sensitive := case_sensitive;
                     _exact := exact; _fname := p; _data := data |}
  | Raise e => Raise e
  end.

(** The os-release file [__init__] selects under [root], if any. *)
Definition selected_os_release (root : string) (w : World)
    : option (string * entry) :=
  match w_files w !! Path2 root "etc/os-release" with
  | Some x => Some (Path2 root "etc/os-release", x)
  | None =>
      match w_files w !! Path2 root "usr/lib/os-release" with
      | Some x => Some (Path2 root "usr/lib/os-release", x)
      | None => None
      end
  end.

(** *** Lines of an os-release file *)

(** Text free of line breaks and double quotes, and text that is moreover
    free of [=]. *)
Definition quotable_char (c : ascii) : bool :=
  negb (Ascii.eqb c quotechar) && negb (is_newline c).
Definition plain_char (c : ascii) : bool :=
  negb (Ascii.eqb c "=") && quotable_char c.
Definition quotable : string → bool := all_chars quotable_char.
Definition plain : string → bool := all_chars plain_char.

(** A line [KEY=VALUE] with the value written as it is, or a line
    [KEY="VALUE"] with the value between double quotes. *)
Inductive os_line : Type :=
| Bare (k v : string)
| Quoted (k v : string).

Definition line_key (l : os_line) : string :=
  match l with Bare k _ | Quoted k _ => k end.
Definition line_value (l : os_line) : string :=
  match l with Bare _ v | Quoted _ v => v end.

Definition line_body (l : os_line) : string :=
  match l with
  | Bare k v => k +:+ "=" +:+ v
  | Quoted k v => k +:+ "=" +:+ str1 quotechar +:+ v +:+ str1 quotechar
  end.

Definition render (l : os_line) : string := line_body l +:+ str1 LF.

(** The text of a file made of the given lines. *)
Definition render_all (ls : list os_line) : string :=
  foldr (λ l rest, render l +:+ rest) "" ls.

(** The dictionary a file of such lines stands for: the value of a key is
    that of its last line. *)
Definition dict_add (d : gmap string string) (l : os_line)
    : gmap string string :=
  <[line_key l := line_value l]> d.

Definition dict_of_lines (ls : list os_line) : gmap string string :=
  foldl dict_add ∅ ls.

Definition no_newline : string → bool :=
  all_chars (λ c, negb (is_newline c)).

(** A field the reader takes: text of [field_limit] characters at most. *)
Definition fits (s : string) : bool :=
  is_text s && (text_len s <=? field_limit)%N.

(** A line the reader splits at its first [=] only: the key is plain, and
    the value is plain or, between quotes, free of quotes and line breaks;
    both are fields the reader takes. *)
Definition line_ok (l : os_line) : bool :=
  match l with
  | Bare k v => plain k && plain v && fits k && fits v
  | Quoted k v => plain k && quotable v && fits k && fits v
  end.

(** The characters of [s] fed to the reader, without the end-of-line mark. *)
Fixpoint feed (delimiter : ascii) (r : csv_reader) (s : string)
    : result csv_reader :=
  match s with
  | "" => Ok r
  | String c rest =>
      match parse_process_char delimiter r (Some c) with
      | Ok r' => feed delimiter r' rest
      | Raise e => Raise e
      end
  end.

(** A line of the file, when the reader splits it alone into [row]. *)
Definition parses_to (line : string) (row : list string) : Prop :=
  parse_line "=" csv_reset line =
    Ok {| r_state := START_RECORD; r_field := ""; r_fields := row |}.

Definition line_row (l : os_line) : list string := [line_key l; line_value l].

(** A world that holds the one file [text] at [path] and has no history. *)
Definition world_with (path text : string) : World :=
  {| w_files := {[ path := Reg {| f_text := text; f_mode := 420 |} ]};
     w_trace := [] |}.

Definition empty_world : World := {| w_files := ∅; w_trace := [] |}.

Definition file_of (text : string) : file :=
  {| f_text := text; f_mode := 420 |}.

(** A root that holds both candidate files. *)
Definition world_both : World :=
  {| w_files := {[ "/etc/os-release" := Reg (file_of ("ID=etc" +:+ str1 LF));
                   "/usr/lib/os-release" := Reg (file_of ("ID=lib" +:+ str1 LF)) ]};
     w_trace := [] |}.

(** ** The command-line frontend: options *)

(** [s.partition(sep)] for a one-character separator: the text before the
    first separator, the separator, and the text after it. *)
Fixpoint partition (sep : ascii) (s : string) : string * string * string :=
  match s with
  | "" => ("", "", "")
  | String c r =>
      if Ascii.eqb c sep then ("", str1 sep, r)
      else let '(a, b, t) := partition sep r in (String c a, b, t)
  end.

(** A value of the keyword arguments handed to a profile. *)
Inductive value : Type :=
| VStr (s : string)
| VBool (b : bool).

(** [v in ('y', 'yes', 't', 'true')]. *)
Definition is_yes (v : string) : bool :=
  existsb (String.eqb v) ["y"; "yes"; "t"; "true"].

(** The body of [for kv in args.option]. *)
Definition option_step (sb_args : gmap string value) (kv : string)
    : gmap string value :=
  if contains_char "=" kv then
    let '(k, _, v) := partition "=" kv in
    if String.eqb k "upgrade"
    then <[k := VBool (is_yes (lower v))]> sb_args
    else <[k := VStr v]> sb_args
  else sb_args.

(** The namespace [p.parse_args] returns. *)
Record Args : Type := {
  a_list : bool;
  a_image_path : string;
  a_name : string;
  a_option : list string
}.

(** [sb_args] when the loop over the options is over. *)
Definition main_sb_args (args : Args) : gmap string value :=
  let image_path :=
    if String.eqb (a_image_path args) "" then a_name args
    else a_image_path args in
  foldl option_step {[ "image_path" := VStr image_path ]} (a_option args).

(** The profiles the frontend knows. *)
Inductive profile : Type := PAlpine | PFedora | PUbuntu | PUnc | PHb.

Definition profile_of_name (name : string) : option profile :=
  if String.eqb name "alpine" then Some PAlpine
  else if String.eqb name "fedora" then Some PFedora
  else if String.eqb name "ubuntu" then Some PUbuntu
  else if String.eqb name "unc" then Some PUnc
  else if String.eqb name "hb" then Some PHb
  else None.

(** [except Exception]: every exception of the model but [SystemExit]. *)
Definition is_Exception (e : exn) : bool :=
  match e with SystemExit _ => false | _ => true end.

(** [p.error(f"{name}, {str(e)}")]: the parser writes its usage and this
    message to standard error and exits with status 2. *)
Definition parser_error (name : string) (e : exn) : M unit :=
  λ w, ({| w_files := w_files w; w_trace := w_trace w ++ [EvError name e] |},
        Raise (SystemExit 2)).

(** The [try] statement that ends [main]: the profile named [name] is
    constructed with the keyword arguments [sb_args]. *)
Definition main_construct (construct : profile → gmap string value → M unit)
    (name : string) (sb_args : gmap string value) : M unit :=
  λ w, let attempt :=
         match profile_of_name name with
         | Some c => construct c sb_args w
         | None => (w, Raise (KeyError name))
         end in
       match attempt with
       | (w', Raise e) =>
           if is_Exception e then parser_error name e w' else (w', Raise e)
       | ok => ok
       end.

(** [main], from the parsed arguments on; [construct] is the call of the
    class of a profile with keyword arguments. *)
Definition main_with (construct : profile → gmap string value → M unit)
    (args : Args) : M unit :=
  if a_list args then
    print "alpine               tag=str, pkgs=str, upgrade=bool" ;;
    print "fedora               tag=str, pkgs=str, upgrade=bool" ;;
    print "hb                   " ;;
    print "ubuntu               tag=str, pkgs=str, upgrade=bool" ;;
    print "unc                  "
  else main_construct construct (a_name args) (main_sb_args args).

(** The option that sets the key [upgrade]: it begins with [upgrade=]. *)
Definition sets_upgrade (kv : string) : bool := startswith "upgrade=" kv.

(** ** More string methods *)

Definition DQ : string := str1 quotechar.

Definition string_rev (s : string) : string :=
  string_of_list_ascii (rev (list_ascii_of_string s)).

(** [s.endswith(suf)]. *)
Definition endswith (suf s : string) : bool :=
  startswith (string_rev suf) (string_rev s).

(** [needle in hay]. *)
Fixpoint contains (needle hay : string) : bool :=
  startswith needle hay
  || match hay with
     | "" => false
     | String _ r => contains needle r
     end.

(** The characters [str.split()] splits at, among ASCII. *)
Definition is_space (c : ascii) : bool :=
  let n := nat_of_ascii c in
  ((9 <=? n)%nat && (n <=? 13)%nat) || ((28 <=? n)%nat && (n <=? 32)%nat).

Fixpoint split_ws_go (cur : option string) (s : string) : list string :=
  match s with
  | "" => match cur with Some w => [w] | None => [] end
  | String c r =>
      if is_space c then
        match cur with
        | Some w => w :: split_ws_go None r
        | None => split_ws_go None r
        end
      else split_ws_go (Some (default "" cur +:+ str1 c)) r
  end.

(** [s.split()]: the words between runs of white space. *)
Definition split_ws (s : string) : list string := split_ws_go None s.

(** [s[:-1]]. *)
Definition drop_last (s : string) : string :=
  string_of_list_ascii (removelast (list_ascii_of_string s)).

(** [shlex.quote]: the characters that need no quoting are the ASCII
    letters and digits and [_@%+=:,./-]. *)
Definition is_safe_char (c : ascii) : bool :=
  let n := nat_of_ascii c in
  ((48 <=? n)%nat && (n <=? 57)%nat) || ((65 <=? n)%nat && (n <=? 90)%nat)
  || ((97 <=? n)%nat && (n <=? 122)%nat) || contains_char c "_@%+=:,./-".

Fixpoint replace_squote (s : string) : string :=
  match s with
  | "" => ""
  | String c r =>
      if Ascii.eqb c "'" then "'" +:+ DQ +:+ "'" +:+ DQ +:+ "'" +:+ replace_squote r
      else String c (replace_squote r)
  end.

Definition quote (s : string) : string :=
  if String.eqb s "" then "''"
  else if all_chars is_safe_char s then s
  else "'" +:+ replace_squote s +:+ "'".

(** [str(Path(p).parent)]. *)
Definition path_parent (p : string) : string :=
  match path_parts p with
  | [] => Path p
  | ps => match path_root p, removelast ps with
          | "", [] => "."
          | r, qs => r +:+ String.concat "/" qs
          end
  end.

(** ** The host *)

(** What the program asks of the machine it runs on. *)
Record Host : Type := {
  h_getuser : string;                 (* getpass.getuser() *)
  h_proc : gmap string node;          (* the tree under /proc *)
  h_cwd : string;                     (* os.getcwd() *)
  h_resolve : string → string;        (* str(Path(p).resolve()) *)
  h_which : string → option string;   (* shutil.which *)
  h_architecture : string;            (* platform.architecture()[0] *)
  h_machine : string;                 (* os.uname().machine *)
  h_umask : Z;
  (* a subprocess run with [cmd] in [cwd]: the store it leaves and its
     exit status *)
  h_sp_run : list string → string → gmap string entry → gmap string entry * Z
}.

(** ** File operations *)

Definition set_files (w : World) (fs : gmap string entry) : World :=
  {| w_files := fs; w_trace := w_trace w |}.

(** [open(p, 'wb')] and [fh.write(data)]: an existing file is truncated
    and keeps its mode; a new one is made where the directories on the way
    to it are there, with the mode the umask leaves of 0o666. *)
Definition write_bytes (umask : Z) (p data : string) : M unit :=
  λ w, match w_files w !! p with
       | Some (Directory _) => (w, Raise (IsADirectoryError p))
       | Some (Reg f) =>
           (set_files w (<[p := Reg {| f_text := data; f_mode := f_mode f |}]>
                           (w_files w)), Ok tt)
       | None =>
           match dirs_check (w_files w) p with
           | Raise e => (w, Raise e)
           | Ok _ =>
               (set_files w (<[p := Reg {| f_text := data;
                                           f_mode := Z.ldiff 438 umask |}]>
                               (w_files w)), Ok tt)
           end
       end.

(** [open(p, 'w')] and [fh.write(data)]: the file is opened as by
    [write_bytes], and what is no text is refused when it is written, the
    file being left empty. *)
Definition write_text (umask : Z) (p data : string) : M unit :=
  if is_text data then write_bytes umask p data
  else write_bytes umask p "" ;; raise (UnicodeEncodeError p).

(** The mode of [os.chmod] is a C [int]. *)
Definition in_C_int (n : Z) : bool :=
  ((-2147483648 <=? n) && (n <=? 2147483647))%Z.

(** [p.chmod(perms)]: a mode that is no C [int] is refused before the
    system is called; the permission bits are the low twelve bits. *)
Definition chmod (p : string) (perms : Z) : M unit :=
  λ w, if negb (in_C_int perms) then
         (w, Raise (OverflowError "Python int too large to convert to C int"))
       else
         match w_files w !! p with
         | Some (Reg f) =>
             (set_files w (<[p := Reg {| f_text := f_text f;
                                         f_mode := Z.land perms 4095 |}]>
                             (w_files w)), Ok tt)
         | Some (Directory _) =>
             (set_files w (<[p := Directory (Z.land perms 4095)]> (w_files w)),
              Ok tt)
         | None => (w, Raise (no_entry (w_files w) p))
         end.

(** [p.unlink(missing_ok=True)]: only [FileNotFoundError] is passed
    over. *)
Definition unlink_missing_ok (p : string) : M unit :=
  λ w, match w_files w !! p with
       | Some (Reg _) => (set_files w (delete p (w_files w)), Ok tt)
       | Some (Directory _) => (w, Raise (IsADirectoryError p))
       | None =>
           match no_entry (w_files w) p with
           | FileNotFoundError _ => (w, Ok tt)
           | e => (w, Raise e)
           end
       end.

(** [S_IMODE(os.stat(p).st_mode)]. *)
Definition stat_mode (p : string) : M Z :=
  λ w, match w_files w !! p with
       | Some (Reg f) => (w, Ok (Z.land (f_mode f) 4095))
       | Some (Directory m) => (w, Ok (Z.land m 4095))
       | None => (w, Raise (no_entry (w_files w) p))
       end.

(** [shutil.copymode(src, dst)]. *)
Definition copymode (src dst : string) : M unit :=
  m <- stat_mode src ;; chmod dst m.

(** [shutil.copy(src, dst)] when [dst] is not a directory. *)
Definition copy (umask : Z) (src dst : string) : M unit :=
  text <- open_read src ;;
  write_bytes umask dst text ;;
  copymode src dst.

(** [p.mkdir(exist_ok=True)]: the directories on the way are not made. *)
Definition mkdir_exist_ok (umask : Z) (p : string) : M unit :=
  λ w, match w_files w !! p with
       | Some (Directory _) => (w, Ok tt)
       | Some (Reg _) => (w, Raise (FileExistsError p))
       | None =>
           match dirs_check (w_files w) p with
           | Raise e => (w, Raise e)
           | Ok _ =>
               (set_files w (<[p := Directory (Z.ldiff 511 umask)]>
                               (w_files w)), Ok tt)
           end
       end.

(** What [mkfile] is given to write: a string, or a list of lines. *)
Inductive filedata : Type :=
| Text (s : string)
| Lines (l : list string).

(** What [exec] is given to run: a string to split, or a list of words. *)
Inductive command : Type :=
| Words (s : string)
| Argv (l : list string).

(** ** Singularity *)

Record Singularity : Type := { image_path : string; prog : string }.

Section Singularity.
Context (host : Host).

(** [Singularity.__init__]. *)
Definition Singularity_init (image_path : string) : M Singularity :=
  let image_path :=
    if contains_char "/" image_path then image_path
    else Path2 (h_cwd host) image_path in
  let image_path := h_resolve host (Path image_path) in
  found <- path_exists image_path ;;
  if found then
    raise (FileExistsError ("refusing to overwrite '" +:+ image_path +:+ "'"))
  else
    match h_which host "singularity" with
    | None => raise (FileNotFoundError "'singularity' binary not in PATH")
    | Some prog => ret {| image_path := image_path; prog := prog |}
    end.

(** [sp_run(cmd, cwd=cwd, check=True)]. *)
Definition sp_run (cmd : list string) (cwd : string) : M unit :=
  λ w, let (fs, code) := h_sp_run host cmd cwd (w_files w) in
       let w' := {| w_files := fs; w_trace := w_trace w ++ [EvRun cmd cwd] |} in
       if Z.eqb code 0 then (w', Ok tt)
       else (w', Raise (CalledProcessError cmd code)).

(** [Singularity._run]. *)
Definition _run (cmd : list string) (cwd : string) : M unit :=
  let s := foldl (λ s t, s +:+ quote t +:+ " ") "" cmd in
  print ("# cmd: " +:+ drop_last s) ;;
  print ("# cwd: " +:+ quote cwd) ;;
  sp_run cmd cwd.

(** [Singularity.build]. *)
Definition build (self : Singularity) (spec : string) : M unit :=
  _run [prog self; "build"; "--sandbox"; "--fix-perms"; image_path self; spec]
    (path_parent (image_path self)).

(** [Singularity.localtime]. *)
Definition localtime (self : Singularity) : M unit :=
  let dst := Path2 (image_path self) "etc/localtime" in
  unlink_missing_ok dst ;;
  copy (h_umask host) "/etc/localtime" dst ;;
  copymode "/etc/localtime" dst.

(** [Singularity.mkfile]. *)
Definition mkfile (self : Singularity) (rel_name : string) (data : filedata)
    (perms : Z) : M unit :=
  let p := Path2 (image_path self) rel_name in
  found <- path_exists p ;;
  if found then
    raise (FileExistsError ("refusing to overwrite '" +:+ p +:+ "'"))
  else
    let data := match data with
                | Lines l => String.concat (str1 LF) l +:+ str1 LF
                | Text s => s
                end in
    write_text (h_umask host) p data ;;
    chmod p perms.

(** [Singularity.mkenv]. *)
Definition Singularity_mkenv (self : Singularity)
    (name tag editor editor_args : string) : M unit :=
  let data := [ "#!/bin/sh";
                "export EDITOR='" +:+ editor +:+ "'";
                "export EDITOR_ARGUMENTS='" +:+ editor_args +:+ "'";
                "prompt='#'";
                "grep -q '^overlay /' /proc/mounts && prompt='$'" ] in
  let ps1 := "export PS1=" +:+ DQ +:+ "(" +:+ name in
  let ps1 := if String.eqb tag "" then ps1 else ps1 +:+ ":" +:+ tag in
  let ps1 := ps1 +:+ ") $USER@$SINGULARITY_NAME \w $prompt " +:+ DQ in
  mkfile self ".singularity.d/env/99-zzzzzzzz-final-env.sh"
    (Lines (data ++ [ps1])) 493.

(** [Singularity.exec]. *)
Definition exec (self : Singularity) (cmd : command) (admin : bool)
    : M unit :=
  let cmd := match cmd with Words s => split_ws s | Argv l => l end in
  let pre := [prog self; "exec"] in
  let pre := if admin then pre ++ ["--fakeroot"; "--writable"] else pre in
  _run (pre ++ [image_path self] ++ cmd) "/".

(** [Singularity.helpers]. *)
Definition helpers (self : Singularity) : M unit :=
  mkfile self "usr/local/bin/ll"
    (Lines ["#!/bin/sh";
            "/bin/ls --color=auto -lFh " +:+ DQ +:+ "$@" +:+ DQ]) 493 ;;
  mkfile self "usr/local/bin/la"
    (Lines ["#!/bin/sh";
            "/bin/ls --color=auto -lFha " +:+ DQ +:+ "$@" +:+ DQ]) 493 ;;
  mkfile self "usr/local/bin/e"
    (Lines ["#!/bin/sh";
            "test -z " +:+ DQ +:+ "$EDITOR" +:+ DQ +:+ " && EDITOR="
              +:+ DQ +:+ "vi" +:+ DQ;
            "$EDITOR $EDITOR_ARGUMENTS " +:+ DQ +:+ "$@" +:+ DQ]) 493.

End Singularity.

(** ** DistroDocker and the three distributions *)

(** The class an object was made from decides which [update_distro],
    [upgrade_distro] and [install_distro] it has.  The two application
    profiles are Ubuntu objects. *)
Inductive distro : Type := Generic | Alpine | Fedora | Ubuntu.

Record DistroDocker : Type := {
  dd_sandbox : Singularity;      (* what [Singularity.__init__] set *)
  dd_class : distro;
  _dd_editor : string;
  _dd_editor_args : string;
  _dd_updated : bool;
  _dd_pkgs : list string
}.

(** [str(self.image_path)]. *)
Definition sandbox_path (self : DistroDocker) : string :=
  image_path (dd_sandbox self).

Definition set_updated (self : DistroDocker) : DistroDocker :=
  {| dd_sandbox := dd_sandbox self; dd_class := dd_class self;
     _dd_editor := _dd_editor self; _dd_editor_args := _dd_editor_args self;
     _dd_updated := true; _dd_pkgs := _dd_pkgs self |}.

Section DistroDocker.
Context (host : Host).

(** [update_distro]: "Update the distro package database". *)
Definition update_distro (self : DistroDocker) : M unit :=
  match dd_class self with
  | Alpine => exec host (dd_sandbox self) (Words "apk update") true
  | Ubuntu => exec host (dd_sandbox self) (Words "apt -y update") true
  | Fedora | Generic => ret tt
  end.

(** [upgrade_distro]: "Upgrade the distro installed packages". *)
Definition upgrade_distro (self : DistroDocker) : M unit :=
  match dd_class self with
  | Alpine => exec host (dd_sandbox self) (Words "apk upgrade") true
  | Fedora => exec host (dd_sandbox self) (Words "dnf -y upgrade") true
  | Ubuntu => exec host (dd_sandbox self) (Words "apt -y upgrade") true
  | Generic => ret tt
  end.

(** [install_distro]: "install packages in pkg_list". *)
Definition install_distro (self : DistroDocker) (pkg_list : list string)
    : M unit :=
  match dd_class self with
  | Alpine => exec host (dd_sandbox self) (Argv (["apk"; "add"] ++ pkg_list)) true
  | Fedora =>
      exec host (dd_sandbox self) (Argv (["dnf"; "-y"; "install"] ++ pkg_list)) true
  | Ubuntu =>
      exec host (dd_sandbox self) (Argv (["apt"; "-y"; "install"] ++ pkg_list)) true
  | Generic => ret tt
  end.

(** [DistroDocker.update]; the object it returns is [self] after the
    call. *)
Definition update (self : DistroDocker) : M DistroDocker :=
  if negb (_dd_updated self) then
    update_distro self ;;
    ret (set_updated self)
  else ret self.

(** [DistroDocker.upgrade]. *)
Definition upgrade (self : DistroDocker) : M DistroDocker :=
  self <- update self ;;
  upgrade_distro self ;;
  ret self.

(** [DistroDocker.install]. *)
Definition install (self : DistroDocker) : M DistroDocker :=
  match _dd_pkgs self with
  | [] => ret self
  | _ :: _ =>
      self <- update self ;;
      install_distro self (_dd_pkgs self) ;;
      ret self
  end.

(** [DistroDocker.mkenv]. *)
Definition DistroDocker_mkenv (self : DistroDocker) : M unit :=
  o <- OSrelease_init (sandbox_path self) false false ;;
  id <- lift (OSrelease_getattr o "id") ;;
  version_id <- lift (OSrelease_getattr o "version_id") ;;
  Singularity_mkenv host (dd_sandbox self) id version_id
    (_dd_editor self) (_dd_editor_args self).

(** [getattr(self, fn_name)()] for the names of the steps a build can be
    made of; the program never passes another list of extras than the
    default one, to which [install] and [upgrade] are appended. *)
Definition call_extra (self : DistroDocker) (fn_name : string)
    : M DistroDocker :=
  if String.eqb fn_name "localtime" then
    localtime host (dd_sandbox self) ;; ret self
  else if String.eqb fn_name "helpers" then
    helpers host (dd_sandbox self) ;; ret self
  else if String.eqb fn_name "mkenv" then DistroDocker_mkenv self ;; ret self
  else if String.eqb fn_name "install" then install self
  else if String.eqb fn_name "upgrade" then upgrade self
  else if String.eqb fn_name "update" then update self
  else if String.eqb fn_name "update_distro" then update_distro self ;; ret self
  else if String.eqb fn_name "upgrade_distro" then upgrade_distro self ;; ret self
  else raise (AttributeError
                ("object has no attribute '" +:+ fn_name +:+ "'")).

(** [for fn_name in extras]. *)
Fixpoint run_extras (self : DistroDocker) (extras : list string)
    : M DistroDocker :=
  match extras with
  | [] => ret self
  | fn_name :: rest =>
      print ("# extra: " +:+ fn_name +:+ "()") ;;
      self <- call_extra self fn_name ;;
      run_extras self rest
  end.

(** [DistroDocker.__init__] for an object of class [cls]. *)
Definition DistroDocker_init (cls : distro)
    (name image_path tag editor editor_args extras pkgs : string)
    (upgrade : bool) : M DistroDocker :=
  let pkgs := if String.eqb editor "vi" then pkgs else pkgs +:+ " " +:+ editor in
  let extras := split_ws extras in
  let extras :=
    if negb (String.eqb pkgs "") && negb (bool_decide ("install" ∈ extras))
    then extras ++ ["install"] else extras in
  let extras := if upgrade then extras ++ ["upgrade"] else extras in
  let image_path := if String.eqb image_path "" then name else image_path in
  sandbox <- Singularity_init host image_path ;;
  let self := {| dd_sandbox := sandbox; dd_class := cls;
                 _dd_editor := editor; _dd_editor_args := editor_args;
                 _dd_updated := false; _dd_pkgs := split_ws pkgs |} in
  build host sandbox ("docker://" +:+ name +:+ ":" +:+ tag) ;;
  run_extras self extras.

(** [Alpine.__init__], [Fedora.__init__] and [Ubuntu.__init__]; the last
    also for an object of a subclass. *)
Definition Alpine_init (image_path tag pkgs : string) (upgrade : bool)
    : M DistroDocker :=
  DistroDocker_init Alpine "alpine" image_path tag "nano" ""
    "localtime helpers mkenv" pkgs upgrade.

Definition Fedora_init (image_path tag pkgs : string) (upgrade : bool)
    : M DistroDocker :=
  DistroDocker_init Fedora "fedora" image_path tag "nano" ""
    "localtime helpers mkenv" pkgs upgrade.

Definition Ubuntu_init (image_path tag pkgs : string) (upgrade : bool)
    : M DistroDocker :=
  DistroDocker_init Ubuntu "ubuntu" image_path tag "nano" ""
    "localtime helpers mkenv" pkgs upgrade.

(** [n] calls of [self.update()] in a row. *)
Fixpoint update_times (n : nat) (self : DistroDocker) : M DistroDocker :=
  match n with
  | O => ret self
  | S n => self <- update self ;; update_times n self
  end.

End DistroDocker.

(** ** JSON values as Python holds them *)

#[warnings="-register-all"]
Inductive json : Type :=
| JNull
| JBool (b : bool)
| JInt (n : Z)
| JFloat (repr : string)
| JStr (s : string)
| JArr (items : list json)
| JObj (members : list (string * json)).

(** [d.get(key)] and [d[key] = v] on the members of a dict, which keeps the
    order of insertion. *)
Fixpoint obj_get (key : string) (ms : list (string * json)) : option json :=
  match ms with
  | [] => None
  | (k, v) :: r => if String.eqb k key then Some v else obj_get key r
  end.

Fixpoint obj_set (key : string) (v : json) (ms : list (string * json))
    : list (string * json) :=
  match ms with
  | [] => [(key, v)]
  | (k, x) :: r =>
      if String.eqb k key then (k, v) :: r else (k, x) :: obj_set key v r
  end.

(** [data[key]] for a string key. *)
Definition py_getitem (data : json) (key : string) : result json :=
  match data with
  | JObj ms => match obj_get key ms with
               | Some v => Ok v
               | None => Raise (KeyError key)
               end
  | JArr _ => Raise (TypeError "list indices must be integers or slices, not str")
  | JStr _ => Raise (TypeError "string indices must be integers")
  | _ => Raise (TypeError "object is not subscriptable")
  end.

(** The values [for pl in x] goes through. *)
Definition py_iter (x : json) : result (list json) :=
  match x with
  | JArr items => Ok items
  | JObj ms => Ok ((λ m, JStr (fst m)) <$> ms)
  | JStr s => Ok ((λ c, JStr (str1 c)) <$> list_ascii_of_string s)
  | _ => Raise (TypeError "object is not iterable")
  end.

(** [x == 'config']. *)
Definition is_config (x : json) : bool :=
  match x with
  | JStr s => String.eqb s "config"
  | _ => false
  end.

Definition log_to_file : json :=
  JObj [("method", JStr "file"); ("path", JStr "/tmp/homebridge.log")].

(** The loop over the platforms: the first entry whose [platform] is
    [config] gets the [log] member and ends the loop.  The result is the
    list with that entry changed, or nothing when no entry was found. *)
Fixpoint add_log (pls : list json) : result (option (list json)) :=
  match pls with
  | [] => Ok None
  | pl :: rest =>
      match pl with
      | JObj ms =>
          if is_config (default (JStr "") (obj_get "platform" ms))
          then Ok (Some (JObj (obj_set "log" log_to_file ms) :: rest))
          else match add_log rest with
               | Ok (Some rest') => Ok (Some (pl :: rest'))
               | Ok None => Ok None
               | Raise e => Raise e
               end
      | _ => Raise (AttributeError "object has no attribute 'get'")
      end
  end.

(** An entry of the platforms list whose [platform] member equals
    [config]. *)
Definition config_platform (pl : json) : Prop :=
  ∃ ms, pl = JObj ms ∧ obj_get "platform" ms = Some (JStr "config").

(** ** The application profiles *)

Section profiles.
Context (host : Host).
Context (json_load : string → result json) (json_dumps : json → string).

(** The loop of [UnifiNetworkController.__init__] over the process
    snapshot. *)
Fixpoint unc_scan (names : list string) (ps_haveged ps_unc : bool)
    : bool * bool :=
  match names with
  | [] => (ps_haveged, ps_unc)
  | name :: rest =>
      let '(h, u) :=
        if String.eqb name "unifi" then (ps_haveged, true)
        else if endswith "/haveged" name then (true, ps_unc)
        else (ps_haveged, ps_unc) in
      if h && u then (h, u) else unc_scan rest h u
  end.

(** [UnifiNetworkController.__init__]. *)
Definition UnifiNetworkController_init (image_path : string)
    : M DistroDocker :=
  if String.eqb (h_getuser host) "root" then
    raise (RuntimeError "UNC does not support root-owned containers")
  else
    names <- lift (ps_bins (h_proc host)) ;;
    let '(ps_haveged, ps_unc) := unc_scan (elements names) false false in
    if ps_unc then
      raise (RuntimeError
               "UNC requires all existing running versions on this host to be stopped before installing")
    else
      let pkgs := "dialog less logrotate procps apt-transport-https "
                  +:+ "ca-certificates gnupg wget mongodb-server" in
      let image_path := if String.eqb image_path "" then "unc" else image_path in
      let tag :=
        if String.eqb (h_architecture host) "32bit"
           && startswith "arm" (h_machine host)
        then "xenial" else "focal" in
      self <- Ubuntu_init host image_path tag pkgs true ;;
      print "# Adding UniFi key and the UNC apt repository" ;;
      exec host (dd_sandbox self)
        (Words "apt-key adv --keyserver keyserver.ubuntu.com --recv 06E85760C0A52C50")
        true ;;
      mkfile host (dd_sandbox self) "etc/apt/sources.list.d/100-ubnt-unifi.list"
        (Lines ["deb https://www.ui.com/downloads/unifi/debian stable ubiquiti"])
        420 ;;
      update_distro host self ;;
      (if String.eqb tag "xenial" then ret tt
       else exec host (dd_sandbox self) (Words "apt-mark hold openjdk-1?-*") true) ;;
      install_distro host self ["openjdk-8-jre-headless"; "unifi"] ;;
      exec host (dd_sandbox self) (Words "apt autoremove -y") true ;;
      print "" ;;
      (if ps_haveged then ret tt
       else print ("WARNING: UNC requires the " +:+ DQ +:+ "haveged" +:+ DQ
                   +:+ " daemon on headless hosts to generate sufficient entropy")) ;;
      print "# UNC runs on https://localhost:8443" ;;
      print "# Start:" ;;
      print ("#   singularity exec -fw " +:+ sandbox_path self
             +:+ " /etc/init.d/unifi start") ;;
      ret self.

(** [Homebridge.__init__] up to the making of the home directory: the
    object, and whether the discovery daemon runs on the host. *)
Definition Homebridge_install (image_path : string)
    : M (DistroDocker * bool) :=
  names <- lift (ps_bins (h_proc host)) ;;
  let ps_avahid := existsb (contains "avahi-daemon:") (elements names) in
  let pkgs := "dialog less gcc g++ make python net-tools wget" in
  let pkgs := if ps_avahid then pkgs else pkgs +:+ " avahi-daemon" in
  let image_path := if String.eqb image_path "" then "hb" else image_path in
  self <- Ubuntu_init host image_path "focal" pkgs true ;;
  print "# Node.js install LTS release" ;;
  exec host (dd_sandbox self)
    (Words "wget -O /nodejs_lts_installer.bash https://deb.nodesource.com/setup_16.x")
    true ;;
  exec host (dd_sandbox self) (Words "bash /nodejs_lts_installer.bash") true ;;
  install_distro host self ["nodejs"] ;;
  exec host (dd_sandbox self)
    (Words "npm install --global --unsafe-perm homebridge homebridge-config-ui-x")
    true ;;
  exec host (dd_sandbox self) (Words "hb-service install --user root") true ;;
  mkdir_exist_ok (h_umask host)
    (Path2 (sandbox_path self) "root/.homebridge") ;;
  print "# config.json setup and manual log addition" ;;
  ret (self, ps_avahid).

(** The change [Homebridge.__init__] makes to the loaded configuration. *)
Definition config_with_log (data : json) : result json :=
  match py_getitem data "platforms" with
  | Raise e => Raise e
  | Ok platforms =>
      match py_iter platforms with
      | Raise e => Raise e
      | Ok pls =>
          match add_log pls with
          | Raise e => Raise e
          | Ok None => Raise (RuntimeError "unable to add logging to config.json")
          | Ok (Some pls') =>
              match data with
              | JObj ms => Ok (JObj (obj_set "platforms" (JArr pls') ms))
              | _ => Ok data
              end
          end
      end
  end.

(** [Homebridge.__init__] from the reading of [config.json] to the move
    of the changed configuration into place. *)
Definition Homebridge_logging (self : DistroDocker) : M unit :=
  let cfg_p := Path2 (sandbox_path self) "var/lib/homebridge/config.json" in
  text <- open_read cfg_p ;;
  data <- lift (json_load text) ;;
  data <- lift (config_with_log data) ;;
  mkfile host (dd_sandbox self) "/homebridge_config.json"
    (Text (json_dumps data)) 420 ;;
  exec host (dd_sandbox self)
    (Words "mv -v /homebridge_config.json /root/.homebridge/config.json") true.

(** The closing messages of [Homebridge.__init__]. *)
Definition Homebridge_messages (self : DistroDocker) (ps_avahid : bool)
    : M unit :=
  let exec_fw := "singularity exec -fw " +:+ sandbox_path self in
  print "" ;;
  print "# Homebridge runs on http://localhost:8581/login" ;;
  print "#   user: admin / password: admin" ;;
  print "# Update:" ;;
  print ("#   " +:+ exec_fw +:+ " hb-service update-node") ;;
  print "# Start:" ;;
  (if ps_avahid then ret tt
   else print ("#   " +:+ exec_fw +:+ " /etc/init.d/dbus restart") ;;
        print ("#   " +:+ exec_fw +:+ " /etc/init.d/avahi-daemon restart")) ;;
  print ("#   (" +:+ exec_fw +:+ " homebridge | tee -a /tmp/homebridge.log) &").

(** [Homebridge.__init__]. *)
Definition Homebridge_init (image_path : string) : M DistroDocker :=
  r <- Homebridge_install image_path ;;
  Homebridge_logging (fst r) ;;
  Homebridge_messages (fst r) (snd r) ;;
  ret (fst r).

(** *** Calling a class with keyword arguments *)

Definition check_keywords (allowed : list string) (kw : gmap string value)
    : result unit :=
  match List.filter (λ k, negb (bool_decide (k ∈ allowed)))
          (fst <$> map_to_list kw) with
  | [] => Ok tt
  | k :: _ =>
      Raise (TypeError
               ("__init__() got an unexpected keyword argument '" +:+ k +:+ "'"))
  end.

(** The frontend stores a boolean under [upgrade] and strings under every
    other key; a value of the other kind does not arise. *)
Definition kw_str (kw : gmap string value) (key dflt : string)
    : result string :=
  match kw !! key with
  | None => Ok dflt
  | Some (VStr s) => Ok s
  | Some (VBool _) => Raise (TypeError ("a string is expected for " +:+ key))
  end.

Definition kw_bool (kw : gmap string value) (key : string) (dflt : bool)
    : result bool :=
  match kw !! key with
  | None => Ok dflt
  | Some (VBool b) => Ok b
  | Some (VStr _) => Raise (TypeError ("a boolean is expected for " +:+ key))
  end.

(** The call of the class of a profile with [sb_args] as its keyword
    arguments. *)
Definition construct (c : profile) (kw : gmap string value) : M unit :=
  match c with
  | PAlpine | PFedora | PUbuntu =>
      lift (check_keywords ["image_path"; "tag"; "pkgs"; "upgrade"] kw) ;;
      image_path <- lift (kw_str kw "image_path" "") ;;
      tag <- lift (kw_str kw "tag" "latest") ;;
      pkgs <- lift (kw_str kw "pkgs" "") ;;
      upgrade <- lift (kw_bool kw "upgrade" false) ;;
      match c with
      | PAlpine => Alpine_init host image_path tag pkgs upgrade
      | PFedora => Fedora_init host image_path tag pkgs upgrade
      | _ => Ubuntu_init host image_path tag pkgs upgrade
      end ;;
      ret tt
  | PUnc =>
      lift (check_keywords ["image_path"] kw) ;;
      image_path <- lift (kw_str kw "image_path" "") ;;
      UnifiNetworkController_init image_path ;;
      ret tt
  | PHb =>
      lift (check_keywords ["image_path"] kw) ;;
      image_path <- lift (kw_str kw "image_path" "") ;;
      Homebridge_init image_path ;;
      ret tt
  end.

(** [main], from the parsed arguments on. *)
Definition main (args : Args) : M unit := main_with construct args.

End profiles.

(** The text [mkfile] writes for the data it is given. *)
Definition file_text (data : filedata) : string :=
  match data with
  | Lines l => String.concat (str1 LF) l +:+ str1 LF
  | Text s => s
  end.

(** The number of subprocesses a trace records. *)
Definition runs (t : list event) : nat :=
  length (List.filter (λ e, match e with EvRun _ _ => true | _ => false end) t).

(** A host on which every subprocess succeeds and leaves the store as it
    is. *)
Definition quiet_host : Host :=
  {| h_getuser := "ann"; h_proc := proc_example (Dir ∅);
     h_cwd := "/home/ann"; h_resolve := λ p, p;
     h_which := λ _, Some "/usr/bin/singularity";
     h_architecture := "64bit"; h_machine := "x86_64"; h_umask := 18;
     h_sp_run := λ _ _ fs, (fs, 0%Z) |}.

Definition box : Singularity :=
  {| image_path := "/home/ann/box"; prog := "/usr/bin/singularity" |}.

(** The store [fs] with the directories [ds], and with the directories on
    the way to [p]. *)
Definition with_dirs (ds : list string) (fs : gmap string entry)
    : gmap string entry :=
  foldr (λ d, <[d := Directory 493]>) fs ds.

Definition with_parents (p : string) (fs : gmap string entry)
    : gmap string entry :=
  with_dirs (path_ancestors p) fs.



Definition fresh (cls : distro) : DistroDocker :=
  {| dd_sandbox := box; dd_class := cls; _dd_editor := "nano";
     _dd_editor_args := ""; _dd_updated := false; _dd_pkgs := ["nano"] |}.

(** The host of [quiet_host] with root as its user. *)
Definition root_host : Host :=
  {| h_getuser := "root"; h_proc := ∅;
     h_cwd := "/root"; h_resolve := λ p, p;
     h_which := λ _, Some "/usr/bin/singularity";
     h_architecture := "64bit"; h_machine := "x86_64"; h_umask := 18;
     h_sp_run := λ _ _ fs, (fs, 0%Z) |}.

(** What [singularity build --sandbox] leaves at [path], as far as the
    program goes on to use it: the directory and in it the directories of
    a root file system. *)
Definition sandbox_dirs : list string :=
  ["etc"; "usr"; "usr/local"; "usr/local/bin"; ".singularity.d";
   ".singularity.d/env"; "root"; "var"; "var/lib"].

Definition built (path : string) (fs : gmap string entry)
    : gmap string entry :=
  with_dirs (path :: ((λ d, path +:+ "/" +:+ d) <$> sandbox_dirs))
    (with_parents path fs).

(** A configuration without a [config] platform, and a loader that returns
    it whatever the text. *)
Definition config_without : json :=
  JObj [("bridge", JObj [("name", JStr "Homebridge")]);
        ("platforms", JArr [JObj [("platform", JStr "cmdSwitch2")]])].

Definition world_config : World :=
  world_with "/home/ann/box/var/lib/homebridge/config.json" "{}".

(** A host on which every subprocess succeeds, and on which the command
    [hb-service] leaves a [config.json] in the image [/home/ann/hb]. *)
Definition hb_host : Host :=
  {| h_getuser := "ann"; h_proc := ∅;
     h_cwd := "/home/ann"; h_resolve := λ p, p;
     h_which := λ _, Some "/usr/bin/singularity";
     h_architecture := "64bit"; h_machine := "x86_64"; h_umask := 18;
     h_sp_run := λ cmd _ fs,
       if bool_decide ("build" ∈ cmd)
       then (built (default "" (cmd !! 4%nat)) fs, 0%Z)
       else if bool_decide ("hb-service" ∈ cmd)
       then (<["/home/ann/hb/var/lib/homebridge/config.json" :=
                 Reg (file_of "{}")]>
               (<["/home/ann/hb/var/lib/homebridge" := Directory 493]> fs),
             0%Z)
       else (fs, 0%Z) |}.

(** The world before the build on that host: the host has its
    [/etc/localtime] and the home directory of the user. *)
Definition world_hb : World :=
  {| w_files := with_dirs ["/etc"; "/home"; "/home/ann"]
                  {[ "/etc/localtime" := Reg (file_of "TZif") ]};
     w_trace := [] |}.

Definition is_move (e : event) : bool :=
  match e with
  | EvRun cmd _ => bool_decide ("mv" ∈ cmd)
  | _ => false
  end.

(** ** The other methods of OSrelease *)

(** [OSrelease.file]. *)
Definition OSrelease_file (self : OSrelease) : string := _fname self.

(** [OSrelease.parms]: [sorted(list(self._data.keys()))]. *)
Definition OSrelease_parms (self : OSrelease) : list string :=
  merge_sort String.le (fst <$> map_to_list (_data self)).

(** [self] with the key [k] removed from its data. *)
Definition without_key (k : string) (self : OSrelease) : OSrelease :=
  {| _root := _root self; _case_sensitive := _case_sensitive self;
     _exact := _exact self; _fname := _fname self;
     _data := delete k (_data self) |}.

(** A root with an [etc/os-release] that holds a comment line, and a
    well-formed [usr/lib/os-release]. *)
Definition world_comment : World :=
  {| w_files :=
       {[ "/etc/os-release" :=
            Reg (file_of (render_all [Bare "ID" "demo"] +:+ "# a comment"
                          +:+ str1 LF +:+ render_all [Bare "NAME" "Demo"]));
          "/usr/lib/os-release" := Reg (file_of (render_all [Bare "ID" "lib"])) ]};
     w_trace := [] |}.

(** ** What every computation of the program keeps *)

(** The trace of [w'] continues that of [w]. *)
Definition grows (w w' : World) : Prop := ∃ t, w_trace w' = w_trace w ++ t.

(** A result that, when it is an exception, is one [except Exception]
    catches. *)
Definition mild {A} (r : result A) : Prop :=
  ∀ e, r = Raise e → is_Exception e = true.

(** A computation that only adds to the trace and raises only such
    exceptions. *)
Definition tame {A} (c : M A) : Prop :=
  ∀ w, grows w (fst (c w)) ∧ mild (snd (c w)).

(** The keyword arguments the class of a profile accepts. *)
Definition accepted_keywords (c : profile) : list string :=
  match c with
  | PAlpine | PFedora | PUbuntu => ["image_path"; "tag"; "pkgs"; "upgrade"]
  | PUnc | PHb => ["image_path"]
  end.

(** The constructor of the class of a distribution profile. *)
Definition distribution_init (host : Host) (c : profile)
    : string → string → string → bool → M DistroDocker :=
  match c with
  | PAlpine => Alpine_init host
  | PFedora => Fedora_init host
  | _ => Ubuntu_init host
  end.

(** The coercion of [upgrade] in the words of the specification: for every
    option [upgrade=<v>] of an invocation the constructor of the selected
    profile receives the boolean [<v>] stands for, and no error comes of
    the option. *)
Definition spec_upgrade_received (host : Host)
    (json_load : string → result json) (json_dumps : json → string)
    (args : Args) (w : World) : Prop :=
  ∀ v, "upgrade=" +:+ v ∈ a_option args →
       main_sb_args args !! "upgrade" = Some (VBool (is_yes (lower v))) ∧
       ∀ c msg, profile_of_name (a_name args) = Some c →
                construct host json_load json_dumps c (main_sb_args args) w
                ≠ (w, Raise (TypeError msg)).

(** The keyword arguments hold a boolean under [upgrade] and strings under
    every other key. *)
Definition well_typed (kw : gmap string value) : Prop :=
  ∀ k v, kw !! k = Some v →
         match v with VBool _ => k = "upgrade" | VStr _ => k ≠ "upgrade" end.

(** The path [Singularity.__init__] settles on when a profile named [name]
    is asked for the image path [image_path]. *)
Definition sandbox_target (host : Host) (name image_path : string) : string :=
  let image_path := if String.eqb image_path "" then name else image_path in
  h_resolve host
    (Path (if contains_char "/" image_path then image_path
           else Path2 (h_cwd host) image_path)).

(** The command line of a build from the Docker image [name:tag]. *)
Definition build_command (prog path name tag : string) : list string :=
  [prog; "build"; "--sandbox"; "--fix-perms"; path;
   "docker://" +:+ name +:+ ":" +:+ tag].

(** The tag of the Ubuntu image the network controller is built from. *)
Definition unifi_tag (host : Host) : string :=
  if String.eqb (h_architecture host) "32bit" && startswith "arm" (h_machine host)
  then "xenial" else "focal".

(** A 32-bit ARM host without running processes. *)
Definition armhf_host : Host :=
  {| h_getuser := "pi"; h_proc := ∅;
     h_cwd := "/home/pi"; h_resolve := λ p, p;
     h_which := λ _, Some "/usr/bin/singularity";
     h_architecture := "32bit"; h_machine := "armv7l"; h_umask := 18;
     h_sp_run := λ _ _ fs, (fs, 0%Z) |}.

(** A host on which the build tool fails. *)
Definition failing_host : Host :=
  {| h_getuser := "ann"; h_proc := ∅;
     h_cwd := "/home/ann"; h_resolve := λ p, p;
     h_which := λ _, Some "/usr/bin/singularity";
     h_architecture := "64bit"; h_machine := "x86_64"; h_umask := 18;
     h_sp_run := λ _ _ fs, (fs, 255%Z) |}.

(** A host without the build tool in its [PATH]. *)
Definition bare_host : Host :=
  {| h_getuser := "ann"; h_proc := ∅;
     h_cwd := "/home/ann"; h_resolve := λ p, p;
     h_which := λ _, None;
     h_architecture := "64bit"; h_machine := "x86_64"; h_umask := 18;
     h_sp_run := λ _ _ fs, (fs, 0%Z) |}.

(** The option that sets the key [k]: it begins with [k=]. *)
Definition sets_key (k kv : string) : bool := startswith (k +:+ "=") kv.

(** The sandbox [box] as a build leaves it, on a host with its
    [/etc/localtime], and on a host without. *)
Definition world_built : World :=
  {| w_files := built "/home/ann/box" (w_files world_hb); w_trace := [] |}.

Definition world_no_zone : World :=
  {| w_files := built "/home/ann/box" ∅; w_trace := [] |}.

(** A configuration with a [config] platform after another one. *)
Definition config_with : json :=
  JObj [("bridge", JObj [("name", JStr "Homebridge")]);
        ("platforms", JArr [JObj [("platform", JStr "cmdSwitch2")];
                            JObj [("platform", JStr "config");
                                  ("port", JInt 8581)]])].

(** * Properties *)

Section ps_bins_facts.
Implicit Types (root seen now : gmap string node) (s : gset string).

Lemma split_cons sep line :
  split sep line = fst (split_fields sep line) :: snd (split_fields sep line).
Proof. unfold split. by destruct (split_fields sep line). Qed.

Lemma elem_of_select_cmdline name es :
  name ∈ select_cmdline es ↔
  ∃ x, (name, x) ∈ es ∧ match_digit_star name = true ∧ has_cmdline x = true.
Proof.
  induction es as [|[n x] es IH]; simpl.
  - split; [by intros ?%elem_of_nil | by intros (? & ?%elem_of_nil & _)].
  - destruct (match_digit_star n && has_cmdline x) eqn:E.
    + rewrite elem_of_cons, IH. apply andb_true_iff in E as [E1 E2]. split.
      * intros [-> | (y & Hy & H1 & H2)].
        -- exists x. split; [by left|done].
        -- exists y. split; [by right|done].
      * intros (y & [Heq|Hy]%elem_of_cons & H1 & H2).
        -- left. congruence.
        -- right. by exists y.
    + rewrite IH. split.
      * intros (y & Hy & H1 & H2). exists y. split; [by right|done].
      * intros (y & [Heq|Hy]%elem_of_cons & H1 & H2).
        -- injection Heq as -> ->. rewrite H1, H2 in E. done.
        -- by exists y.
Qed.

Lemma elem_of_glob_cmdline name root :
  name ∈ glob_cmdline root ↔
  ∃ x, root !! name = Some x ∧ match_digit_star name = true ∧
       has_cmdline x = true.
Proof.
  unfold glob_cmdline. rewrite elem_of_select_cmdline.
  by setoid_rewrite elem_of_map_to_list.
Qed.

(** When every path can be read the loop returns, with the non-empty
    first fields added to the set it started from. *)
Lemma ps_bins_loop_ok rd ps s :
  (∀ p, p ∈ ps → is_ok (rd p) = true) →
  ∃ s', ps_bins_loop rd ps s = Ok s' ∧
        ∀ f, f ∈ s' ↔
             f ∈ s ∨ (f ≠ "" ∧ ∃ p line, p ∈ ps ∧ rd p = Ok line ∧
                               fst (split_fields NUL line) = f).
Proof.
  revert s. induction ps as [|p ps IH]; intros s Hok; simpl.
  - exists s. split; [done|]. intros f. split; [by left|].
    intros [?|(_ & ? & ? & ?%elem_of_nil & _)]; done.
  - assert (Hp : is_ok (rd p) = true) by (apply Hok; left).
    destruct (rd p) as [line|] eqn:Erd; [|done]. rewrite split_cons.
    assert (Hps : ∀ q, q ∈ ps → is_ok (rd q) = true)
      by (intros; apply Hok; by right).
    destruct (String.eqb_spec (fst (split_fields NUL line)) "") as [E0|E0].
    + destruct (IH s Hps) as (s' & -> & Hs'). exists s'. split; [done|].
      intros f. rewrite Hs'. split.
      * intros [?|(? & q & l & ? & ? & ?)]; [by left|right].
        split; [done|]. exists q, l. rewrite elem_of_cons. auto.
      * intros [?|(Hf & q & l & [->|?]%elem_of_cons & Hq & Hl)]; [by left| |].
        -- rewrite Erd in Hq. simplify_eq.
        -- right. eauto 8.
    + destruct (IH ({[fst (split_fields NUL line)]} ∪ s) Hps)
        as (s' & -> & Hs').
      exists s'. split; [done|]. intros f. rewrite Hs'.
      rewrite elem_of_union, elem_of_singleton. split.
      * intros [[->|?]|(? & q & l & ? & ? & ?)]; [right|by left|right].
        -- split; [done|]. exists p, line. rewrite elem_of_cons. auto.
        -- split; [done|]. exists q, l. rewrite elem_of_cons. auto.
      * intros [?|(Hf & q & l & [->|?]%elem_of_cons & Hq & Hl)]; [auto| |].
        -- rewrite Erd in Hq. by simplify_eq; auto.
        -- right. eauto 8.
Qed.

End ps_bins_facts.

Section ps_bins_claims.
Implicit Types (root seen now : gmap string node) (s : gset string).

Lemma open_readline_ok root name line :
  open_readline root name = Ok line ↔
  ∃ es data, root !! name = Some (Dir es) ∧
             es !! "cmdline" = Some (File data true) ∧
             text_readline (name +:+ "/cmdline") data = Ok line.
Proof.
  unfold open_readline. split.
  - destruct (root !! name) as [[?|es]|] eqn:E1; try done.
    destruct (es !! "cmdline") as [[data []|?]|] eqn:E2; try done.
    intros H. eauto.
  - by intros (es & data & -> & -> & ->).
Qed.

(** C6 (as amended): on a tree whose enumerated records can all be opened
    and their first line read, which asks that it decodes, [ps_bins]
    returns exactly the non-empty first null-separated fields of the first
    line of the [cmdline] records of the directories whose name begins with
    a decimal digit; on the tree with process directories [1] (record
    [unifi\0]) and [2] (empty record) and a non-numeric entry [foo] it
    returns exactly the set holding [unifi]; on a tree with a record that
    is no text in the encoding of the locale it raises
    [UnicodeDecodeError]. *)
Theorem ps_bins_snapshot :
  (∀ root, records_readable root →
     ∃ s, ps_bins root = Ok s ∧
          ∀ f, f ∈ s ↔
               f ≠ "" ∧
               ∃ name es data line,
                 root !! name = Some (Dir es) ∧
                 match_digit_star name = true ∧
                 es !! "cmdline" = Some (File data true) ∧
                 text_readline (name +:+ "/cmdline") data = Ok line ∧
                 fst (split_fields NUL line) = f) ∧
  (∀ foo, ps_bins (proc_example foo) = Ok {[ "unifi" ]}) ∧
  ps_bins proc_binary = Raise (UnicodeDecodeError "7/cmdline").
Proof.
  split_and!; [|intros foo; vm_compute; reflexivity|vm_compute; reflexivity].
  intros root Hrd.
  destruct (ps_bins_loop_ok (open_readline root) (glob_cmdline root) ∅ Hrd)
    as (s & Hs & Hin).
  exists s. split; [exact Hs|]. intros f. rewrite Hin. split.
  - intros [[]%not_elem_of_empty|(Hf & p & line & Hp & Hl & <-)].
    split; [done|].
    apply open_readline_ok in Hl as (es & data & Hes & Hc & Hl).
    apply elem_of_glob_cmdline in Hp as (x & Hx & Hm & _).
    exists p, es, data, line. done.
  - intros (Hf & name & es & data & line & Hes & Hm & Hc & Hl & <-). right.
    split; [done|]. exists name, line. split_and!.
    + apply elem_of_glob_cmdline. exists (Dir es). simpl. by rewrite Hc.
    + apply open_readline_ok. eauto.
    + done.
Qed.

Lemma ps_bins_snapshot_witness :
  records_readable (proc_example (File "" false)) ∧
  ∃ s, ps_bins (proc_example (File "" false)) = Ok s ∧
       ∀ f, f ∈ s ↔
            f ≠ "" ∧
            ∃ name es data line,
              proc_example (File "" false) !! name = Some (Dir es) ∧
              match_digit_star name = true ∧
              es !! "cmdline" = Some (File data true) ∧
              text_readline (name +:+ "/cmdline") data = Ok line ∧
              fst (split_fields NUL line) = f.
Proof.
  assert (H : records_readable (proc_example (File "" false))).
  { intros name Hn. vm_compute in Hn.
    apply elem_of_cons in Hn as [->|Hn]; [reflexivity|].
    apply elem_of_cons in Hn as [->|Hn]; [reflexivity|].
    by apply elem_of_nil in Hn. }
  split; [exact H|]. exact (proj1 ps_bins_snapshot _ H).
Defined.

(** C6, as the specification words it, fails on a directory whose name
    only begins with a digit, on a record whose first field holds a line
    break, and on a record that cannot be opened. *)
Lemma ps_bins_snapshot_counterexample :
  ps_bins proc_1x ≠ Ok (spec_snapshot proc_1x) ∧
  ps_bins proc_two_lines ≠ Ok (spec_snapshot proc_two_lines) ∧
  ps_bins proc_locked ≠ Ok (spec_snapshot proc_locked).
Proof. split_and!; vm_compute; discriminate. Qed.

(** C7 (as amended): [ps_bins] handles no error.  When a record that the
    glob enumerated cannot be opened when the loop reaches it (its
    directory or the record vanished, or it is unreadable), the scan fails
    with the error of such a record and returns no set. *)
Theorem ps_bins_lost_record_raises seen now name e0 :
  name ∈ glob_cmdline seen →
  open_readline now name = Raise e0 →
  ∃ p e, p ∈ glob_cmdline seen ∧ open_readline now p = Raise e ∧
         ps_bins_between seen now = Raise e.
Proof.
  unfold ps_bins_between. generalize (∅ : gset string).
  induction (glob_cmdline seen) as [|q ps IH]; intros s Hin Hr.
  - by apply elem_of_nil in Hin.
  - simpl. destruct (open_readline now q) as [line|e] eqn:Erd.
    + apply elem_of_cons in Hin as [->|Hin]; [congruence|].
      rewrite split_cons.
      destruct (String.eqb _ _);
        edestruct IH as (p & e & ? & ? & ->); eauto;
        exists p, e; rewrite elem_of_cons; auto.
    + exists q, e. rewrite elem_of_cons. auto.
Qed.

Lemma ps_bins_lost_record_raises_witness :
  "1" ∈ glob_cmdline proc_pair ∧
  open_readline (delete "1" proc_pair) "1"
    = Raise (FileNotFoundError "1/cmdline") ∧
  ∃ p e, p ∈ glob_cmdline proc_pair ∧
         open_readline (delete "1" proc_pair) p = Raise e ∧
         ps_bins_between proc_pair (delete "1" proc_pair) = Raise e.
Proof.
  assert (H1 : "1" ∈ glob_cmdline proc_pair) by (vm_compute; right; left).
  assert (H2 : open_readline (delete "1" proc_pair) "1"
               = Raise (FileNotFoundError "1/cmdline"))
    by (vm_compute; reflexivity).
  split_and!; [exact H1 | exact H2 |].
  exact (ps_bins_lost_record_raises _ _ _ _ H1 H2).
Defined.

(** C7, as the specification words it, fails when process [1] exits
    between the enumeration and the reading of its record: the scan
    raises instead of returning [unifi], the field of the record that
    remains; it fails as well on a record that is there but unreadable. *)
Lemma ps_bins_lost_record_counterexample :
  ¬ skips_lost_records proc_pair (delete "1" proc_pair) ∧
  ps_bins_between proc_pair (delete "1" proc_pair)
    = Raise (FileNotFoundError "1/cmdline") ∧
  ¬ skips_lost_records proc_locked proc_locked.
Proof.
  split_and!; [|vm_compute; reflexivity|];
    intros (s & Hs & _); vm_compute in Hs; discriminate.
Qed.

End ps_bins_claims.

Section OSrelease_claims.
Implicit Types (w : World) (root attr : string).

Lemma path_exists_Some p w x :
  w_files w !! p = Some x → path_exists p w = (w, Ok true).
Proof. intros H. unfold path_exists. by rewrite H. Qed.

Lemma path_exists_None p w :
  w_files w !! p = None → path_exists p w = (w, Ok false).
Proof. intros H. unfold path_exists. by rewrite H. Qed.

Lemma OSrelease_scan_found self fname rest w f :
  w_files w !! Path2 (_root self) fname = Some (Reg f) →
  OSrelease_scan self (fname :: rest) w =
    (after w (EvRead (Path2 (_root self) fname)),
     OSrelease_from (_root self) (_case_sensitive self) (_exact self)
       (Path2 (_root self) fname) (f_text f)).
Proof.
  intros H. simpl. unfold bind. rewrite (path_exists_Some _ _ _ H).
  unfold open_read. rewrite H. unfold lift, OSrelease_from, after.
  by destruct (parse_os_release (f_text f)).
Qed.

Lemma OSrelease_scan_directory self fname rest w m :
  w_files w !! Path2 (_root self) fname = Some (Directory m) →
  OSrelease_scan self (fname :: rest) w =
    (w, Raise (IsADirectoryError (Path2 (_root self) fname))).
Proof.
  intros H. simpl. unfold bind. rewrite (path_exists_Some _ _ _ H).
  unfold open_read. by rewrite H.
Qed.

Lemma OSrelease_scan_missing self fname rest w :
  w_files w !! Path2 (_root self) fname = None →
  OSrelease_scan self (fname :: rest) w = OSrelease_scan self rest w.
Proof.
  intros H. simpl. unfold bind. by rewrite (path_exists_None _ _ H).
Qed.



End OSrelease_claims.

Section csv_facts.
Implicit Types (r : csv_reader) (s k v : string) (fs : list string).

Lemma append_nil_l s : "" +:+ s = s.
Proof. reflexivity. Qed.

Lemma append_cons c s1 s2 : String c s1 +:+ s2 = String c (s1 +:+ s2).
Proof. reflexivity. Qed.

Lemma append_assoc s1 s2 s3 : (s1 +:+ s2) +:+ s3 = s1 +:+ (s2 +:+ s3).
Proof.
  induction s1 as [|c s1 IH]; [done|]. by rewrite !append_cons, IH.
Qed.

Lemma append_nil_r s : s +:+ "" = s.
Proof. induction s as [|c s IH]; [done|]. by rewrite append_cons, IH. Qed.

Lemma parse_line_feed d r s :
  parse_line d r s =
    match feed d r s with
    | Ok r' => parse_process_char d r' None
    | Raise e => Raise e
    end.
Proof.
  revert r. induction s as [|c s IH]; intros r; simpl; [done|].
  by destruct (parse_process_char d r (Some c)).
Qed.

Lemma feed_app d r s1 s2 :
  feed d r (s1 +:+ s2) =
    match feed d r s1 with
    | Ok r' => feed d r' s2
    | Raise e => Raise e
    end.
Proof.
  revert r. induction s1 as [|c s1 IH]; intros r; [done|].
  rewrite append_cons. simpl.
  by destruct (parse_process_char d r (Some c)).
Qed.

Lemma plain_char_inv c :
  plain_char c = true →
  Ascii.eqb c "=" = false ∧ Ascii.eqb c quotechar = false ∧
  is_newline c = false.
Proof.
  unfold plain_char, quotable_char.
  destruct (Ascii.eqb c "="), (Ascii.eqb c quotechar), (is_newline c); done.
Qed.

Lemma quotable_char_inv c :
  quotable_char c = true →
  Ascii.eqb c quotechar = false ∧ is_newline c = false.
Proof.
  unfold quotable_char.
  destruct (Ascii.eqb c quotechar), (is_newline c); done.
Qed.

Lemma text_len_app s1 s2 :
  text_len (s1 +:+ s2) = (text_len s1 + text_len s2)%N.
Proof.
  induction s1 as [|c s1 IH]; [done|]. rewrite append_cons. simpl.
  rewrite IH. lia.
Qed.

Lemma fits_len s : fits s = true → (text_len s ≤ field_limit)%N.
Proof. unfold fits. intros [_ H]%andb_true_iff. by apply N.leb_le. Qed.

(** A character is taken while the field stays within the limit. *)
Lemma parse_add_char_fits st0 f fs c st :
  (text_len (f +:+ str1 c) ≤ field_limit)%N →
  parse_add_char {| r_state := st0; r_field := f; r_fields := fs |} c st
  = Ok {| r_state := st; r_field := f +:+ str1 c; r_fields := fs |}.
Proof.
  intros H. unfold parse_add_char. simpl.
  rewrite text_len_app in H. simpl in H.
  destruct (is_continuation c); simpl; [done|].
  destruct (N.leb_spec field_limit (text_len f)); [lia|done].
Qed.

Lemma text_len_step f c s :
  (text_len (f +:+ String c s) ≤ field_limit)%N →
  (text_len (f +:+ str1 c) ≤ field_limit)%N ∧
  (text_len ((f +:+ str1 c) +:+ s) ≤ field_limit)%N.
Proof.
  rewrite !text_len_app. simpl. lia.
Qed.

(** Plain text is collected into the field under way. *)
Lemma feed_plain st f fs s :
  plain s = true →
  (text_len (f +:+ s) ≤ field_limit)%N →
  st = IN_FIELD ∨ (s ≠ "" ∧ (st = START_FIELD ∨ st = START_RECORD)) →
  feed "=" {| r_state := st; r_field := f; r_fields := fs |} s =
    Ok {| r_state := IN_FIELD; r_field := f +:+ s; r_fields := fs |}.
Proof.
  revert st f. induction s as [|c s IH]; intros st f Hp Hlen Hst; simpl.
  - destruct Hst as [->|[? _]]; [|done]. by rewrite append_nil_r.
  - simpl in Hp. apply andb_true_iff in Hp as [Hc Hs].
    apply plain_char_inv in Hc as (H1 & H2 & H3).
    apply text_len_step in Hlen as [Hlen1 Hlen2].
    assert (parse_process_char "=" {| r_state := st; r_field := f;
                                      r_fields := fs |} (Some c)
            = Ok {| r_state := IN_FIELD; r_field := f +:+ str1 c;
                    r_fields := fs |}) as ->.
    { destruct Hst as [->|[_ [->| ->]]];
        unfold parse_process_char; simpl; rewrite ?H1, ?H2, ?H3;
        by apply parse_add_char_fits. }
    rewrite IH by auto. by rewrite append_assoc.
Qed.

(** Between quotes everything but a quote is collected, [=] included. *)
Lemma feed_quotable f fs s :
  quotable s = true →
  (text_len (f +:+ s) ≤ field_limit)%N →
  feed "=" {| r_state := IN_QUOTED_FIELD; r_field := f; r_fields := fs |} s =
    Ok {| r_state := IN_QUOTED_FIELD; r_field := f +:+ s; r_fields := fs |}.
Proof.
  revert f. induction s as [|c s IH]; intros f Hp Hlen; simpl.
  - by rewrite append_nil_r.
  - simpl in Hp. apply andb_true_iff in Hp as [Hc Hs].
    apply quotable_char_inv in Hc as (H2 & H3).
    apply text_len_step in Hlen as [Hlen1 Hlen2].
    unfold parse_process_char; simpl. rewrite H2.
    rewrite parse_add_char_fits by done. rewrite IH by auto.
    by rewrite append_assoc.
Qed.

(** The key and the [=] after it. *)
Lemma feed_key k rest :
  plain k = true → (text_len k ≤ field_limit)%N →
  feed "=" csv_reset (k +:+ "=" +:+ rest) =
    feed "=" {| r_state := START_FIELD; r_field := ""; r_fields := [k] |} rest.
Proof.
  intros Hk Hlen. destruct k as [|c k]; [done|].
  rewrite feed_app. unfold csv_reset.
  rewrite (feed_plain START_RECORD "" [] _ Hk)
    by (done || (right; split; [done|by right])).
  reflexivity.
Qed.

Lemma parse_line_key k rest :
  plain k = true → (text_len k ≤ field_limit)%N →
  parse_line "=" csv_reset (k +:+ "=" +:+ rest) =
    parse_line "="
      {| r_state := START_FIELD; r_field := ""; r_fields := [k] |} rest.
Proof. intros Hk Hlen. by rewrite !parse_line_feed, feed_key. Qed.

(** A plain value up to the end of the line. *)
Lemma parse_line_bare fs v :
  plain v = true → (text_len v ≤ field_limit)%N →
  parse_line "="
    {| r_state := START_FIELD; r_field := ""; r_fields := fs |}
    (v +:+ str1 LF) =
    Ok {| r_state := START_RECORD; r_field := ""; r_fields := fs ++ [v] |}.
Proof.
  intros Hv Hlen. rewrite parse_line_feed, feed_app.
  destruct v as [|c v]; [done|].
  rewrite (feed_plain START_FIELD "" fs _ Hv)
    by (done || (right; split; [done|by left])).
  reflexivity.
Qed.

(** A value between quotes up to the end of the line. *)
Lemma parse_line_quoted fs v :
  quotable v = true → (text_len v ≤ field_limit)%N →
  parse_line "="
    {| r_state := START_FIELD; r_field := ""; r_fields := fs |}
    (str1 quotechar +:+ v +:+ str1 quotechar +:+ str1 LF) =
    Ok {| r_state := START_RECORD; r_field := ""; r_fields := fs ++ [v] |}.
Proof.
  intros Hv Hlen. rewrite parse_line_feed. unfold str1 at 1.
  rewrite append_cons, append_nil_l. simpl.
  unfold parse_process_char at 1; simpl. unfold set_state; simpl.
  rewrite feed_app, feed_quotable by done. done.
Qed.

(** A value that holds no quote and no line break, read outside quotes:
    every [=] in it ends a field. *)
Lemma feed_unquoted st f fs s :
  quotable s = true →
  (text_len (f +:+ s) ≤ field_limit)%N →
  st = START_FIELD ∨ st = IN_FIELD →
  ∃ st' f' fs',
    feed "=" {| r_state := st; r_field := f; r_fields := fs |} s =
      Ok {| r_state := st'; r_field := f'; r_fields := fs' |} ∧
    (st' = START_FIELD ∨ st' = IN_FIELD) ∧
    (length fs + (if contains_char "=" s then 1 else 0) ≤ length fs')%nat.
Proof.
  revert st f fs. induction s as [|c s IH]; intros st f fs Hq Hlen Hst.
  - exists st, f, fs. simpl. split_and!; [done|done|lia].
  - simpl in Hq. apply andb_true_iff in Hq as [Hc Hs].
    apply quotable_char_inv in Hc as (H2 & H3). simpl.
    destruct (Ascii.eqb c "=") eqn:He.
    + assert (parse_process_char "=" {| r_state := st; r_field := f;
                                        r_fields := fs |} (Some c)
              = Ok {| r_state := START_FIELD; r_field := "";
                      r_fields := fs ++ [f] |}) as ->.
      { destruct Hst as [->| ->]; unfold parse_process_char; simpl;
          by rewrite ?H2, ?H3, ?He. }
      destruct (IH START_FIELD "" (fs ++ [f]) Hs) as (st' & f' & fs' & -> & ? & Hl);
        [|by left|].
      { rewrite text_len_app in Hlen. simpl in Hlen. rewrite append_nil_l. lia. }
      exists st', f', fs'. split_and!; [done|done|].
      rewrite length_app in Hl. simpl in Hl. lia.
    + apply text_len_step in Hlen as [Hlen1 Hlen2].
      assert (parse_process_char "=" {| r_state := st; r_field := f;
                                        r_fields := fs |} (Some c)
              = Ok {| r_state := IN_FIELD; r_field := f +:+ str1 c;
                      r_fields := fs |}) as ->.
      { destruct Hst as [->| ->]; unfold parse_process_char; simpl;
          rewrite ?H2, ?H3, ?He; by apply parse_add_char_fits. }
      destruct (IH IN_FIELD (f +:+ str1 c) fs Hs) as (st' & f' & fs' & -> & ? & Hl);
        [done|by right|].
      exists st', f', fs'. done.
Qed.

Lemma parse_line_unquoted fs v :
  quotable v = true → (text_len v ≤ field_limit)%N →
  ∃ row,
    parse_line "="
      {| r_state := START_FIELD; r_field := ""; r_fields := fs |}
      (v +:+ str1 LF) =
      Ok {| r_state := START_RECORD; r_field := ""; r_fields := row |} ∧
    (length fs + (if contains_char "=" v then 1 else 0) + 1 ≤ length row)%nat.
Proof.
  intros Hv Hlen. rewrite parse_line_feed, feed_app.
  destruct (feed_unquoted START_FIELD "" fs v Hv) as (st & f & fs' & -> & Hst & Hl);
    [done|by left|].
  exists (fs' ++ [f]). rewrite length_app. simpl. split; [|lia].
  by destruct Hst as [-> | ->].
Qed.

Lemma all_chars_app P s1 s2 :
  all_chars P (s1 +:+ s2) = all_chars P s1 && all_chars P s2.
Proof.
  induction s1 as [|c s1 IH]; [done|].
  rewrite append_cons. simpl. by rewrite IH, andb_assoc.
Qed.

Lemma all_chars_impl (P Q : ascii → bool) s :
  (∀ c, P c = true → Q c = true) → all_chars P s = true →
  all_chars Q s = true.
Proof.
  intros HPQ. induction s as [|c s IH]; simpl; [done|].
  intros [? ?]%andb_true_iff. apply andb_true_iff. auto.
Qed.

Lemma quotable_no_newline s : quotable s = true → no_newline s = true.
Proof.
  apply all_chars_impl. intros c [_ ->]%quotable_char_inv. done.
Qed.

Lemma plain_quotable s : plain s = true → quotable s = true.
Proof.
  apply all_chars_impl. unfold plain_char. by intros c [_ ?]%andb_true_iff.
Qed.

(** A line without line breaks inside is what iterating the file yields
    first. *)
Lemma readlines_line b rest :
  no_newline b = true →
  readlines (b +:+ str1 LF +:+ rest) = (b +:+ str1 LF) :: readlines rest.
Proof.
  induction b as [|c b IH]; intros Hb; [done|].
  simpl in Hb. apply andb_true_iff in Hb as [Hc Hb].
  rewrite !append_cons. simpl. rewrite IH by done.
  unfold is_newline in Hc.
  destruct (Ascii.eqb c LF), (Ascii.eqb c CR); done.
Qed.

Lemma line_ok_inv l :
  line_ok l = true →
  plain (line_key l) = true ∧
  (match l with Bare _ v => plain v | Quoted _ v => quotable v end) = true ∧
  fits (line_key l) = true ∧ fits (line_value l) = true.
Proof.
  destruct l as [k v|k v]; simpl;
    intros [[[Hk Hv]%andb_true_iff Hfk]%andb_true_iff Hfv]%andb_true_iff;
    done.
Qed.

Lemma line_ok_parses l : line_ok l = true → parses_to (render l) (line_row l).
Proof.
  intros (Hk & Hv & Hfk%fits_len & Hfv%fits_len)%line_ok_inv.
  unfold parses_to, render, line_row.
  destruct l as [k v|k v]; simpl in *.
  - rewrite !append_assoc, parse_line_key by done.
    by rewrite parse_line_bare.
  - rewrite !append_assoc, parse_line_key by done.
    by rewrite parse_line_quoted.
Qed.

(** An unquoted value with an embedded [=] gives a row of three fields or
    more. *)
Lemma bare_embedded_parses k v :
  plain k = true → quotable v = true →
  fits k = true → fits v = true → contains_char "=" v = true →
  ∃ row, parses_to (render (Bare k v)) row ∧ (3 ≤ length row)%nat.
Proof.
  intros Hk Hv Hfk%fits_len Hfv%fits_len He. unfold parses_to, render. simpl.
  rewrite !append_assoc, parse_line_key by done.
  destruct (parse_line_unquoted [k] v Hv Hfv) as (row & -> & Hl).
  rewrite He in Hl. simpl in Hl. exists row. split; [done|lia].
Qed.

Lemma line_ok_unbroken l :
  line_ok l = true → no_newline (line_body l) = true.
Proof.
  intros (Hk & Hv & _)%line_ok_inv.
  destruct l as [k v|k v]; simpl in *;
    apply plain_quotable, quotable_no_newline in Hk;
    [apply plain_quotable in Hv|]; apply quotable_no_newline in Hv;
    unfold no_newline in *; rewrite !all_chars_app, Hk, Hv; done.
Qed.

Lemma readlines_render_all ls :
  Forall (λ l, no_newline (line_body l) = true) ls →
  readlines (render_all ls) = render <$> ls.
Proof.
  induction 1 as [|l ls Hl _ IH]; [done|]. simpl. unfold render at 1.
  rewrite append_assoc, readlines_line by done. by rewrite IH.
Qed.

Lemma csv_records_rows lines rows :
  Forall2 parses_to lines rows →
  csv_records "=" csv_reset lines = Ok rows.
Proof.
  induction 1 as [|line row lines rows Hp _ IH]; [done|].
  simpl. rewrite Hp. simpl. by rewrite IH.
Qed.

Lemma dict_of_rows_lines d ls :
  dict_of_rows d (line_row <$> ls) =
    Ok (foldl dict_add d ls).
Proof.
  revert d. induction ls as [|l ls IH]; intros d; simpl; [done|apply IH].
Qed.

Lemma dict_of_rows_bad d ls row rest :
  length row ≠ 2%nat →
  ∃ msg, dict_of_rows d ((line_row <$> ls) ++ row :: rest)
         = Raise (ValueError msg).
Proof.
  intros Hr. revert d. induction ls as [|l ls IH]; intros d; simpl.
  - destruct row as [|? [|? [|? ?]]]; simpl in *; eauto. done.
  - apply IH.
Qed.

Lemma dict_of_lines_last pre l post :
  line_key l ∉ line_key <$> post →
  dict_of_lines (pre ++ l :: post) !! line_key l = Some (line_value l).
Proof.
  unfold dict_of_lines. rewrite foldl_app. simpl.
  generalize (foldl dict_add ∅ pre). intros d Hk.
  assert (H : ∀ d', d' !! line_key l = Some (line_value l) →
                    foldl dict_add d' post !! line_key l
                      = Some (line_value l)).
  { clear d. induction post as [|q post IH]; intros d' Hd; simpl; [done|].
    rewrite fmap_cons, not_elem_of_cons in Hk. destruct Hk as [Hq Hk].
    apply IH; [done|]. unfold dict_add. by rewrite lookup_insert_ne. }
  apply H. apply lookup_insert_eq.
Qed.

(** A file of well-formed lines parses into the dictionary it stands for. *)
Lemma parse_os_release_lines ls :
  Forall (λ l, line_ok l = true) ls →
  parse_os_release (render_all ls) = Ok (dict_of_lines ls).
Proof.
  intros Hok. unfold parse_os_release, csv_reader_rows.
  rewrite readlines_render_all
    by (eapply Forall_impl; [done|]; apply line_ok_unbroken).
  rewrite (csv_records_rows _ (line_row <$> ls)).
  - apply dict_of_rows_lines.
  - apply Forall2_fmap, Forall_Forall2_diag.
    eapply Forall_impl; [done|]. apply line_ok_parses.
Qed.

(** A file with an unquoted value that holds [=] does not parse. *)
Lemma parse_os_release_embedded pre k v post :
  Forall (λ l, line_ok l = true) pre →
  Forall (λ l, line_ok l = true) post →
  plain k = true → quotable v = true →
  fits k = true → fits v = true → contains_char "=" v = true →
  ∃ msg, parse_os_release (render_all (pre ++ Bare k v :: post))
         = Raise (ValueError msg).
Proof.
  intros Hpre Hpost Hk Hv Hfk Hfv He. unfold parse_os_release, csv_reader_rows.
  destruct (bare_embedded_parses k v Hk Hv Hfk Hfv He) as (row & Hrow & Hl).
  rewrite readlines_render_all.
  - rewrite (csv_records_rows _ ((line_row <$> pre) ++ row :: (line_row <$> post))).
    + apply dict_of_rows_bad. lia.
    + rewrite fmap_app, fmap_cons. apply Forall2_app; [|constructor; [done|]].
      * apply Forall2_fmap, Forall_Forall2_diag.
        eapply Forall_impl; [done|]. apply line_ok_parses.
      * apply Forall2_fmap, Forall_Forall2_diag.
        eapply Forall_impl; [done|]. apply line_ok_parses.
  - apply Forall_app. split; [|constructor].
    + eapply Forall_impl; [done|]. apply line_ok_unbroken.
    + simpl. apply plain_quotable, quotable_no_newline in Hk.
      apply quotable_no_newline in Hv.
      unfold no_newline in *. by rewrite !all_chars_app, Hk, Hv.
    + eapply Forall_impl; [done|]. apply line_ok_unbroken.
Qed.

End csv_facts.

Section OSrelease_values.
Implicit Types (w : World) (root attr : string) (l : os_line).

Lemma OSrelease_init_selected root case_sensitive exact w :
  OSrelease_init root case_sensitive exact w =
    match selected_os_release root w with
    | Some (p, Reg f) =>
        (after w (EvRead p),
         OSrelease_from root case_sensitive exact p (f_text f))
    | Some (p, Directory _) => (w, Raise (IsADirectoryError p))
    | None =>
        (w, Ok {| _root := root; _case_sensitive := case_sensitive;
                  _exact := exact; _fname := "";
                  _data := os_release_defaults |})
    end.
Proof.
  unfold selected_os_release, OSrelease_init.
  destruct (w_files w !! Path2 root "etc/os-release") as [[f|m]|] eqn:E1.
  { by rewrite (OSrelease_scan_found _ _ _ _ f). }
  { by rewrite (OSrelease_scan_directory _ _ _ _ m). }
  rewrite OSrelease_scan_missing by done.
  destruct (w_files w !! Path2 root "usr/lib/os-release") as [[f|m]|] eqn:E2.
  { by rewrite (OSrelease_scan_found _ _ _ _ f). }
  { by rewrite (OSrelease_scan_directory _ _ _ _ m). }
  by rewrite OSrelease_scan_missing.
Qed.

Lemma quotable_plain v :
  quotable v = true → contains_char "=" v = false → plain v = true.
Proof.
  unfold quotable, plain. induction v as [|c v IH]; simpl; [done|].
  intros [Hc Hv]%andb_true_iff. unfold plain_char.
  destruct (Ascii.eqb c "="); [done|]. intros He. simpl.
  rewrite Hc. simpl. by apply IH.
Qed.

Lemma getattr_found o attr v :
  _data o !! (if _case_sensitive o then attr else upper attr) = Some v →
  OSrelease_getattr o attr = Ok v.
Proof.
  intros H. unfold OSrelease_getattr. rewrite H. simpl.
  by rewrite andb_false_r.
Qed.

(** C8 (as amended): in the os-release file selected for parsing, among
    lines that are well formed (text, with keys and values of at most
    131072 characters, the field size limit of the csv reader), a line
    [KEY="VALUE"] whose value stands between double quotes is parsed, and
    the lookup of an ASCII name that is [KEY], once upper-cased unless the
    reader is case sensitive, returns the whole value, an embedded [=]
    included, when no later line sets [KEY] again; a line [KEY=VALUE] whose unquoted
    value holds an [=] makes the construction raise [ValueError]; an
    unquoted value without [=] is returned as it is. *)
Theorem OSrelease_embedded_equals
    root (case_sensitive exact : bool) w (p : string) (f : file)
    (pre : list os_line) l (post : list os_line) attr :
  selected_os_release root w = Some (p, Reg f) →
  f_text f = render_all (pre ++ l :: post) →
  Forall (λ l, line_ok l = true) pre →
  Forall (λ l, line_ok l = true) post →
  plain (line_key l) = true →
  quotable (line_value l) = true →
  fits (line_key l) = true →
  fits (line_value l) = true →
  ascii_text attr = true →
  (if case_sensitive then attr else upper attr) = line_key l →
  line_key l ∉ line_key <$> post →
  ∃ r, OSrelease_init root case_sensitive exact w = (after w (EvRead p), r) ∧
       match l with
       | Quoted _ v => ∃ o, r = Ok o ∧ OSrelease_getattr o attr = Ok v
       | Bare _ v =>
           if contains_char "=" v
           then ∃ msg, r = Raise (ValueError msg)
           else ∃ o, r = Ok o ∧ OSrelease_getattr o attr = Ok v
       end.
Proof.
  intros Hsel Htext Hpre Hpost Hk Hv Hfk Hfv _ Hattr Hlast.
  rewrite OSrelease_init_selected, Hsel. eexists. split; [reflexivity|].
  unfold OSrelease_from. rewrite Htext.
  assert (Hgood : line_ok l = true →
    ∃ o, match parse_os_release (render_all (pre ++ l :: post)) with
         | Ok data => Ok {| _root := root; _case_sensitive := case_sensitive;
                            _exact := exact; _fname := p; _data := data |}
         | Raise e => Raise e
         end = Ok o ∧ OSrelease_getattr o attr = Ok (line_value l)).
  { intros Hl. rewrite parse_os_release_lines.
    - eexists. split; [reflexivity|]. apply getattr_found. simpl.
      rewrite Hattr. by apply dict_of_lines_last.
    - apply Forall_app. split; [done|]. by constructor. }
  destruct l as [k v|k v]; simpl in *.
  - destruct (contains_char "=" v) eqn:He.
    + destruct (parse_os_release_embedded pre k v post) as (msg & ->); eauto.
    + apply Hgood. rewrite Hk, Hfk, Hfv. simpl. rewrite !andb_true_r.
      by apply quotable_plain.
  - apply Hgood. by rewrite Hk, Hv, Hfk, Hfv.
Qed.

Lemma OSrelease_embedded_equals_witness :
  (∃ r, OSrelease_init "/" false false
          (world_with "/etc/os-release"
             (render_all [Bare "ID" "demo"; Quoted "OPTS" "a=b";
                          Bare "NAME" "Demo"])) =
          (after (world_with "/etc/os-release"
                    (render_all [Bare "ID" "demo"; Quoted "OPTS" "a=b";
                                 Bare "NAME" "Demo"]))
             (EvRead "/etc/os-release"), r) ∧
        ∃ o, r = Ok o ∧ OSrelease_getattr o "opts" = Ok "a=b") ∧
  (∃ r, OSrelease_init "/" false false
          (world_with "/etc/os-release"
             (render_all [Bare "ID" "demo"; Bare "OPTS" "a=b";
                          Bare "NAME" "Demo"])) =
          (after (world_with "/etc/os-release"
                    (render_all [Bare "ID" "demo"; Bare "OPTS" "a=b";
                                 Bare "NAME" "Demo"]))
             (EvRead "/etc/os-release"), r) ∧
        ∃ msg, r = Raise (ValueError msg)).
Proof.
  split.
  - apply (OSrelease_embedded_equals "/" false false _ "/etc/os-release"
             (file_of (render_all [Bare "ID" "demo"; Quoted "OPTS" "a=b";
                                   Bare "NAME" "Demo"]))
             [Bare "ID" "demo"] (Quoted "OPTS" "a=b") [Bare "NAME" "Demo"]
             "opts");
      try reflexivity; try (repeat constructor).
    intros [H|H]%elem_of_cons; [discriminate|by apply elem_of_nil in H].
  - apply (OSrelease_embedded_equals "/" false false _ "/etc/os-release"
             (file_of (render_all [Bare "ID" "demo"; Bare "OPTS" "a=b";
                                   Bare "NAME" "Demo"]))
             [Bare "ID" "demo"] (Bare "OPTS" "a=b") [Bare "NAME" "Demo"]
             "opts");
      try reflexivity; try (repeat constructor).
    intros [H|H]%elem_of_cons; [discriminate|by apply elem_of_nil in H].
Defined.

(** C8, as the specification words it, fails on the one-line file
    [OPTS=a=b]: the reader splits the line at both [=] and the
    construction raises. *)
Lemma OSrelease_embedded_equals_counterexample :
  ¬ ∃ w' o,
      OSrelease_init "/" false false
        (world_with "/etc/os-release" ("OPTS=a=b" +:+ str1 LF)) = (w', Ok o) ∧
      OSrelease_getattr o "OPTS" = Ok "a=b".
Proof. intros (w' & o & H & _). vm_compute in H. discriminate. Qed.

End OSrelease_values.

Section frontend_claims.
Implicit Types (args : Args) (kv v : string) (sb : gmap string value)
  (pre post : list string).

Lemma partition_spec sep s :
  contains_char sep s = true →
  ∃ a t, partition sep s = (a, str1 sep, t) ∧ s = a +:+ String sep t.
Proof.
  induction s as [|c s IH]; simpl; [done|].
  destruct (Ascii.eqb_spec c sep) as [->|Hne].
  - intros _. by exists "", s.
  - intros (a & t & -> & ->)%IH. by exists (String c a), t.
Qed.

Lemma option_step_no_equals sb kv :
  contains_char "=" kv = false → option_step sb kv = sb.
Proof. intros H. unfold option_step. by rewrite H. Qed.

Lemma option_step_upgrade sb v :
  option_step sb ("upgrade=" +:+ v)
    = <["upgrade" := VBool (is_yes (lower v))]> sb.
Proof. reflexivity. Qed.

Lemma option_step_other sb kv :
  sets_upgrade kv = false →
  option_step sb kv !! "upgrade" = sb !! "upgrade".
Proof.
  intros Hp. unfold option_step.
  destruct (contains_char "=" kv) eqn:E; [|done].
  destruct (partition_spec _ _ E) as (a & t & -> & ->).
  destruct (String.eqb_spec a "upgrade") as [->|Hne].
  - vm_compute in Hp. discriminate.
  - by rewrite lookup_insert_ne.
Qed.

Lemma foldl_option_step_other sb post :
  Forall (λ kv, sets_upgrade kv = false) post →
  foldl option_step sb post !! "upgrade" = sb !! "upgrade".
Proof.
  intros H. revert sb. induction H as [|kv post Hkv _ IH]; intros sb; simpl.
  - done.
  - by rewrite IH, option_step_other.
Qed.

(** C10: an option string without [=] is ignored: the keyword arguments,
    and with them the whole run of the frontend, are those of the same
    invocation without this option; the loop over the options raises
    nothing and prints nothing. *)
Theorem option_without_equals_ignored args pre kv post :
  contains_char "=" kv = false →
  a_option args = pre ++ kv :: post →
  let args' := {| a_list := a_list args; a_image_path := a_image_path args;
                  a_name := a_name args; a_option := pre ++ post |} in
  main_sb_args args = main_sb_args args' ∧
  ∀ construct w, main_with construct args w = main_with construct args' w.
Proof.
  intros Hkv Hopt args'.
  assert (H : main_sb_args args = main_sb_args args').
  { unfold main_sb_args, args'. simpl. rewrite Hopt, !foldl_app. simpl.
    by rewrite option_step_no_equals. }
  split; [exact H|]. intros construct w. unfold main_with.
  rewrite H. reflexivity.
Qed.

Lemma option_without_equals_ignored_witness :
  main_sb_args {| a_list := false; a_image_path := ""; a_name := "ubuntu";
                  a_option := ["tag=jammy"; "upgrade"; "pkgs=git"] |} =
  main_sb_args {| a_list := false; a_image_path := ""; a_name := "ubuntu";
                  a_option := ["tag=jammy"; "pkgs=git"] |}.
Proof.
  exact (proj1 (option_without_equals_ignored
           {| a_list := false; a_image_path := ""; a_name := "ubuntu";
              a_option := ["tag=jammy"; "upgrade"; "pkgs=git"] |}
           ["tag=jammy"] "upgrade" ["pkgs=git"] eq_refl eq_refl)).
Defined.

End frontend_claims.

Section Singularity_claims.
Context (host : Host).
Implicit Types (self : Singularity) (w : World).

Lemma dirs_check_error fs p e :
  dirs_check fs p = Raise e →
  e = FileNotFoundError p ∨ e = NotADirectoryError p.
Proof.
  unfold dirs_check. induction (path_ancestors p) as [|d ds IH]; simpl; [done|].
  destruct (fs !! d) as [[f|m]|]; [|done|]; intros [= <-]; auto.
Qed.

Lemma dirs_check_ok fs p :
  dirs_check fs p = Ok tt ↔
  ∀ d, d ∈ path_ancestors p → ∃ m, fs !! d = Some (Directory m).
Proof.
  unfold dirs_check. induction (path_ancestors p) as [|d ds IH]; simpl.
  - split; [|done]. by intros _ d ?%elem_of_nil.
  - destruct (fs !! d) as [[f|m]|] eqn:E.
    + split; [done|]. intros H. destruct (H d) as [m Hm]; [by left|].
      congruence.
    + rewrite IH. split.
      * intros H d' [->|Hd]%elem_of_cons; [by exists m|by apply H].
      * intros H d' Hd. apply H. by right.
    + split; [done|]. intros H. destruct (H d) as [m Hm]; [by left|].
      congruence.
Qed.

Lemma mkfile_fresh self rel_name data perms w :
  w_files w !! Path2 (image_path self) rel_name = None →
  dirs_check (w_files w) (Path2 (image_path self) rel_name) = Ok tt →
  is_text (file_text data) = true →
  in_C_int perms = true →
  mkfile host self rel_name data perms w =
    (set_files w (<[Path2 (image_path self) rel_name :=
                      Reg {| f_text := file_text data;
                             f_mode := Z.land perms 4095 |}]> (w_files w)),
     Ok tt).
Proof.
  intros Hnone Hdirs Htext Hperms. unfold mkfile, bind.
  rewrite (path_exists_None _ _ Hnone).
  assert (Hdata : match data with
                  | Lines l => String.concat (str1 LF) l +:+ str1 LF
                  | Text s => s
                  end = file_text data) by (by destruct data).
  rewrite Hdata. unfold write_text. rewrite Htext.
  unfold write_bytes. rewrite Hnone, Hdirs. unfold chmod, set_files. simpl.
  rewrite Hperms. simpl.
  rewrite lookup_insert_eq. simpl. by rewrite insert_insert_eq.
Qed.




Lemma mkfile_taken self rel_name data perms w x :
  w_files w !! Path2 (image_path self) rel_name = Some x →
  mkfile host self rel_name data perms w =
    (w, Raise (FileExistsError
                 ("refusing to overwrite '"
                  +:+ Path2 (image_path self) rel_name +:+ "'"))).
Proof.
  intros Hsome. unfold mkfile, bind.
  by rewrite (path_exists_Some _ _ _ Hsome).
Qed.


End Singularity_claims.



Section DistroDocker_claims.
Context (host : Host).
Implicit Types (self : DistroDocker) (w : World) (n : nat).

Lemma update_done self w :
  _dd_updated self = true → update host self w = (w, Ok self).
Proof. intros H. unfold update. by rewrite H. Qed.

Lemma update_first self w :
  _dd_updated self = false →
  update host self w =
    match update_distro host self w with
    | (w', Ok _) => (w', Ok (set_updated self))
    | (w', Raise e) => (w', Raise e)
    end.
Proof.
  intros H. unfold update. rewrite H. simpl. unfold bind.
  by destruct (update_distro host self w) as [w' [[]|e]].
Qed.

Lemma update_times_done n self w :
  _dd_updated self = true → update_times host n self w = (w, Ok self).
Proof.
  intros H. induction n as [|n IH]; simpl; [done|].
  unfold bind. by rewrite update_done.
Qed.

Lemma runs_app t1 t2 : runs (t1 ++ t2) = (runs t1 + runs t2)%nat.
Proof. unfold runs. by rewrite List.filter_app, length_app. Qed.

(** One [exec] is one subprocess. *)
Lemma exec_runs sandbox cmd admin w :
  runs (w_trace (fst (exec host sandbox cmd admin w)))
    = S (runs (w_trace w)).
Proof.
  unfold exec, _run, bind, print, emit, sp_run. simpl.
  destruct (h_sp_run host _ _ _) as [fs code]. simpl.
  destruct (Z.eqb code 0); simpl; rewrite !runs_app; unfold runs; simpl; lia.
Qed.

Lemma update_distro_runs self w :
  runs (w_trace (fst (update_distro host self w))) =
    (runs (w_trace w) +
     match dd_class self with Alpine | Ubuntu => 1 | Fedora | Generic => 0 end)%nat.
Proof.
  unfold update_distro.
  destruct (dd_class self); rewrite ?exec_runs; simpl; lia.
Qed.

(** C4: in a build, whose object starts with [_dd_updated] unset, any
    two or more calls of [update()] in a row do what the first call does
    and nothing more: [update_distro] is executed once, in the first
    call, after which the flag is set and every further [update()] leaves
    the world and the object as they are.  The subprocesses run are those
    of the single [update_distro]: one for Alpine and Ubuntu, whose
    [update_distro] runs a command, none where it is empty. *)
Theorem update_memoized self n w :
  _dd_updated self = false →
  (2 ≤ n)%nat →
  update_times host n self w =
    (match update_distro host self w with
     | (w', Ok _) => (w', Ok (set_updated self))
     | (w', Raise e) => (w', Raise e)
     end) ∧
  update_times host n self w = update host self w ∧
  (∀ w' self', update host self w = (w', Ok self') →
               _dd_updated self' = true ∧
               update host self' w' = (w', Ok self')) ∧
  runs (w_trace (fst (update_times host n self w))) =
    (runs (w_trace w) +
     match dd_class self with Alpine | Ubuntu => 1 | Fedora | Generic => 0 end)%nat.
Proof.
  intros Hfresh Hn.
  assert (Hfirst := update_first self w Hfresh).
  assert (Htimes : update_times host n self w = update host self w).
  { destruct n as [|n]; [lia|]. simpl. unfold bind at 1. rewrite Hfirst.
    destruct (update_distro host self w) as [w' [[]|e]]; [|done].
    by rewrite update_times_done. }
  split_and!.
  - by rewrite Htimes.
  - exact Htimes.
  - intros w' self' Hup. rewrite Hfirst in Hup.
    destruct (update_distro host self w) as [w1 [[]|e]]; [|done].
    injection Hup as <- <-. split; [done|]. by apply update_done.
  - rewrite Htimes, Hfirst. rewrite <- update_distro_runs.
    by destruct (update_distro host self w) as [w1 [[]|e]].
Qed.

End DistroDocker_claims.

Lemma update_memoized_witness :
  update_times quiet_host 3 (fresh Alpine) empty_world =
    update quiet_host (fresh Alpine) empty_world ∧
  w_trace (fst (update_times quiet_host 3 (fresh Alpine) empty_world)) =
    [ EvPrint "# cmd: /usr/bin/singularity exec --fakeroot --writable /home/ann/box apk update";
      EvPrint "# cwd: /";
      EvRun ["/usr/bin/singularity"; "exec"; "--fakeroot"; "--writable";
             "/home/ann/box"; "apk"; "update"] "/" ] ∧
  runs (w_trace (fst (update_times quiet_host 3 (fresh Alpine) empty_world)))
    = 1%nat.
Proof.
  assert (H2 : (2 ≤ 3)%nat) by lia.
  destruct (update_memoized quiet_host (fresh Alpine) 3 empty_world eq_refl H2)
    as (_ & H & _ & Hr).
  split_and!; [exact H | reflexivity | exact Hr].
Defined.

Section profile_claims.
Context (host : Host).
Context (json_load : string → result json) (json_dumps : json → string).
Implicit Types (w : World) (self : DistroDocker).

Lemma unc_scan_unifi names h u :
  u = true ∨ "unifi" ∈ names → snd (unc_scan names h u) = true.
Proof.
  revert h u. induction names as [|name rest IH]; intros h u Hu; simpl.
  - destruct Hu as [->|Hin]; [done|]. by apply elem_of_nil in Hin.
  - destruct (String.eqb_spec name "unifi") as [->|Hne].
    + destruct h; simpl; [done|]. apply IH. by left.
    + assert (Hu' : u = true ∨ "unifi" ∈ rest).
      { destruct Hu as [?|[?|?]%elem_of_cons]; auto; congruence. }
      destruct (endswith "/haveged" name).
      * destruct u; simpl; [done|]. by apply IH.
      * destruct (h && u) eqn:E; simpl; [|by apply IH].
        apply andb_true_iff in E as [_ ->]. done.
Qed.

(** C3: when the host user is root, or the process snapshot holds the
    executable path [unifi], the construction of the network-controller
    profile raises [RuntimeError] and leaves the world as it was: no
    subprocess was run, the build tool least of all, and no path was
    created. *)
Theorem unifi_prechecks_fail_first image_path w :
  h_getuser host = "root" ∨
  (∃ s, ps_bins (h_proc host) = Ok s ∧ "unifi" ∈ s) →
  ∃ msg, UnifiNetworkController_init host image_path w
         = (w, Raise (RuntimeError msg)).
Proof.
  intros H. unfold UnifiNetworkController_init.
  destruct (String.eqb_spec (h_getuser host) "root") as [Hr|Hr].
  { eexists. reflexivity. }
  destruct H as [H|(s & Hs & Hin)]; [done|].
  unfold bind, lift. rewrite Hs.
  assert (Hu := unc_scan_unifi (elements s) false false).
  destruct (unc_scan (elements s) false false) as [hv u]. simpl in Hu.
  rewrite Hu; [eexists; reflexivity|].
  right. by apply elem_of_elements.
Qed.

Lemma add_log_none pls :
  Forall (λ pl, ¬ config_platform pl) pls →
  add_log pls = Ok None ∨ ∃ msg, add_log pls = Raise (AttributeError msg).
Proof.
  induction 1 as [|pl pls Hpl _ IH]; simpl; [by left|].
  destruct pl as [| | | | | |ms]; try (right; eexists; reflexivity).
  destruct (obj_get "platform" ms) as [v|] eqn:Eg; simpl.
  - destruct v as [| | | |s| |]; simpl;
      try (destruct IH as [->|[msg ->]]; [by left|right; by eexists]).
    destruct (String.eqb_spec s "config") as [->|Hne].
    + destruct Hpl. by exists ms.
    + destruct IH as [->|[msg ->]]; [by left|right; by eexists].
  - destruct IH as [->|[msg ->]]; [by left|right; by eexists].
Qed.

(** C5: when the configuration loaded from [config.json] has a
    [platforms] list without an entry whose [platform] equals [config],
    the logging step of the Homebridge profile raises, having only read
    [config.json]: the store is as it was, so the staging file was not
    written, and no subprocess was run, so nothing was moved.  The
    exception is the [RuntimeError] of the step, unless an entry of the
    list is no object, and it ends the construction of the profile. *)
Theorem homebridge_requires_config_platform self w f data pls :
  let cfg_p := Path2 (sandbox_path self) "var/lib/homebridge/config.json" in
  w_files w !! cfg_p = Some (Reg f) →
  json_load (f_text f) = Ok data →
  py_getitem data "platforms" = Ok (JArr pls) →
  Forall (λ pl, ¬ config_platform pl) pls →
  ∃ e, Homebridge_logging host json_load json_dumps self w
         = (after w (EvRead cfg_p), Raise e) ∧
       (e = RuntimeError "unable to add logging to config.json" ∨
        ∃ msg, e = AttributeError msg) ∧
       (Forall (λ pl, ∃ ms, pl = JObj ms) pls →
        e = RuntimeError "unable to add logging to config.json") ∧
       ∀ image_path w0 ps_avahid,
         Homebridge_install host image_path w0 = (w, Ok (self, ps_avahid)) →
         Homebridge_init host json_load json_dumps image_path w0
           = (after w (EvRead cfg_p), Raise e).
Proof.
  intros cfg_p Hf Hload Hpl Hnone.
  assert (Hstep : ∀ e, config_with_log data = Raise e →
            Homebridge_logging host json_load json_dumps self w
              = (after w (EvRead cfg_p), Raise e)).
  { intros e He. unfold Homebridge_logging, bind, open_read, lift.
    fold cfg_p. rewrite Hf, Hload, He. done. }
  assert (Hinit : ∀ e, config_with_log data = Raise e →
            ∀ image_path w0 ps_avahid,
              Homebridge_install host image_path w0 = (w, Ok (self, ps_avahid)) →
              Homebridge_init host json_load json_dumps image_path w0
                = (after w (EvRead cfg_p), Raise e)).
  { intros e He image_path w0 b Hi. unfold Homebridge_init.
    unfold bind at 1. rewrite Hi. simpl. unfold bind at 1.
    by rewrite (Hstep e He). }
  unfold config_with_log in Hstep, Hinit. rewrite Hpl in Hstep, Hinit.
  simpl in Hstep, Hinit.
  destruct (add_log_none pls Hnone) as [Hn|[msg Hn]];
    rewrite Hn in Hstep, Hinit.
  - eexists. split_and!; [by apply Hstep|by left|done|by apply Hinit].
  - eexists. split_and!; [by apply Hstep|right; by eexists| |by apply Hinit].
    intros Hobj. exfalso. clear -Hobj Hn Hnone.
    induction Hobj as [|pl pls [ms ->] _ IH]; [done|].
    apply Forall_cons in Hnone as [Hpl Hnone]. simpl in Hn.
    destruct (is_config _); [done|].
    destruct (add_log pls) as [[?|]|]; try done. by apply IH.
Qed.

End profile_claims.

Lemma unifi_prechecks_fail_first_witness :
  (∃ msg, UnifiNetworkController_init root_host "" empty_world
          = (empty_world, Raise (RuntimeError msg))) ∧
  (∃ msg, UnifiNetworkController_init quiet_host "unc" empty_world
          = (empty_world, Raise (RuntimeError msg))).
Proof.
  split; apply unifi_prechecks_fail_first.
  - by left.
  - right. exists {[ "unifi" ]}. split; [vm_compute; reflexivity|].
    by apply elem_of_singleton.
Defined.

Lemma homebridge_requires_config_platform_witness :
  Homebridge_logging quiet_host (λ _, Ok config_without) (λ _, "")
    (fresh Ubuntu) world_config =
  (after world_config
     (EvRead "/home/ann/box/var/lib/homebridge/config.json"),
   Raise (RuntimeError "unable to add logging to config.json")) ∧
  ∃ w1, fst (Homebridge_install hb_host "" world_hb) = w1 ∧
        Homebridge_init hb_host (λ _, Ok config_without) (λ _, "") "" world_hb =
          (after w1 (EvRead "/home/ann/hb/var/lib/homebridge/config.json"),
           Raise (RuntimeError "unable to add logging to config.json")).
Proof.
  assert (Hnone : Forall (λ pl, ¬ config_platform pl)
                    [JObj [("platform", JStr "cmdSwitch2")]]).
  { constructor; [|constructor]. intros (ms & [= <-] & Hg). discriminate. }
  assert (Hobj : Forall (λ pl, ∃ ms, pl = JObj ms)
                   [JObj [("platform", JStr "cmdSwitch2")]]).
  { constructor; [by eexists|constructor]. }
  split.
  - destruct (homebridge_requires_config_platform quiet_host
                (λ _, Ok config_without) (λ _, "") (fresh Ubuntu) world_config
                (file_of "{}") config_without _ eq_refl eq_refl eq_refl Hnone)
      as (e & Hrun & _ & He & _).
    rewrite Hrun. f_equal. f_equal. by apply He.
  - eexists. split; [reflexivity|].
    destruct (Homebridge_install hb_host "" world_hb) as [w1 r] eqn:Hinst.
    assert (Hr : ∃ self b, r = Ok (self, b) ∧
                  sandbox_path self = "/home/ann/hb" ∧
                  w_files w1 !! "/home/ann/hb/var/lib/homebridge/config.json"
                    = Some (Reg (file_of "{}"))).
    { vm_compute in Hinst. injection Hinst as <- <-.
      eexists _, _. split; [reflexivity|]. split; vm_compute; reflexivity. }
    destruct Hr as (self & b & -> & Hpath & Hcfg). simpl.
    destruct (homebridge_requires_config_platform hb_host
                (λ _, Ok config_without) (λ _, "") self w1
                (file_of "{}") config_without
                [JObj [("platform", JStr "cmdSwitch2")]])
      as (e & _ & _ & He & Hinit);
      [by rewrite Hpath | done | done | done |].
    rewrite (Hinit "" world_hb b Hinst), Hpath, (He Hobj). done.
Defined.

(** ** Runs of the whole program *)

(** As root the network-controller profile is refused at once: the parser
    reports the error and the program exits with status 2, with nothing
    run and nothing written. *)
Example main_unc_as_root :
  main root_host (λ _, Ok JNull) (λ _, "")
    {| a_list := false; a_image_path := ""; a_name := "unc"; a_option := [] |}
    empty_world =
  ({| w_files := ∅;
      w_trace := [EvError "unc"
                    (RuntimeError "UNC does not support root-owned containers")] |},
   Raise (SystemExit 2)).
Proof. vm_compute. reflexivity. Qed.

(** A Homebridge build whose generated configuration lacks the [config]
    platform exits with status 2 and has run no [mv]. *)
Example main_hb_without_config_platform :
  let r := main hb_host (λ _, Ok config_without) (λ _, "")
             {| a_list := false; a_image_path := ""; a_name := "hb";
                a_option := [] |} world_hb in
  snd r = Raise (SystemExit 2) ∧
  w_files (fst r) !! "/homebridge_config.json" = None ∧
  existsb is_move (w_trace (fst r)) = false ∧
  last (w_trace (fst r)) =
    Some (EvError "hb" (RuntimeError "unable to add logging to config.json")).
Proof. vm_compute. done. Qed.

(** An Alpine build with [upgrade=Yes]: one [apk update] for the install
    and the upgrade together. *)
Example main_alpine_upgrade :
  let r := main hb_host (λ _, Ok JNull) (λ _, "")
             {| a_list := false; a_image_path := ""; a_name := "alpine";
                a_option := ["upgrade=Yes"; "pkgs=git"; "verbose"] |} world_hb in
  snd r = Ok tt ∧
  List.filter (λ e, match e with EvRun _ _ => true | _ => false end)
    (w_trace (fst r)) =
    [ EvRun ["/usr/bin/singularity"; "build"; "--sandbox"; "--fix-perms";
             "/home/ann/alpine"; "docker://alpine:latest"] "/home/ann";
      EvRun ["/usr/bin/singularity"; "exec"; "--fakeroot"; "--writable";
             "/home/ann/alpine"; "apk"; "update"] "/";
      EvRun ["/usr/bin/singularity"; "exec"; "--fakeroot"; "--writable";
             "/home/ann/alpine"; "apk"; "add"; "git"; "nano"] "/";
      EvRun ["/usr/bin/singularity"; "exec"; "--fakeroot"; "--writable";
             "/home/ann/alpine"; "apk"; "upgrade"] "/" ].
Proof. vm_compute. done. Qed.

(** * Further properties of the code *)

Section OSrelease_more.
Implicit Types (w : World) (root attr : string) (o : OSrelease).

Lemma path_root_cases s :
  path_root s = "" ∨ path_root s = "/" ∨ path_root s = "//".
Proof.
  destruct s as [|c1 s]; [by left|].
  destruct c1 as [[] [] [] [] [] [] [] []]; try (by left).
  destruct s as [|c2 s]; [right; by left|].
  destruct c2 as [[] [] [] [] [] [] [] []]; try (right; by left).
  destruct s as [|c3 s]; [right; by right|].
  destruct c3 as [[] [] [] [] [] [] [] []]; try (right; by right).
  right; by left.
Qed.

Lemma concat_cons_nonempty sep p ps :
  p ≠ "" → String.concat sep (p :: ps) ≠ "".
Proof.
  intros Hp. destruct ps as [|q ps]; simpl; [done|].
  destruct p as [|c p]; [done|]. by rewrite append_cons.
Qed.

(** A path is never the empty string. *)
Lemma Path_nonempty s : Path s ≠ "".
Proof.
  unfold Path.
  assert (Hparts : ∀ p, In p (path_parts s) → p ≠ "").
  { intros p [_ Hk]%List.filter_In ->. done. }
  destruct (path_parts s) as [|p ps] eqn:Eparts.
  - destruct (path_root_cases s) as [->|[->| ->]]; done.
  - assert (Hp : p ≠ "") by (apply Hparts; by left).
    pose proof (concat_cons_nonempty "/" p ps Hp) as Hc.
    destruct (path_root_cases s) as [->|[->| ->]]; [done| |].
    + by rewrite append_cons.
    + by rewrite append_cons.
Qed.

(** X1: [file()] names the file that was parsed, and is the empty string
    exactly when neither candidate exists, in which case the data are the
    defaults. *)
Theorem OSrelease_file_names_source root case_sensitive exact w w' o :
  OSrelease_init root case_sensitive exact w = (w', Ok o) →
  (OSrelease_file o = "" ↔ selected_os_release root w = None) ∧
  (∀ p x, selected_os_release root w = Some (p, x) → OSrelease_file o = p) ∧
  (OSrelease_file o = "" → _data o = os_release_defaults).
Proof.
  intros Hinit. rewrite OSrelease_init_selected in Hinit.
  unfold selected_os_release in *. unfold OSrelease_file.
  assert (Hfrom : ∀ p text, OSrelease_from root case_sensitive exact p text
                            = Ok o → _fname o = p).
  { intros p text. unfold OSrelease_from.
    destruct (parse_os_release text); [|done]. by intros [= <-]. }
  destruct (w_files w !! Path2 root "etc/os-release") as [[f|m]|] eqn:E1.
  - injection Hinit as _ Ho. apply Hfrom in Ho. split_and!.
    + split; [|done]. intros H. rewrite Ho in H. by apply Path_nonempty in H.
    + by intros p x [= <- <-].
    + intros H. rewrite Ho in H. by apply Path_nonempty in H.
  - done.
  - destruct (w_files w !! Path2 root "usr/lib/os-release") as [[f|m]|] eqn:E2.
    + injection Hinit as _ Ho. apply Hfrom in Ho. split_and!.
      * split; [|done]. intros H. rewrite Ho in H. by apply Path_nonempty in H.
      * by intros p x [= <- <-].
      * intros H. rewrite Ho in H. by apply Path_nonempty in H.
    + done.
    + injection Hinit as _ <-. simpl. split_and!; done.
Qed.

Lemma OSrelease_file_names_source_witness :
  ∃ o, OSrelease_init "/" false false world_both
       = (after world_both (EvRead "/etc/os-release"), Ok o) ∧
       OSrelease_file o = "/etc/os-release".
Proof.
  eexists. split; [vm_compute; reflexivity|].
  eapply (proj1 (proj2 (OSrelease_file_names_source "/" false false world_both
                          _ _ ltac:(vm_compute; reflexivity)))).
  vm_compute. reflexivity.
Defined.

(** X2: [parms()] lists exactly the keys of the data, each once, in
    ascending order. *)
Theorem OSrelease_parms_sorted_keys o :
  StronglySorted String.le (OSrelease_parms o) ∧
  NoDup (OSrelease_parms o) ∧
  ∀ k, k ∈ OSrelease_parms o ↔ is_Some (_data o !! k).
Proof.
  unfold OSrelease_parms.
  pose proof (merge_sort_Permutation String.le
                (fst <$> map_to_list (_data o))) as Hperm.
  split_and!.
  - apply StronglySorted_merge_sort; apply _.
  - rewrite Hperm. apply NoDup_fst_map_to_list.
  - intros k. rewrite Hperm, list_elem_of_fmap. split.
    + intros ([k' v] & -> & Hin%elem_of_map_to_list). eauto.
    + intros [v Hv]. exists (k, v). split; [done|].
      by apply elem_of_map_to_list.
Qed.

Lemma upper_char_idemp c : upper_char (upper_char c) = upper_char c.
Proof. destruct c as [[] [] [] [] [] [] [] []]; reflexivity. Qed.

Lemma upper_idemp s : upper (upper s) = upper s.
Proof.
  unfold upper. induction s as [|c s IH]; simpl; [done|].
  by rewrite upper_char_idemp, IH.
Qed.

(** X3: without [case_sensitive], a lookup sees an ASCII name through its
    upper case only: names that differ in case give the same answer, and
    what the file stores under a key with a lower-case ASCII letter is
    never returned (removing it changes no lookup). *)
Theorem OSrelease_lookup_folds_case o attr :
  _case_sensitive o = false →
  ascii_text attr = true →
  OSrelease_getattr o attr = OSrelease_getattr o (upper attr) ∧
  ∀ k, upper k ≠ k →
       OSrelease_getattr (without_key k o) attr = OSrelease_getattr o attr.
Proof.
  intros Hcs _. split.
  - unfold OSrelease_getattr. by rewrite Hcs, upper_idemp.
  - intros k Hk. unfold OSrelease_getattr. simpl. rewrite Hcs.
    assert (Hne : k ≠ upper attr).
    { intros ->. by rewrite upper_idemp in Hk. }
    by rewrite lookup_delete_ne.
Qed.

Lemma OSrelease_lookup_folds_case_witness :
  ∃ o, snd (OSrelease_init "/" false false
              (world_with "/etc/os-release"
                 (render_all [Bare "id" "demo"; Bare "NAME" "Demo"]))) = Ok o ∧
       OSrelease_getattr o "Name" = OSrelease_getattr o "NAME" ∧
       OSrelease_getattr o "NAME" = Ok "Demo" ∧
       OSrelease_getattr o "id" = Ok "".
Proof.
  eexists. split; [vm_compute; reflexivity|]. split_and!.
  - match goal with
    | |- OSrelease_getattr ?o _ = _ =>
        exact (proj1 (OSrelease_lookup_folds_case o "Name" eq_refl eq_refl))
    end.
  - vm_compute. reflexivity.
  - vm_compute. reflexivity.
Defined.

Lemma readlines_render_app ls rest :
  Forall (λ l, no_newline (line_body l) = true) ls →
  readlines (render_all ls +:+ rest) = (render <$> ls) ++ readlines rest.
Proof.
  induction 1 as [|l ls Hl _ IH]; [done|].
  change (render_all (l :: ls)) with (render l +:+ render_all ls).
  unfold render at 1.
  rewrite !append_assoc, readlines_line by done.
  by rewrite IH.
Qed.

(** A line without [=] is one field, and an empty line no field at all. *)
Lemma stray_line_parses c :
  plain c = true → fits c = true →
  parses_to (c +:+ str1 LF) (if String.eqb c "" then [] else [c]).
Proof.
  intros Hc Hlen%fits_len. unfold parses_to. destruct c as [|a c]; [done|].
  rewrite parse_line_feed, feed_app. unfold csv_reset.
  rewrite (feed_plain START_RECORD "" [] _ Hc)
    by (done || (right; split; [done|by right])).
  reflexivity.
Qed.

(** X4: a line without [=] in the selected file, be it empty or a comment
    (of text within the field size limit, as the other lines),
    makes the construction raise [ValueError]: the file is read, nothing is
    kept of it, and the other candidate is not tried even when it exists
    and is well formed. *)
Theorem OSrelease_rejects_stray_line
    root (case_sensitive exact : bool) w (p : string) (f : file)
    (pre post : list os_line) (c : string) :
  selected_os_release root w = Some (p, Reg f) →
  f_text f = render_all pre +:+ c +:+ str1 LF +:+ render_all post →
  Forall (λ l, line_ok l = true) pre →
  Forall (λ l, line_ok l = true) post →
  plain c = true →
  fits c = true →
  ∃ msg, OSrelease_init root case_sensitive exact w
         = (after w (EvRead p), Raise (ValueError msg)).
Proof.
  intros Hsel Htext Hpre Hpost Hc Hfits.
  rewrite OSrelease_init_selected, Hsel.
  unfold OSrelease_from, parse_os_release, csv_reader_rows. rewrite Htext.
  rewrite readlines_render_app
    by (eapply Forall_impl; [done|]; apply line_ok_unbroken).
  rewrite readlines_line by (by apply quotable_no_newline, plain_quotable).
  rewrite readlines_render_all
    by (eapply Forall_impl; [done|]; apply line_ok_unbroken).
  rewrite (csv_records_rows _
             ((line_row <$> pre)
              ++ (if String.eqb c "" then [] else [c]) :: (line_row <$> post))).
  - destruct (dict_of_rows_bad ∅ pre (if String.eqb c "" then [] else [c])
                (line_row <$> post)) as [msg ->]; [|by eexists].
    by destruct (String.eqb c "").
  - apply Forall2_app; [|constructor; [by apply stray_line_parses|]].
    + apply Forall2_fmap, Forall_Forall2_diag.
      eapply Forall_impl; [done|]. apply line_ok_parses.
    + apply Forall2_fmap, Forall_Forall2_diag.
      eapply Forall_impl; [done|]. apply line_ok_parses.
Qed.

Lemma OSrelease_rejects_stray_line_witness :
  ∃ msg, OSrelease_init "/" false false world_comment
         = (after world_comment (EvRead "/etc/os-release"),
            Raise (ValueError msg)).
Proof.
  apply (OSrelease_rejects_stray_line "/" false false world_comment
           "/etc/os-release"
           (file_of (render_all [Bare "ID" "demo"] +:+ "# a comment"
                     +:+ str1 LF +:+ render_all [Bare "NAME" "Demo"]))
           [Bare "ID" "demo"] [Bare "NAME" "Demo"] "# a comment");
    try reflexivity; repeat constructor.
Defined.

Lemma dict_of_lines_absent ls key :
  key ∉ line_key <$> ls → dict_of_lines ls !! key = None.
Proof.
  unfold dict_of_lines.
  assert (H : ∀ d, d !! key = None → key ∉ line_key <$> ls →
                   foldl dict_add d ls !! key = None).
  { induction ls as [|l ls IH]; intros d Hd Hk; simpl; [done|].
    rewrite fmap_cons, not_elem_of_cons in Hk. destruct Hk as [Hl Hk].
    apply IH; [|done]. unfold dict_add. by rewrite lookup_insert_ne. }
  intros Hk. by apply H.
Qed.

(** X5: once a file is parsed its content replaces the defaults instead of
    completing them: the data are those of the lines of the file, and an
    ASCII name whose key the file does not set gives the empty string (or
    [AttributeError] in exact mode), [NAME], [ID] and [PRETTY_NAME]
    included. *)
Theorem OSrelease_file_replaces_defaults
    root (case_sensitive exact : bool) w (p : string) (f : file)
    (ls : list os_line) :
  selected_os_release root w = Some (p, Reg f) →
  f_text f = render_all ls →
  Forall (λ l, line_ok l = true) ls →
  ∃ o, OSrelease_init root case_sensitive exact w = (after w (EvRead p), Ok o) ∧
       _data o = dict_of_lines ls ∧
       ∀ attr,
         let key := if case_sensitive then attr else upper attr in
         ascii_text attr = true →
         key ∉ line_key <$> ls →
         OSrelease_getattr o attr =
           if exact
           then Raise (AttributeError
                  ("module 'OSrelease' has no attribute '" +:+ key +:+ "'"))
           else Ok "".
Proof.
  intros Hsel Htext Hok.
  rewrite OSrelease_init_selected, Hsel. unfold OSrelease_from.
  rewrite Htext, parse_os_release_lines by done.
  eexists. split; [reflexivity|]. split; [reflexivity|].
  intros attr. set (key := if case_sensitive then attr else upper attr).
  intros _ Hkey. unfold OSrelease_getattr. simpl. fold key.
  rewrite (dict_of_lines_absent ls key Hkey). simpl. by destruct exact.
Qed.

Lemma OSrelease_file_replaces_defaults_witness :
  ∃ o, OSrelease_init "/" false false
         (world_with "/etc/os-release" (render_all [Bare "VERSION_ID" "22.04"]))
       = (after (world_with "/etc/os-release"
                   (render_all [Bare "VERSION_ID" "22.04"]))
            (EvRead "/etc/os-release"), Ok o) ∧
       OSrelease_getattr o "id" = Ok "" ∧
       OSrelease_getattr o "version_id" = Ok "22.04".
Proof.
  destruct (OSrelease_file_replaces_defaults "/" false false
              (world_with "/etc/os-release" (render_all [Bare "VERSION_ID" "22.04"]))
              "/etc/os-release" (file_of (render_all [Bare "VERSION_ID" "22.04"]))
              [Bare "VERSION_ID" "22.04"] eq_refl eq_refl)
    as (o & Hinit & Hdata & Habs); [repeat constructor|].
  exists o. split_and!; [exact Hinit| |].
  - apply (Habs "id"); [reflexivity|].
    intros [H|H]%elem_of_cons; [discriminate|by apply elem_of_nil in H].
  - unfold OSrelease_getattr. injection Hinit as <-. reflexivity.
Defined.

End OSrelease_more.

Section tameness.
Context (host : Host).
Context (json_load : string → result json) (json_dumps : json → string).

Lemma grows_refl w : grows w w.
Proof. exists []. by rewrite app_nil_r. Qed.

Lemma grows_trans w1 w2 w3 : grows w1 w2 → grows w2 w3 → grows w1 w3.
Proof.
  intros [t1 H1] [t2 H2]. exists (t1 ++ t2). by rewrite H2, H1, app_assoc.
Qed.

Lemma grows_same w w' : w_trace w' = w_trace w → grows w w'.
Proof. intros H. exists []. by rewrite app_nil_r. Qed.

Lemma tame_ret {A} (a : A) : tame (ret a).
Proof. intros w. split; [apply grows_refl|]. by intros e. Qed.

Lemma tame_raise {A} e : is_Exception e = true → tame (@raise A e).
Proof. intros He w. split; [apply grows_refl|]. by intros e' [= <-]. Qed.

Lemma tame_lift {A} (r : result A) : mild r → tame (lift r).
Proof. intros Hr w. split; [apply grows_refl|]. exact Hr. Qed.

Lemma tame_bind {A B} (c : M A) (k : A → M B) :
  tame c → (∀ a, tame (k a)) → tame (bind c k).
Proof.
  intros Hc Hk w. unfold bind. destruct (Hc w) as [Hg Hm].
  destruct (c w) as [w1 [a|e]]; simpl in *.
  - destruct (Hk a w1) as [Hg' Hm']. split; [|done].
    by eapply grows_trans.
  - split; [done|]. intros e' [= <-]. by apply Hm.
Qed.

Lemma tame_emit ev : tame (emit ev).
Proof. intros w. split; [by eexists|]. by intros e. Qed.

Lemma tame_print line : tame (print line).
Proof. apply tame_emit. Qed.

Lemma tame_path_exists p : tame (path_exists p).
Proof. intros w. split; [apply grows_refl|]. by intros e. Qed.

Lemma mild_dirs_check fs p : mild (dirs_check fs p).
Proof. intros e [-> | ->]%dirs_check_error; done. Qed.

Lemma no_entry_Exception fs p : is_Exception (no_entry fs p) = true.
Proof.
  unfold no_entry. pose proof (mild_dirs_check fs p) as H.
  destruct (dirs_check fs p) as [[]|e]; [done|]. by apply H.
Qed.

Lemma tame_open_read p : tame (open_read p).
Proof.
  intros w. unfold open_read. destruct (w_files w !! p) as [[f|m]|]; simpl.
  - split; [by eexists|]. by intros e.
  - split; [apply grows_refl|]. by intros e [= <-].
  - split; [apply grows_refl|]. intros e [= <-]. apply no_entry_Exception.
Qed.

Lemma tame_write_bytes umask p data : tame (write_bytes umask p data).
Proof.
  intros w. unfold write_bytes. pose proof (mild_dirs_check (w_files w) p) as H.
  destruct (w_files w !! p) as [[f|m]|]; simpl;
    [| |destruct (dirs_check (w_files w) p) as [[]|e0]];
    (split; [by apply grows_same|]); intros e;
    (done || (intros [= <-]; by (done || apply H))).
Qed.

Lemma tame_write_text umask p data : tame (write_text umask p data).
Proof.
  unfold write_text. destruct (is_text data); [apply tame_write_bytes|].
  apply tame_bind; [apply tame_write_bytes|]. intros _. by apply tame_raise.
Qed.

Lemma tame_chmod p perms : tame (chmod p perms).
Proof.
  intros w. unfold chmod. destruct (negb (in_C_int perms)); simpl.
  { split; [apply grows_refl|]. by intros e [= <-]. }
  destruct (w_files w !! p) as [[f|m]|]; simpl;
    (split; [by apply grows_same|]); intros e;
    (done || (intros [= <-]; apply no_entry_Exception)).
Qed.

Lemma tame_unlink p : tame (unlink_missing_ok p).
Proof.
  intros w. unfold unlink_missing_ok.
  pose proof (no_entry_Exception (w_files w) p) as H.
  destruct (w_files w !! p) as [[f|m]|]; simpl;
    [| |destruct (no_entry (w_files w) p)];
    (split; [by apply grows_same|]); intros e;
    (done || by intros [= <-]).
Qed.

Lemma tame_stat_mode p : tame (stat_mode p).
Proof.
  intros w. unfold stat_mode. destruct (w_files w !! p) as [[f|m]|]; simpl;
    (split; [by apply grows_same|]); intros e;
    (done || (intros [= <-]; apply no_entry_Exception)).
Qed.

Lemma tame_mkdir umask p : tame (mkdir_exist_ok umask p).
Proof.
  intros w. unfold mkdir_exist_ok.
  pose proof (mild_dirs_check (w_files w) p) as H.
  destruct (w_files w !! p) as [[f|m]|]; simpl;
    [| |destruct (dirs_check (w_files w) p) as [[]|e0]];
    (split; [by apply grows_same|]); intros e;
    (done || (intros [= <-]; by (done || apply H))).
Qed.

Lemma tame_sp_run cmd cwd : tame (sp_run host cmd cwd).
Proof.
  intros w. unfold sp_run. destruct (h_sp_run host cmd cwd (w_files w)) as [fs code].
  destruct (Z.eqb code 0); simpl; (split; [by eexists|]); intros e;
    (done || by intros [= <-]).
Qed.

(** *** The pure parts raise nothing but ordinary exceptions *)

Lemma mild_Ok {A} (a : A) : mild (Ok a).
Proof. by intros e. Qed.

Lemma mild_Raise {A} e : is_Exception e = true → mild (@Raise A e).
Proof. by intros He e' [= <-]. Qed.

Lemma mild_parse_add_char r c st : mild (parse_add_char r c st).
Proof.
  unfold parse_add_char. destruct (_ && _); [by apply mild_Raise|].
  apply mild_Ok.
Qed.

Lemma mild_parse_process_char d r c : mild (parse_process_char d r c).
Proof.
  unfold parse_process_char.
  destruct (r_state r), c as [c|]; simpl;
    repeat (match goal with
            | |- mild (if ?b then _ else _) => destruct b
            end);
    (apply mild_Ok || apply mild_parse_add_char || by apply mild_Raise).
Qed.

Lemma mild_parse_line d r line : mild (parse_line d r line).
Proof.
  revert r. induction line as [|c line IH]; intros r; simpl.
  - apply mild_parse_process_char.
  - pose proof (mild_parse_process_char d r (Some c)) as Hc.
    destruct (parse_process_char d r (Some c)) as [r'|e]; [apply IH|].
    intros e' [= <-]. by apply Hc.
Qed.

Lemma mild_csv_records d r lines : mild (csv_records d r lines).
Proof.
  revert r. induction lines as [|line lines IH]; intros r; simpl.
  - destruct (_ || _); apply mild_Ok.
  - pose proof (mild_parse_line d r line) as Hl.
    destruct (parse_line d r line) as [r'|e];
      [|intros e' [= <-]; by apply Hl].
    pose proof (IH csv_reset) as H0. pose proof (IH r') as H1.
    destruct (r_state r'); try exact H1.
    destruct (csv_records d csv_reset lines) as [rows|e]; [apply mild_Ok|].
    intros e' [= <-]. by apply H0.
Qed.

Lemma mild_dict_of_rows d rows : mild (dict_of_rows d rows).
Proof.
  revert d. induction rows as [|row rows IH]; intros d; simpl;
    [apply mild_Ok|].
  destruct row as [|k [|v [|x row]]]; try by apply mild_Raise.
  apply IH.
Qed.

Lemma mild_parse_os_release text : mild (parse_os_release text).
Proof.
  unfold parse_os_release, csv_reader_rows.
  pose proof (mild_csv_records "=" csv_reset (readlines text)) as Hc.
  destruct (csv_records "=" csv_reset (readlines text)) as [rows|e].
  - apply mild_dict_of_rows.
  - intros e' [= <-]. by apply Hc.
Qed.

Lemma mild_getattr o attr : mild (OSrelease_getattr o attr).
Proof.
  unfold OSrelease_getattr. destruct (_ && _); [by apply mild_Raise|].
  apply mild_Ok.
Qed.

Lemma mild_decode_chunk p d c final : mild (decode_chunk p d c final).
Proof.
  unfold decode_chunk. destruct (utf8_decode _) as [[text rest]|];
    [|by apply mild_Raise].
  destruct (final && _); [by apply mild_Raise|].
  destruct (if final then _ else _). apply mild_Ok.
Qed.

Lemma mild_text_readline p data : mild (text_readline p data).
Proof.
  unfold text_readline. generalize (chunks (String.length data) data).
  generalize {| d_pending := ""; d_pendingcr := false |}. generalize "".
  intros line d cs. revert line d.
  induction cs as [|c cs IH]; intros line d; simpl.
  - pose proof (mild_decode_chunk p d "" true) as H.
    destruct (decode_chunk p d "" true) as [[out d']|e]; [apply mild_Ok|].
    intros e' [= <-]. by apply H.
  - pose proof (mild_decode_chunk p d c false) as H.
    destruct (decode_chunk p d c false) as [[out d']|e].
    + destruct (first_line _); [apply mild_Ok|apply IH].
    + intros e' [= <-]. by apply H.
Qed.

Lemma mild_open_readline root name : mild (open_readline root name).
Proof.
  unfold open_readline. destruct (root !! name) as [[?|es]|];
    try by apply mild_Raise.
  destruct (es !! "cmdline") as [[text []|?]|];
    (apply mild_text_readline || by apply mild_Raise).
Qed.

Lemma mild_ps_bins seen now : mild (ps_bins_between seen now).
Proof.
  unfold ps_bins_between. generalize (∅ : gset string).
  induction (glob_cmdline seen) as [|p ps IH]; intros s; simpl;
    [apply mild_Ok|].
  pose proof (mild_open_readline now p) as Hp.
  destruct (open_readline now p) as [line|e];
    [|intros e' [= <-]; by apply Hp].
  rewrite split_cons. destruct (String.eqb _ _); apply IH.
Qed.

Lemma mild_add_log pls : mild (add_log pls).
Proof.
  induction pls as [|pl pls IH]; simpl; [apply mild_Ok|].
  destruct pl; try by apply mild_Raise.
  destruct (is_config _); [apply mild_Ok|].
  destruct (add_log pls) as [[?|]|e]; try apply mild_Ok.
  intros e' [= <-]. by apply IH.
Qed.

Lemma mild_config_with_log data : mild (config_with_log data).
Proof.
  unfold config_with_log.
  destruct (py_getitem data "platforms") as [pf|e] eqn:Eg.
  - destruct (py_iter pf) as [pls|e] eqn:Ei.
    + pose proof (mild_add_log pls) as Ha.
      destruct (add_log pls) as [[pls'|]|e].
      * destruct data; apply mild_Ok.
      * by apply mild_Raise.
      * intros e' [= <-]. by apply Ha.
    + apply mild_Raise. destruct pf; simpl in Ei; by simplify_eq.
  - apply mild_Raise. destruct data; simpl in Eg; try by simplify_eq.
    destruct (obj_get "platforms" members); by simplify_eq.
Qed.

Lemma mild_check_keywords allowed kw : mild (check_keywords allowed kw).
Proof.
  unfold check_keywords. destruct (List.filter _ _); [apply mild_Ok|].
  by apply mild_Raise.
Qed.

Lemma mild_kw_str kw key dflt : mild (kw_str kw key dflt).
Proof.
  unfold kw_str. destruct (kw !! key) as [[]|];
    (apply mild_Ok || by apply mild_Raise).
Qed.

Lemma mild_kw_bool kw key dflt : mild (kw_bool kw key dflt).
Proof.
  unfold kw_bool. destruct (kw !! key) as [[]|];
    (apply mild_Ok || by apply mild_Raise).
Qed.

(** *** Every step of a build is tame *)

Create HintDb tame discriminated.

#[local] Hint Resolve tame_ret tame_print tame_path_exists tame_open_read
  tame_write_bytes tame_write_text tame_chmod tame_unlink tame_stat_mode
  tame_mkdir
  tame_sp_run mild_parse_os_release mild_getattr mild_ps_bins
  mild_config_with_log mild_check_keywords mild_kw_str mild_kw_bool : tame.

(** One step of a proof of tameness: a sequence, a branch, or a part that
    is known to be tame. *)
Ltac tame_step :=
  first
    [ solve [eauto with tame]
    | apply tame_raise; reflexivity
    | apply tame_lift
    | apply tame_bind; [|intros ?]
    | match goal with
      | |- tame (if ?b then _ else _) => destruct b
      | |- tame (match ?x with _ => _ end) => destruct x
      | |- tame (let '(_, _) := ?x in _) => destruct x
      end ].

Ltac tame_auto := repeat tame_step.

Lemma tame_copymode src dst : tame (copymode src dst).
Proof. unfold copymode. tame_auto. Qed.

#[local] Hint Resolve tame_copymode : tame.

Lemma tame_copy umask src dst : tame (copy umask src dst).
Proof. unfold copy. tame_auto. Qed.

Lemma tame_run cmd cwd : tame (_run host cmd cwd).
Proof. unfold _run. tame_auto. Qed.

Lemma tame_build self spec : tame (build host self spec).
Proof. apply tame_run. Qed.

Lemma tame_exec self cmd admin : tame (exec host self cmd admin).
Proof. apply tame_run. Qed.

#[local] Hint Resolve tame_copy tame_run tame_build tame_exec : tame.

Lemma tame_localtime self : tame (localtime host self).
Proof. unfold localtime. tame_auto. Qed.

Lemma tame_mkfile self rel_name data perms :
  tame (mkfile host self rel_name data perms).
Proof. unfold mkfile. tame_auto. Qed.

#[local] Hint Resolve tame_localtime tame_mkfile : tame.

Lemma tame_Singularity_mkenv self name tag editor editor_args :
  tame (Singularity_mkenv host self name tag editor editor_args).
Proof. apply tame_mkfile. Qed.

Lemma tame_helpers self : tame (helpers host self).
Proof. unfold helpers. tame_auto. Qed.

Lemma tame_Singularity_init image_path : tame (Singularity_init host image_path).
Proof. unfold Singularity_init. tame_auto. Qed.

Lemma tame_OSrelease_scan self fnames : tame (OSrelease_scan self fnames).
Proof.
  induction fnames as [|fname rest IH]; simpl; [apply tame_ret|].
  apply tame_bind; [apply tame_path_exists|]. intros [|]; [|exact IH].
  tame_auto.
Qed.

Lemma tame_OSrelease_init root case_sensitive exact :
  tame (OSrelease_init root case_sensitive exact).
Proof. apply tame_OSrelease_scan. Qed.

#[local] Hint Resolve tame_Singularity_mkenv tame_helpers
  tame_Singularity_init tame_OSrelease_init : tame.

Lemma tame_update_distro self : tame (update_distro host self).
Proof. unfold update_distro. tame_auto. Qed.

Lemma tame_upgrade_distro self : tame (upgrade_distro host self).
Proof. unfold upgrade_distro. tame_auto. Qed.

Lemma tame_install_distro self pkg_list :
  tame (install_distro host self pkg_list).
Proof. unfold install_distro. tame_auto. Qed.

#[local] Hint Resolve tame_update_distro tame_upgrade_distro
  tame_install_distro : tame.

Lemma tame_update self : tame (update host self).
Proof. unfold update. tame_auto. Qed.

#[local] Hint Resolve tame_update : tame.

Lemma tame_upgrade self : tame (upgrade host self).
Proof. unfold upgrade. tame_auto. Qed.

Lemma tame_install self : tame (install host self).
Proof. unfold install. tame_auto. Qed.

Lemma tame_DistroDocker_mkenv self : tame (DistroDocker_mkenv host self).
Proof. unfold DistroDocker_mkenv. tame_auto. Qed.

#[local] Hint Resolve tame_upgrade tame_install tame_DistroDocker_mkenv : tame.

Lemma tame_call_extra self fn_name : tame (call_extra host self fn_name).
Proof. unfold call_extra. tame_auto. Qed.

Lemma tame_run_extras self extras : tame (run_extras host self extras).
Proof.
  revert self. induction extras as [|fn_name rest IH]; intros self; simpl.
  - apply tame_ret.
  - apply tame_bind; [apply tame_print|]. intros _.
    apply tame_bind; [apply tame_call_extra|]. intros self'. apply IH.
Qed.

#[local] Hint Resolve tame_run_extras : tame.

Lemma tame_DistroDocker_init cls name image_path tag editor editor_args
    extras pkgs upgrade :
  tame (DistroDocker_init host cls name image_path tag editor editor_args
          extras pkgs upgrade).
Proof. unfold DistroDocker_init. tame_auto. Qed.

Lemma tame_Ubuntu_init image_path tag pkgs upgrade :
  tame (Ubuntu_init host image_path tag pkgs upgrade).
Proof. apply tame_DistroDocker_init. Qed.

#[local] Hint Resolve tame_DistroDocker_init tame_Ubuntu_init : tame.

Lemma tame_UnifiNetworkController_init image_path :
  tame (UnifiNetworkController_init host image_path).
Proof. unfold UnifiNetworkController_init. tame_auto. Qed.

(** ** The build comes first *)

Lemma bind_assoc_at {A B C} (c : M A) (k1 : A → M B) (k2 : B → M C) w :
  bind (bind c k1) k2 w = bind c (λ a, bind (k1 a) k2) w.
Proof. unfold bind. by destruct (c w) as [w1 [a|e]]. Qed.

Lemma Singularity_init_free name image_path w prog :
  w_files w !! sandbox_target host name image_path = None →
  h_which host "singularity" = Some prog →
  Singularity_init host (if String.eqb image_path "" then name else image_path) w
  = (w, Ok {| image_path := sandbox_target host name image_path;
              prog := prog |}).
Proof.
  intros Hfree Hwhich. unfold Singularity_init, bind.
  fold (sandbox_target host name image_path).
  rewrite (path_exists_None _ _ Hfree). by rewrite Hwhich.
Qed.

Lemma Singularity_init_taken name image_path w x :
  w_files w !! sandbox_target host name image_path = Some x →
  ∃ msg,
    Singularity_init host (if String.eqb image_path "" then name else image_path) w
    = (w, Raise (FileExistsError msg)).
Proof.
  intros Hx. unfold Singularity_init, bind.
  fold (sandbox_target host name image_path).
  rewrite (path_exists_Some _ _ _ Hx). by eexists.
Qed.

Lemma Singularity_init_no_tool name image_path w :
  w_files w !! sandbox_target host name image_path = None →
  h_which host "singularity" = None →
  ∃ msg,
    Singularity_init host (if String.eqb image_path "" then name else image_path) w
    = (w, Raise (FileNotFoundError msg)).
Proof.
  intros Hfree Hwhich. unfold Singularity_init, bind.
  fold (sandbox_target host name image_path).
  rewrite (path_exists_None _ _ Hfree), Hwhich. by eexists.
Qed.

(** What follows a build comes after it in the trace, and is not reached
    when the build tool fails. *)
Lemma build_then {A} sb spec (k : M A) w :
  tame k →
  let cmd := [prog sb; "build"; "--sandbox"; "--fix-perms"; image_path sb; spec] in
  let cwd := path_parent (image_path sb) in
  let r := bind (build host sb spec) (λ _, k) w in
  (∃ l1 l2 t,
     w_trace (fst r) = w_trace w ++ [EvPrint l1; EvPrint l2; EvRun cmd cwd] ++ t) ∧
  (snd (h_sp_run host cmd cwd (w_files w)) ≠ 0%Z →
   runs (w_trace (fst r)) = S (runs (w_trace w)) ∧
   snd r = Raise (CalledProcessError cmd
                    (snd (h_sp_run host cmd cwd (w_files w))))).
Proof.
  intros Hk cmd cwd. cbv zeta.
  unfold build, _run, bind, print, emit, sp_run. simpl. fold cmd cwd.
  destruct (h_sp_run host cmd cwd (w_files w)) as [fs code]. simpl.
  destruct (Z.eqb_spec code 0) as [->|Hcode].
  - match goal with
    | |- context [k ?w1] => destruct (Hk w1) as [[t Ht] _]
    end.
    split; [|done]. do 2 eexists. exists t. rewrite Ht. simpl.
    by rewrite <- !app_assoc.
  - simpl. split.
    + do 2 eexists. exists []. by rewrite <- !app_assoc.
    + intros _. split; [|done]. rewrite !runs_app. unfold runs. simpl. lia.
Qed.

(** Without [unifi] among the names the scan goes through all of them:
    it finds no controller, and a [haveged] where a name ends with it. *)
Lemma unc_scan_no_unifi names h :
  "unifi" ∉ names →
  unc_scan names h false
  = (h || existsb (endswith "/haveged") names, false).
Proof.
  revert h. induction names as [|name names IH]; intros h Hn; simpl.
  - by rewrite orb_false_r.
  - apply not_elem_of_cons in Hn as [Hne Hn].
    destruct (String.eqb_spec name "unifi") as [->|_]; [done|].
    destruct (endswith "/haveged" name); simpl.
    + rewrite ?andb_false_r. rewrite IH by done. by rewrite ?orb_true_r.
    + rewrite ?andb_false_r. rewrite IH by done. by rewrite ?orb_false_r.
Qed.

(** X9: a distribution is not built where something exists, nor without
    the build tool: [DistroDocker.__init__] raises [FileExistsError],
    respectively [FileNotFoundError], and leaves the world as it was, so
    that the build tool was not invoked. *)
Theorem DistroDocker_init_refuses
    cls name image_path tag editor editor_args extras pkgs upgrade w :
  let r := DistroDocker_init host cls name image_path tag editor editor_args
             extras pkgs upgrade w in
  (is_Some (w_files w !! sandbox_target host name image_path) →
   ∃ msg, r = (w, Raise (FileExistsError msg))) ∧
  (w_files w !! sandbox_target host name image_path = None →
   h_which host "singularity" = None →
   ∃ msg, r = (w, Raise (FileNotFoundError msg))).
Proof.
  cbv zeta. split.
  - intros [x Hx]. unfold DistroDocker_init, bind at 1.
    destruct (Singularity_init_taken name image_path w x Hx) as [msg ->].
    by eexists.
  - intros Hfree Hwhich. unfold DistroDocker_init, bind at 1.
    destruct (Singularity_init_no_tool name image_path w Hfree Hwhich)
      as [msg ->].
    by eexists.
Qed.

(** X10: where the target is free and the build tool is found, the build
    from [docker://name:tag] is the first thing [DistroDocker.__init__]
    runs, after printing its command line and working directory; when the
    build tool fails the construction raises [CalledProcessError] and no
    further subprocess is run. *)
Theorem DistroDocker_init_builds_first
    cls name image_path tag editor editor_args extras pkgs upgrade w prog :
  w_files w !! sandbox_target host name image_path = None →
  h_which host "singularity" = Some prog →
  let path := sandbox_target host name image_path in
  let cmd := build_command prog path name tag in
  let r := DistroDocker_init host cls name image_path tag editor editor_args
             extras pkgs upgrade w in
  (∃ l1 l2 t,
     w_trace (fst r) =
       w_trace w ++ [EvPrint l1; EvPrint l2; EvRun cmd (path_parent path)] ++ t) ∧
  (snd (h_sp_run host cmd (path_parent path) (w_files w)) ≠ 0%Z →
   runs (w_trace (fst r)) = S (runs (w_trace w)) ∧
   snd r = Raise (CalledProcessError cmd
                    (snd (h_sp_run host cmd (path_parent path) (w_files w))))).
Proof.
  intros Hfree Hwhich path cmd. cbv zeta.
  assert (Hinit :
    DistroDocker_init host cls name image_path tag editor editor_args
      extras pkgs upgrade w =
    bind (build host {| image_path := path; prog := prog |}
            ("docker://" +:+ name +:+ ":" +:+ tag))
      (λ _, run_extras host
              {| dd_sandbox := {| image_path := path; prog := prog |};
                 dd_class := cls; _dd_editor := editor;
                 _dd_editor_args := editor_args; _dd_updated := false;
                 _dd_pkgs := split_ws (if String.eqb editor "vi" then pkgs
                                       else pkgs +:+ " " +:+ editor) |}
              (let extras :=
                 if negb (String.eqb (if String.eqb editor "vi" then pkgs
                                      else pkgs +:+ " " +:+ editor) "")
                    && negb (bool_decide ("install" ∈ split_ws extras))
                 then split_ws extras ++ ["install"] else split_ws extras in
               if upgrade then extras ++ ["upgrade"] else extras)) w).
  { unfold DistroDocker_init, bind at 1.
    by rewrite (Singularity_init_free _ _ _ _ Hfree Hwhich). }
  rewrite Hinit.
  apply (build_then {| image_path := path; prog := prog |}).
  apply tame_run_extras.
Qed.

(** X11: once its prechecks pass (the user is not root, no [unifi] runs),
    the network-controller profile builds from [ubuntu:xenial] on a 32-bit
    ARM host and from [ubuntu:focal] on any other, and this build is the
    first subprocess it runs. *)
Theorem unifi_builds_from_tag image_path w s prog :
  h_getuser host ≠ "root" →
  ps_bins (h_proc host) = Ok s →
  "unifi" ∉ s →
  w_files w !! sandbox_target host "unc" image_path = None →
  h_which host "singularity" = Some prog →
  let path := sandbox_target host "unc" image_path in
  ∃ l1 l2 t,
    w_trace (fst (UnifiNetworkController_init host image_path w)) =
      w_trace w
      ++ [EvPrint l1; EvPrint l2;
          EvRun (build_command prog path "ubuntu" (unifi_tag host))
            (path_parent path)] ++ t.
Proof.
  intros Huser Hps Hnot Hfree Hwhich path.
  unfold UnifiNetworkController_init.
  destruct (String.eqb_spec (h_getuser host) "root") as [?|_]; [done|].
  unfold bind at 1, lift. rewrite Hps.
  destruct (unc_scan (elements s) false false) as [ps_haveged ps_unc] eqn:Escan.
  assert (ps_unc = false) as ->.
  { assert (Hn : "unifi" ∉ elements s) by (by rewrite elem_of_elements).
    pose proof (unc_scan_no_unifi (elements s) false Hn) as Hscan.
    rewrite Escan in Hscan. by injection Hscan. }
  fold (unifi_tag host).
  assert (Hip : sandbox_target host "ubuntu"
                  (if String.eqb image_path "" then "unc" else image_path)
                = path).
  { unfold path, sandbox_target. cbv zeta.
    destruct (String.eqb image_path "") eqn:E; [done|]. by rewrite E. }
  unfold Ubuntu_init, DistroDocker_init.
  rewrite bind_assoc_at. unfold bind at 1.
  fold path in Hfree. rewrite <- Hip in Hfree.
  rewrite (Singularity_init_free _ _ _ _ Hfree Hwhich), Hip.
  rewrite bind_assoc_at.
  match goal with
  | |- context [bind (build host ?sb ?spec) ?k w] =>
      destruct (build_then sb spec (k tt) w) as [H _]; [|exact H]
  end.
  tame_auto.
Qed.

Hypothesis json_load_mild : ∀ text, mild (json_load text).

Lemma tame_Homebridge_init image_path :
  tame (Homebridge_init host json_load json_dumps image_path).
Proof.
  unfold Homebridge_init, Homebridge_install, Homebridge_logging,
    Homebridge_messages.
  tame_auto.
Qed.

Lemma tame_construct c kw : tame (construct host json_load json_dumps c kw).
Proof.
  unfold construct.
  destruct c; tame_auto;
    first [apply tame_DistroDocker_init
          | apply tame_UnifiNetworkController_init
          | apply tame_Homebridge_init].
Qed.

(** X6: whatever the host does, [main] either returns or exits with
    status 2 after reporting one error for the target: every exception
    of a build, and the unknown name of a target (a [KeyError], with no
    class called), ends in the error path of the parser.  The trace is
    only added to. *)
Theorem main_fails_with_status_2 args w :
  let r := main host json_load json_dumps args w in
  grows w (fst r) ∧
  (snd r = Ok tt ∨
   (snd r = Raise (SystemExit 2) ∧
    ∃ e, last (w_trace (fst r)) = Some (EvError (a_name args) e) ∧
         is_Exception e = true)) ∧
  (a_list args = false → profile_of_name (a_name args) = None →
   r = (after w (EvError (a_name args) (KeyError (a_name args))),
        Raise (SystemExit 2))).
Proof.
  cbv zeta. unfold main, main_with. destruct (a_list args).
  { match goal with
    | |- grows w (fst (?c w)) ∧ _ => assert (Ht : tame c) by tame_auto
    end.
    destruct (Ht w) as [Hg _]. split_and!; [exact Hg|by left|done]. }
  unfold main_construct.
  destruct (profile_of_name (a_name args)) as [c|] eqn:Ec.
  - destruct (tame_construct c (main_sb_args args) w) as [Hg Hm].
    destruct (construct _ _ _ c (main_sb_args args) w) as [w1 [[]|e]];
      simpl in *.
    + split_and!; [done|by left|done].
    + rewrite (Hm e eq_refl). simpl. split_and!; [| |done].
      * eapply grows_trans; [done|]. by eexists.
      * right. split; [done|]. exists e. split; [|by apply Hm].
        by rewrite last_snoc.
  - simpl. split_and!; [by eexists| |done].
    right. split; [done|]. eexists. split; [by rewrite last_snoc|done].
Qed.

Lemma in_filter_not_nil {A} (f : A → bool) l x :
  In x l → f x = true → List.filter f l ≠ [].
Proof.
  intros Hin Hf Hnil.
  assert (H : In x (List.filter f l)) by (apply List.filter_In; auto).
  rewrite Hnil in H. done.
Qed.

(** X7: a keyword argument the class of the profile does not accept makes
    the call raise [TypeError] at once: the world is as it was, so nothing
    was checked, built or written. *)
Theorem unexpected_keyword_is_refused c kw k w :
  is_Some (kw !! k) →
  k ∉ accepted_keywords c →
  ∃ msg, construct host json_load json_dumps c kw w
         = (w, Raise (TypeError msg)).
Proof.
  intros [v Hv] Hk.
  assert (Hbad : ∃ k' rest,
            List.filter (λ k, negb (bool_decide (k ∈ accepted_keywords c)))
              (fst <$> map_to_list kw) = k' :: rest).
  { destruct (List.filter _ _) as [|k' rest] eqn:Ef; [|by eauto].
    exfalso. revert Ef. apply (in_filter_not_nil _ _ k).
    - apply list_elem_of_In, list_elem_of_fmap. exists (k, v).
      split; [done|]. by apply elem_of_map_to_list.
    - by rewrite bool_decide_false. }
  destruct Hbad as (k' & rest & Hbad).
  destruct c; simpl in Hbad; unfold construct, bind, lift, check_keywords;
    rewrite Hbad; by eexists.
Qed.

End tameness.

Lemma main_fails_with_status_2_witness :
  main hb_host (λ _, Ok JNull) (λ _, "")
    {| a_list := false; a_image_path := ""; a_name := "debian";
       a_option := [] |} world_hb =
  (after world_hb (EvError "debian" (KeyError "debian")),
   Raise (SystemExit 2)).
Proof.
  assert (Hload : ∀ text : string, mild (Ok JNull : result json))
    by (intros text e; discriminate).
  exact (proj2 (proj2 (main_fails_with_status_2 hb_host (λ _, Ok JNull)
                         (λ _, "") Hload
                         {| a_list := false; a_image_path := "";
                            a_name := "debian"; a_option := [] |} world_hb))
           eq_refl eq_refl).
Defined.

Lemma unexpected_keyword_is_refused_witness :
  ∃ msg, construct quiet_host (λ _, Ok JNull) (λ _, "") PUnc
           {[ "image_path" := VStr "unc"; "upgrade" := VBool true ]} empty_world
         = (empty_world, Raise (TypeError msg)).
Proof.
  apply (unexpected_keyword_is_refused quiet_host (λ _, Ok JNull) (λ _, "")
           PUnc _ "upgrade").
  - by eexists.
  - intros [H|H]%elem_of_cons; [discriminate|by apply elem_of_nil in H].
Defined.

Lemma DistroDocker_init_refuses_witness :
  (∃ msg, DistroDocker_init quiet_host Alpine "alpine" "" "latest" "nano" ""
            "localtime helpers mkenv" "" false
            (world_with "/home/ann/alpine" "taken")
          = (world_with "/home/ann/alpine" "taken",
             Raise (FileExistsError msg))) ∧
  (∃ msg, DistroDocker_init bare_host Alpine "alpine" "" "latest" "nano" ""
            "localtime helpers mkenv" "" false empty_world
          = (empty_world, Raise (FileNotFoundError msg))).
Proof.
  split.
  - apply (proj1 (DistroDocker_init_refuses quiet_host Alpine "alpine" ""
                    "latest" "nano" "" "localtime helpers mkenv" "" false
                    (world_with "/home/ann/alpine" "taken"))).
    eexists. vm_compute. reflexivity.
  - apply (proj2 (DistroDocker_init_refuses bare_host Alpine "alpine" ""
                    "latest" "nano" "" "localtime helpers mkenv" "" false
                    empty_world)).
    + vm_compute. reflexivity.
    + reflexivity.
Defined.

Lemma DistroDocker_init_builds_first_witness :
  let cmd := build_command "/usr/bin/singularity" "/home/ann/alpine"
               "alpine" "latest" in
  let r := DistroDocker_init failing_host Alpine "alpine" "" "latest" "nano" ""
             "localtime helpers mkenv" "" false empty_world in
  runs (w_trace (fst r)) = 1 ∧ snd r = Raise (CalledProcessError cmd 255).
Proof.
  apply (proj2 (DistroDocker_init_builds_first failing_host Alpine "alpine" ""
                  "latest" "nano" "" "localtime helpers mkenv" "" false
                  empty_world "/usr/bin/singularity" eq_refl eq_refl)).
  vm_compute. discriminate.
Defined.

Lemma unifi_builds_from_tag_witness :
  ∃ l1 l2 t,
    w_trace (fst (UnifiNetworkController_init armhf_host "" empty_world)) =
      [EvPrint l1; EvPrint l2;
       EvRun (build_command "/usr/bin/singularity" "/home/pi/unc" "ubuntu"
                "xenial") "/home/pi"] ++ t.
Proof.
  apply (unifi_builds_from_tag armhf_host "" empty_world ∅
           "/usr/bin/singularity").
  - vm_compute. discriminate.
  - vm_compute. reflexivity.
  - apply not_elem_of_empty.
  - vm_compute. reflexivity.
  - reflexivity.
Defined.

Section frontend_more.
Implicit Types (args : Args) (kw : gmap string value).

Lemma option_step_typed kw kv : well_typed kw → well_typed (option_step kw kv).
Proof.
  intros Hkw. unfold option_step.
  destruct (contains_char "=" kv); [|done].
  destruct (partition "=" kv) as [[k0 sep] v0].
  destruct (String.eqb_spec k0 "upgrade") as [->|Hne]; intros k v.
  - destruct (decide (k = "upgrade")) as [->|Hk].
    + rewrite lookup_insert_eq. by intros [= <-].
    + rewrite lookup_insert_ne by done. apply Hkw.
  - destruct (decide (k = k0)) as [->|Hk].
    + rewrite lookup_insert_eq. by intros [= <-].
    + rewrite lookup_insert_ne by done. apply Hkw.
Qed.

Lemma option_step_keeps kw kv k :
  is_Some (kw !! k) → is_Some (option_step kw kv !! k).
Proof.
  intros Hk. unfold option_step.
  destruct (contains_char "=" kv); [|done].
  destruct (partition "=" kv) as [[k0 sep] v0].
  destruct (String.eqb k0 "upgrade"); by apply lookup_insert_is_Some'; right.
Qed.

Lemma main_sb_args_typed args :
  well_typed (main_sb_args args) ∧
  ∃ image_path, main_sb_args args !! "image_path" = Some (VStr image_path).
Proof.
  unfold main_sb_args.
  set (ip := if String.eqb (a_image_path args) "" then a_name args
             else a_image_path args).
  assert (H : ∀ opts kw, well_typed kw → is_Some (kw !! "image_path") →
                well_typed (foldl option_step kw opts) ∧
                is_Some (foldl option_step kw opts !! "image_path")).
  { induction opts as [|kv opts IH]; intros kw Ht Hi; simpl; [done|].
    apply IH; [by apply option_step_typed|by apply option_step_keeps]. }
  destruct (H (a_option args) {[ "image_path" := VStr ip ]}) as [Ht [x Hx]].
  { intros k v [<- <-]%lookup_singleton_Some. done. }
  { rewrite lookup_singleton_eq. by eexists. }
  split; [done|]. destruct x as [image_path|b]; [by eexists|].
  by apply Ht in Hx.
Qed.

Lemma kw_str_typed kw key dflt :
  well_typed kw → key ≠ "upgrade" →
  kw_str kw key dflt = Ok (match kw !! key with
                           | Some (VStr s) => s
                           | _ => dflt
                           end).
Proof.
  intros Ht Hkey. unfold kw_str.
  destruct (kw !! key) as [[s|b]|] eqn:E; try done. by apply Ht in E.
Qed.

(** X8: the keyword arguments [main] builds always hold [image_path], hold
    a boolean under [upgrade] and strings under every other key; so the
    binding of the parameters of a distribution never fails on the kind of
    a value. *)
Theorem main_sb_args_well_typed args :
  well_typed (main_sb_args args) ∧
  is_Some (main_sb_args args !! "image_path") ∧
  (∀ dflt, is_ok (kw_bool (main_sb_args args) "upgrade" dflt) = true) ∧
  (∀ key dflt, key ≠ "upgrade" →
               is_ok (kw_str (main_sb_args args) key dflt) = true).
Proof.
  destruct (main_sb_args_typed args) as [Ht [ip Hi]].
  split_and!; [done|by eexists| |].
  - intros dflt. unfold kw_bool.
    destruct (main_sb_args args !! "upgrade") as [[s|b]|] eqn:E; try done.
    by apply Ht in E.
  - intros key dflt Hkey. by rewrite kw_str_typed.
Qed.

End frontend_more.

Section frontend_constructs.
Context (host : Host).
Context (json_load : string → result json) (json_dumps : json → string).
Implicit Types (args : Args) (kw : gmap string value) (w : World)
  (pre post : list string).

Lemma check_keywords_unexpected allowed kw k :
  is_Some (kw !! k) → k ∉ allowed →
  ∃ msg, check_keywords allowed kw = Raise (TypeError msg).
Proof.
  intros [v Hv] Hk. unfold check_keywords.
  destruct (List.filter _ _) as [|k' rest] eqn:Ef; [|by eexists].
  exfalso. revert Ef. apply (in_filter_not_nil _ _ k).
  - apply list_elem_of_In, list_elem_of_fmap. exists (k, v).
    split; [done|]. by apply elem_of_map_to_list.
  - by rewrite bool_decide_false.
Qed.

(** A string with a character that is not ASCII is none of the four
    words, whatever its case. *)
Lemma is_yes_ascii v : is_yes (lower v) = true → ascii_text v = true.
Proof.
  assert (Hlow : ∀ s, ascii_text (lower s) = true → ascii_text s = true).
  { induction s as [|c s IH]; simpl; [done|].
    intros [Hc Hs]%andb_true_iff. apply andb_true_iff. split; [|by apply IH].
    revert Hc. clear. destruct c as [[] [] [] [] [] [] [] []]; done. }
  intros H. apply Hlow. unfold is_yes in H. simpl in H.
  repeat (apply orb_true_iff in H as [H|H]); try done;
    apply String.eqb_eq in H as ->; reflexivity.
Qed.

(** C9 (as amended): when the option [upgrade=<v>] is passed to the
    frontend and no later option sets [upgrade] again, the keyword
    arguments the selected profile is called with hold [upgrade=True] if
    [<v>] lower-cased is one of [y], [yes], [t], [true], and
    [upgrade=False] for every other string, a string with a character that
    is not ASCII included; no string makes the conversion fail.  The run
    of [main] is the call of the class of the profile with these
    arguments.  For [alpine], [fedora] and [ubuntu], when every option
    key is a parameter of the constructor, the call is the run of the
    constructor with [upgrade] bound to this boolean; for [unc] and [hb],
    whose constructors have no such parameter, the call raises
    [TypeError] whatever [<v>] is, with the world as it was. *)
Theorem upgrade_option_coercion args pre v post c w :
  a_option args = pre ++ ("upgrade=" +:+ v) :: post →
  Forall (λ kv, sets_upgrade kv = false) post →
  a_list args = false →
  profile_of_name (a_name args) = Some c →
  let b := is_yes (lower v) in
  let kw := main_sb_args args in
  kw !! "upgrade" = Some (VBool b) ∧
  (b = true ↔
     lower v = "y" ∨ lower v = "yes" ∨ lower v = "t" ∨ lower v = "true") ∧
  (ascii_text v = false → b = false) ∧
  main host json_load json_dumps args w =
    (match construct host json_load json_dumps c kw w with
     | (w', Raise e) =>
         if is_Exception e then parser_error (a_name args) e w'
         else (w', Raise e)
     | ok => ok
     end) ∧
  match c with
  | PAlpine | PFedora | PUbuntu =>
      check_keywords (accepted_keywords c) kw = Ok tt →
      ∃ image_path tag pkgs,
        kw !! "image_path" = Some (VStr image_path) ∧
        kw_str kw "tag" "latest" = Ok tag ∧
        kw_str kw "pkgs" "" = Ok pkgs ∧
        construct host json_load json_dumps c kw w =
          (match distribution_init host c image_path tag pkgs b w with
           | (w', Ok _) => (w', Ok tt)
           | (w', Raise e) => (w', Raise e)
           end)
  | PUnc | PHb =>
      ∃ msg, construct host json_load json_dumps c kw w
             = (w, Raise (TypeError msg))
  end.
Proof.
  intros Hopt Hpost Hlist Hc b kw.
  assert (Hkw : kw !! "upgrade" = Some (VBool b)).
  { unfold kw, main_sb_args. rewrite Hopt, foldl_app. simpl.
    rewrite foldl_option_step_other by done.
    rewrite option_step_upgrade. apply lookup_insert_eq. }
  split_and!.
  - exact Hkw.
  - unfold b, is_yes. simpl. rewrite !orb_true_iff, !String.eqb_eq.
    intuition discriminate.
  - intros Hv. destruct b eqn:Eb; [|done].
    apply is_yes_ascii in Eb. congruence.
  - unfold main, main_with. rewrite Hlist. unfold main_construct.
    rewrite Hc. fold kw.
    by destruct (construct host json_load json_dumps c kw w) as [w' [[]|e]].
  - destruct (main_sb_args_typed args) as [Ht [ip Hip]]. fold kw in Ht, Hip.
    assert (Hdistro : ∀ c', accepted_keywords c'
                             = ["image_path"; "tag"; "pkgs"; "upgrade"] →
              check_keywords (accepted_keywords c') kw = Ok tt →
              ∀ init,
                bind (lift (check_keywords
                              ["image_path"; "tag"; "pkgs"; "upgrade"] kw))
                  (λ _, bind (lift (kw_str kw "image_path" ""))
                   (λ image_path, bind (lift (kw_str kw "tag" "latest"))
                    (λ tag, bind (lift (kw_str kw "pkgs" ""))
                     (λ pkgs, bind (lift (kw_bool kw "upgrade" false))
                      (λ upgrade,
                         bind (init image_path tag pkgs upgrade
                               : M DistroDocker)
                           (λ _, ret tt)))))) w =
                (match init ip
                         (match kw !! "tag" with
                          | Some (VStr s) => s | _ => "latest" end)
                         (match kw !! "pkgs" with
                          | Some (VStr s) => s | _ => "" end) b w with
                 | (w', Ok _) => (w', Ok tt)
                 | (w', Raise e) => (w', Raise e)
                 end)).
    { intros c' Hacc Hcheck init. rewrite Hacc in Hcheck.
      unfold bind at 1, lift at 1. rewrite Hcheck.
      unfold bind at 1, lift at 1. rewrite kw_str_typed by done.
      rewrite Hip.
      unfold bind at 1, lift at 1. rewrite kw_str_typed by done.
      unfold bind at 1, lift at 1. rewrite kw_str_typed by done.
      unfold bind at 1, lift at 1, kw_bool. rewrite Hkw.
      unfold bind, ret.
      by destruct (init _ _ _ _ w) as [w' [x|e]]. }
    assert (Hother : "upgrade" ∉ ["image_path"]).
    { intros [H|H]%elem_of_cons; [discriminate|by apply elem_of_nil in H]. }
    destruct c; simpl.
    + intros Hcheck. exists ip. do 2 eexists. split_and!; [done| | |].
      * by apply kw_str_typed.
      * by apply kw_str_typed.
      * by apply (Hdistro PAlpine).
    + intros Hcheck. exists ip. do 2 eexists. split_and!; [done| | |].
      * by apply kw_str_typed.
      * by apply kw_str_typed.
      * by apply (Hdistro PFedora).
    + intros Hcheck. exists ip. do 2 eexists. split_and!; [done| | |].
      * by apply kw_str_typed.
      * by apply kw_str_typed.
      * by apply (Hdistro PUbuntu).
    + destruct (check_keywords_unexpected ["image_path"] kw "upgrade")
        as [msg Hmsg]; [by eexists|done|].
      exists msg. unfold bind at 1, lift at 1. by rewrite Hmsg.
    + destruct (check_keywords_unexpected ["image_path"] kw "upgrade")
        as [msg Hmsg]; [by eexists|done|].
      exists msg. unfold bind at 1, lift at 1. by rewrite Hmsg.
Qed.

End frontend_constructs.

Lemma upgrade_option_coercion_witness :
  let args := {| a_list := false; a_image_path := ""; a_name := "alpine";
                 a_option := ["tag=edge"; "upgrade=YES"; "verbose"] |} in
  main_sb_args args !! "upgrade" = Some (VBool true) ∧
  construct hb_host (λ _, Ok JNull) (λ _, "") PAlpine (main_sb_args args)
    world_hb =
  (match Alpine_init hb_host "alpine" "edge" "" true world_hb with
   | (w', Ok _) => (w', Ok tt)
   | (w', Raise e) => (w', Raise e)
   end) ∧
  ∃ msg,
    construct hb_host (λ _, Ok JNull) (λ _, "") PUnc
      (main_sb_args {| a_list := false; a_image_path := ""; a_name := "unc";
                       a_option := ["upgrade=1"] |}) world_hb
    = (world_hb, Raise (TypeError msg)).
Proof.
  intros args.
  destruct (upgrade_option_coercion hb_host (λ _, Ok JNull) (λ _, "") args
              ["tag=edge"] "YES" ["verbose"] PAlpine world_hb eq_refl)
    as (Hkw & _ & _ & _ & Hrun);
    [repeat constructor|reflexivity|reflexivity|].
  split; [exact Hkw|]. split.
  - destruct Hrun as (ip & tag & pkgs & Hip & Htag & Hpkgs & Hrun);
      [vm_compute; reflexivity|].
    vm_compute in Hip, Htag, Hpkgs.
    injection Hip as <-. injection Htag as <-. injection Hpkgs as <-.
    exact Hrun.
  - exact (proj2 (proj2 (proj2 (proj2
             (upgrade_option_coercion hb_host (λ _, Ok JNull) (λ _, "")
                {| a_list := false; a_image_path := ""; a_name := "unc";
                   a_option := ["upgrade=1"] |}
                [] "1" [] PUnc world_hb eq_refl (Forall_nil_2 _)
                eq_refl eq_refl))))).
Defined.

(** C9, as the specification words it, fails when the selected profile is
    the network controller, whose constructor has no parameter [upgrade]
    (the call raises [TypeError], which [main] reports before it exits with
    status 2), and when a later option sets [upgrade] again (the
    constructor receives what the last one stands for). *)
Lemma upgrade_option_coercion_counterexample :
  ¬ spec_upgrade_received quiet_host (λ _, Ok JNull) (λ _, "")
      {| a_list := false; a_image_path := ""; a_name := "unc";
         a_option := ["upgrade=no"] |} empty_world ∧
  main quiet_host (λ _, Ok JNull) (λ _, "")
    {| a_list := false; a_image_path := ""; a_name := "unc";
       a_option := ["upgrade=no"] |} empty_world
  = (after empty_world
       (EvError "unc"
          (TypeError "__init__() got an unexpected keyword argument 'upgrade'")),
     Raise (SystemExit 2)) ∧
  ¬ spec_upgrade_received quiet_host (λ _, Ok JNull) (λ _, "")
      {| a_list := false; a_image_path := ""; a_name := "alpine";
         a_option := ["upgrade=yes"; "upgrade=no"] |} empty_world.
Proof.
  split_and!.
  - intros H. destruct (H "no") as [_ H2]; [by left|].
    eapply (H2 PUnc); [reflexivity|]. vm_compute. reflexivity.
  - vm_compute. reflexivity.
  - intros H. destruct (H "yes") as [H1 _]; [by left|].
    vm_compute in H1. discriminate.
Qed.

(** ** Steps of a build, the configuration of Homebridge, options *)

Section steps.
Context (host : Host).
Implicit Types (w : World) (sb : Singularity) (self : DistroDocker).

Lemma no_entry_cases fs p :
  no_entry fs p = FileNotFoundError p ∨ no_entry fs p = NotADirectoryError p.
Proof.
  unfold no_entry. destruct (dirs_check fs p) as [[]|e] eqn:E; [by left|].
  by apply dirs_check_error in E as [-> | ->]; [left|right].
Qed.

Lemma no_entry_ready fs p :
  dirs_check fs p = Ok tt → no_entry fs p = FileNotFoundError p.
Proof. intros H. unfold no_entry. by rewrite H. Qed.

(** Removing a regular file takes no directory from the way to a path. *)
Lemma dirs_check_delete fs p q g :
  fs !! q = Some (Reg g) →
  dirs_check fs p = Ok tt → dirs_check (delete q fs) p = Ok tt.
Proof.
  intros Hq. rewrite !dirs_check_ok. intros H d Hd.
  destruct (H d Hd) as [m Hm]. exists m.
  rewrite lookup_delete_ne; [done|]. intros ->. congruence.
Qed.

Lemma land_mode_C_int m : in_C_int (Z.land m 4095) = true.
Proof.
  change 4095%Z with (Z.ones 12). rewrite Z.land_ones by lia.
  pose proof (Z.mod_pos_bound m (2 ^ 12)) as H.
  unfold in_C_int. apply andb_true_iff. split; apply Z.leb_le; lia.
Qed.

Lemma land_mode_idemp m : Z.land (Z.land m 4095) 4095 = Z.land m 4095.
Proof. by rewrite <- Z.land_assoc, Z.land_diag. Qed.

(** A copy to a free path, followed by a copy of the mode. *)
Lemma copy_copymode_fresh umask src dst w f :
  w_files w !! src = Some (Reg f) →
  w_files w !! dst = None →
  dirs_check (w_files w) dst = Ok tt →
  ∃ w', bind (copy umask src dst) (λ _, copymode src dst) w = (w', Ok tt) ∧
        w_files w' !! dst
          = Some (Reg {| f_text := f_text f;
                         f_mode := Z.land (f_mode f) 4095 |}) ∧
        (∀ q, q ≠ dst → w_files w' !! q = w_files w !! q) ∧
        w_trace w' = w_trace w ++ [EvRead src].
Proof.
  intros Hsrc Hdst Hdirs.
  assert (Hne : src ≠ dst) by (intros ->; congruence).
  unfold copy, copymode, bind, open_read, write_bytes, stat_mode, chmod.
  rewrite Hsrc. simpl. rewrite Hdst, Hdirs. simpl.
  rewrite lookup_insert_ne by done. rewrite Hsrc. simpl.
  rewrite land_mode_C_int. simpl.
  rewrite lookup_insert_eq. simpl.
  rewrite lookup_insert_ne by done. rewrite lookup_insert_ne by done.
  rewrite Hsrc. simpl. rewrite land_mode_C_int. simpl.
  rewrite lookup_insert_eq. simpl.
  eexists. split; [reflexivity|]. simpl. split_and!.
  - by rewrite lookup_insert_eq, land_mode_idemp.
  - intros q Hq. by rewrite !lookup_insert_ne.
  - done.
Qed.

(** X12: where the host has its [/etc/localtime] and the image its [etc]
    directory, [localtime] leaves at [etc/localtime] of the image a regular
    file with the content and the permission bits of the host's file,
    whatever regular file was there before; nothing else changes, and the
    host's file is read once. *)
Theorem localtime_copies_host_zone sb w f :
  let dst := Path2 (image_path sb) "etc/localtime" in
  w_files w !! "/etc/localtime" = Some (Reg f) →
  dst ≠ "/etc/localtime" →
  dirs_check (w_files w) dst = Ok tt →
  (∀ m, w_files w !! dst ≠ Some (Directory m)) →
  ∃ w', localtime host sb w = (w', Ok tt) ∧
        w_files w' !! dst
          = Some (Reg {| f_text := f_text f;
                         f_mode := Z.land (f_mode f) 4095 |}) ∧
        (∀ q, q ≠ dst → w_files w' !! q = w_files w !! q) ∧
        w_trace w' = w_trace w ++ [EvRead "/etc/localtime"].
Proof.
  intros dst Hsrc Hne Hdirs Hdir.
  unfold localtime. fold dst.
  unfold bind at 1, unlink_missing_ok.
  destruct (w_files w !! dst) as [[g|m]|] eqn:Edst.
  - destruct (copy_copymode_fresh (h_umask host) "/etc/localtime" dst
                (set_files w (delete dst (w_files w))) f)
      as (w' & Hrun & Hd & Hq & Ht); simpl.
    + by rewrite lookup_delete_ne.
    + apply lookup_delete_eq.
    + by eapply dirs_check_delete.
    + exists w'. split_and!; [done|done| |done].
      intros q Hqd. rewrite (Hq q Hqd). simpl. by rewrite lookup_delete_ne.
  - by destruct (Hdir m).
  - rewrite (no_entry_ready _ _ Hdirs).
    destruct (copy_copymode_fresh (h_umask host) "/etc/localtime" dst w f)
      as (w' & Hrun & Hd & Hq & Ht); try done.
    by exists w'.
Qed.

(** X13: on a host without [/etc/localtime] the step fails with the error
    of opening that file, after it has removed the [etc/localtime] the
    image had: the image is left without one. *)
Theorem localtime_without_host_zone sb w :
  let dst := Path2 (image_path sb) "etc/localtime" in
  w_files w !! "/etc/localtime" = None →
  dirs_check (w_files w) dst = Ok tt →
  (∀ m, w_files w !! dst ≠ Some (Directory m)) →
  ∃ e, localtime host sb w = (set_files w (delete dst (w_files w)), Raise e) ∧
       (e = FileNotFoundError "/etc/localtime" ∨
        e = NotADirectoryError "/etc/localtime") ∧
       delete dst (w_files w) !! dst = None.
Proof.
  intros dst Hsrc Hdirs Hdir.
  unfold localtime. fold dst.
  unfold bind at 1, unlink_missing_ok.
  destruct (w_files w !! dst) as [[g|m]|] eqn:Edst.
  - unfold bind, copy, bind, open_read. simpl.
    assert (E : dst ≠ "/etc/localtime") by (intros E; congruence).
    rewrite lookup_delete_ne by done. rewrite Hsrc.
    eexists. split_and!; [done|apply no_entry_cases|apply lookup_delete_eq].
  - by destruct (Hdir m).
  - rewrite (no_entry_ready _ _ Hdirs).
    unfold bind, copy, bind, open_read. rewrite Hsrc.
    rewrite delete_id by done.
    eexists. split_and!; [by destruct w|apply no_entry_cases|done].
Qed.

Lemma set_updated_done self : _dd_updated self = true → set_updated self = self.
Proof. destruct self. simpl. by intros ->. Qed.

Lemma bind_ok {A B} (c : M A) (k : A → M B) w w' b :
  bind c k w = (w', Ok b) →
  ∃ w1 a, c w = (w1, Ok a) ∧ k a w1 = (w', Ok b).
Proof.
  unfold bind. destruct (c w) as [w1 [a|e]]; [|done]. intros H. by exists w1, a.
Qed.

Lemma update_ok self w w' self' :
  update host self w = (w', Ok self') → self' = set_updated self.
Proof.
  unfold update. destruct (_dd_updated self) eqn:E; simpl.
  - intros [= _ <-]. by rewrite set_updated_done.
  - intros (w1 & [] & _ & [= _ <-])%bind_ok. done.
Qed.

Lemma upgrade_ok self w w' self' :
  upgrade host self w = (w', Ok self') → self' = set_updated self.
Proof.
  unfold upgrade. intros (w1 & self1 & Hu & H)%bind_ok.
  apply bind_ok in H as (w2 & [] & _ & [= _ <-]).
  by eapply update_ok.
Qed.

Lemma install_ok self w w' self' :
  install host self w = (w', Ok self') →
  self' = self ∨ self' = set_updated self.
Proof.
  unfold install. destruct (_dd_pkgs self).
  - intros [= _ <-]. by left.
  - intros (w1 & self1 & Hu & H)%bind_ok.
    apply bind_ok in H as (w2 & [] & _ & [= _ <-]).
    right. by eapply update_ok.
Qed.

Lemma install_ok_pkgs self w w' self' :
  install host self w = (w', Ok self') → _dd_pkgs self ≠ [] →
  self' = set_updated self.
Proof.
  unfold install. destruct (_dd_pkgs self); [done|].
  intros (w1 & self1 & Hu & H)%bind_ok _.
  apply bind_ok in H as (w2 & [] & _ & [= _ <-]).
  by eapply update_ok.
Qed.

Lemma call_extra_ok self fn_name w w' self' :
  call_extra host self fn_name w = (w', Ok self') →
  self' = self ∨ self' = set_updated self.
Proof.
  unfold call_extra.
  repeat match goal with
         | |- context [if String.eqb fn_name ?s then _ else _] =>
             destruct (String.eqb fn_name s)
         end;
    try (intros (w1 & [] & _ & [= _ <-])%bind_ok; by left);
    try done.
  - apply install_ok.
  - intros H. right. by eapply upgrade_ok.
  - intros H. right. by eapply update_ok.
Qed.

(** The steps of a build leave the object as it is, but for the flag they
    set. *)
Lemma run_extras_ok extras self w w' self' :
  run_extras host self extras w = (w', Ok self') →
  self' = self ∨ self' = set_updated self.
Proof.
  revert self w. induction extras as [|fn_name rest IH]; intros self w; simpl.
  - intros [= _ <-]. by left.
  - intros (w1 & [] & _ & H)%bind_ok.
    apply bind_ok in H as (w2 & self1 & Hc & Hr).
    apply call_extra_ok in Hc as [->| ->]; apply IH in Hr as [->| ->];
      first [by left|by right].
Qed.

Lemma run_extras_app l1 l2 self w :
  run_extras host self (l1 ++ l2) w =
  bind (run_extras host self l1) (λ self1, run_extras host self1 l2) w.
Proof.
  revert self w. induction l1 as [|fn_name rest IH]; intros self w; simpl.
  - done.
  - unfold bind in *. unfold print, emit. simpl.
    destruct (call_extra host self fn_name _) as [w2 [self1|e]]; [|done].
    apply IH.
Qed.

(** X14: [install] with no package to install does nothing; with packages,
    when it succeeds, the object is marked as updated, so that the
    [upgrade] that follows runs the upgrade of the distribution alone,
    without updating the package database again. *)
Theorem install_then_upgrade self w w1 self1 :
  install host self w = (w1, Ok self1) →
  (_dd_pkgs self = [] → w1 = w ∧ self1 = self) ∧
  (_dd_pkgs self ≠ [] →
   self1 = set_updated self ∧
   upgrade host self1 w1 =
     bind (upgrade_distro host self1) (λ _, ret self1) w1).
Proof.
  intros Hi. split.
  - intros Hp. unfold install in Hi. rewrite Hp in Hi. by injection Hi.
  - intros Hp. apply install_ok_pkgs in Hi as ->; [|done]. done.
Qed.

Lemma Singularity_init_ok p w w' sb :
  Singularity_init host p w = (w', Ok sb) →
  image_path sb
  = h_resolve host (Path (if contains_char "/" p then p
                          else Path2 (h_cwd host) p)).
Proof.
  unfold Singularity_init. intros (w0 & found & _ & Hs)%bind_ok.
  destruct found; [done|].
  destruct (h_which host "singularity"); [|done].
  by injection Hs as _ <-.
Qed.

Lemma split_ws_go_nano cur pkgs :
  split_ws_go cur (pkgs +:+ " nano") = split_ws_go cur pkgs ++ ["nano"].
Proof.
  revert cur. induction pkgs as [|c r IH]; intros cur.
  - by destruct cur.
  - rewrite append_cons. simpl. destruct (is_space c).
    + destruct cur; by rewrite IH.
    + apply IH.
Qed.

Lemma append_not_empty a b : b ≠ "" → String.eqb (a +:+ b) "" = false.
Proof.
  intros Hb. apply String.eqb_neq. destruct a; [by rewrite append_nil_l|].
  by rewrite append_cons.
Qed.

(** What a distribution built with the editor [nano] and the steps of the
    program is, once built. *)
Lemma DistroDocker_init_default_ok
    cls name image_path tag pkgs upgrade w w' self :
  DistroDocker_init host cls name image_path tag "nano" ""
    "localtime helpers mkenv" pkgs upgrade w = (w', Ok self) →
  sandbox_path self = sandbox_target host name image_path ∧
  dd_class self = cls ∧
  _dd_pkgs self = split_ws pkgs ++ ["nano"] ∧
  _dd_updated self = true.
Proof.
  unfold DistroDocker_init. intros (w1 & sandbox & Hs & H)%bind_ok.
  apply bind_ok in H as (w2 & [] & _ & H).
  apply Singularity_init_ok in Hs.
  fold (sandbox_target host name image_path) in Hs.
  change (String.eqb "nano" "vi") with false in H. cbv iota in H.
  change (pkgs +:+ " " +:+ "nano") with (pkgs +:+ " nano") in H.
  rewrite append_not_empty in H by done.
  change (split_ws "localtime helpers mkenv")
    with ["localtime"; "helpers"; "mkenv"] in H.
  change (negb false && negb (bool_decide
            ("install" ∈ ["localtime"; "helpers"; "mkenv"])))
    with true in H.
  cbv iota in H.
  unfold split_ws in H. rewrite split_ws_go_nano in H. fold (split_ws pkgs) in H.
  assert (Hsteps :
    (if upgrade then (["localtime"; "helpers"; "mkenv"] ++ ["install"]) ++ ["upgrade"]
     else ["localtime"; "helpers"; "mkenv"] ++ ["install"])
    = ["localtime"; "helpers"; "mkenv"]
      ++ "install" :: (if upgrade then ["upgrade"] else [])).
  { by destruct upgrade. }
  rewrite Hsteps, run_extras_app in H.
  apply bind_ok in H as (w3 & self1 & H1 & H2).
  simpl in H2. apply bind_ok in H2 as (w4 & [] & _ & H2).
  apply bind_ok in H2 as (w5 & self2 & Hi & H2).
  change (call_extra host self1 "install") with (install host self1) in Hi.
  apply run_extras_ok in H1. apply run_extras_ok in H2.
  apply install_ok_pkgs in Hi.
  - subst self2. destruct H1 as [->| ->], H2 as [->| ->]; by split_and!.
  - destruct H1 as [->| ->]; simpl; by destruct (split_ws pkgs).
Qed.

(** X15: a distribution that [Alpine], [Fedora] or [Ubuntu] has built (the
    editor is [nano], the steps are those of the program) lies at the path
    the constructor settled on, has [nano] as the last of its packages,
    after those asked for, and has updated its package database, with or
    without [upgrade]. *)
Theorem distribution_has_nano_and_is_updated
    cls name image_path tag pkgs upgrade w w' self :
  DistroDocker_init host cls name image_path tag "nano" ""
    "localtime helpers mkenv" pkgs upgrade w = (w', Ok self) →
  sandbox_path self = sandbox_target host name image_path ∧
  dd_class self = cls ∧
  _dd_pkgs self = split_ws pkgs ++ ["nano"] ∧
  _dd_updated self = true.
Proof. apply DistroDocker_init_default_ok. Qed.

Lemma sandbox_target_default name dflt image_path :
  dflt ≠ "" →
  sandbox_target host name (if String.eqb image_path "" then dflt else image_path)
  = sandbox_target host dflt image_path.
Proof.
  intros Hd%String.eqb_neq. unfold sandbox_target. cbv zeta.
  destruct (String.eqb image_path "") eqn:E; [|by rewrite E].
  by rewrite Hd.
Qed.

(** X16: the Homebridge profile installs [avahi-daemon] unless a process of
    the host has [avahi-daemon:] in the name it runs under; the image it
    has built by then lies at the path asked for, [hb] by default. *)
Theorem Homebridge_installs_avahi_unless_running image_path w w' self ps_avahid :
  Homebridge_install host image_path w = (w', Ok (self, ps_avahid)) →
  ∃ names,
    ps_bins (h_proc host) = Ok names ∧
    (ps_avahid = true ↔
     ∃ name, name ∈ names ∧ contains "avahi-daemon:" name = true) ∧
    _dd_pkgs self =
      ["dialog"; "less"; "gcc"; "g++"; "make"; "python"; "net-tools"; "wget"]
      ++ (if ps_avahid then [] else ["avahi-daemon"]) ++ ["nano"] ∧
    sandbox_path self = sandbox_target host "hb" image_path ∧
    _dd_updated self = true.
Proof.
  unfold Homebridge_install. intros (w0 & names & Hps & H)%bind_ok.
  unfold lift in Hps.
  destruct (ps_bins (h_proc host)) as [names'|e] eqn:Eps; [|done].
  injection Hps as -> ->. exists names. split; [done|].
  cbv zeta in H.
  apply bind_ok in H as (w1 & self1 & Hinit & H).
  repeat match type of H with
         | bind _ _ _ = (_, Ok _) => apply bind_ok in H as (? & ? & _ & H)
         end.
  injection H as _ <- <-.
  apply DistroDocker_init_default_ok in Hinit as (Hpath & _ & Hpkgs & Hupd).
  rewrite sandbox_target_default in Hpath by done.
  split_and!; [|rewrite Hpkgs|done|done].
  - rewrite existsb_exists. split.
    + intros (name & Hin & Hc). exists name. split; [|done].
      by apply elem_of_elements, list_elem_of_In.
    + intros (name & Hin & Hc). exists name. split; [|done].
      by apply list_elem_of_In, elem_of_elements.
  - by destruct (existsb _ _).
Qed.

End steps.

Lemma localtime_copies_host_zone_witness :
  ∃ w', localtime hb_host box world_built = (w', Ok tt) ∧
        w_files w' !! "/home/ann/box/etc/localtime"
          = Some (Reg {| f_text := "TZif"; f_mode := 420 |}).
Proof.
  destruct (localtime_copies_host_zone hb_host box world_built (file_of "TZif"))
    as (w' & Hrun & Hdst & _); [by vm_compute..| |].
  - intros m. by vm_compute.
  - by exists w'.
Defined.

Lemma localtime_without_host_zone_witness :
  ∃ e, localtime hb_host box world_no_zone
       = (set_files world_no_zone
            (delete "/home/ann/box/etc/localtime" (w_files world_no_zone)),
          Raise e) ∧
       (e = FileNotFoundError "/etc/localtime" ∨
        e = NotADirectoryError "/etc/localtime").
Proof.
  destruct (localtime_without_host_zone hb_host box world_no_zone)
    as (e & Hrun & He & _); [by vm_compute..| |].
  - intros m. by vm_compute.
  - by exists e.
Defined.

Lemma install_then_upgrade_witness :
  ∃ w1 self1,
    install quiet_host (fresh Alpine) empty_world = (w1, Ok self1) ∧
    self1 = set_updated (fresh Alpine) ∧
    upgrade quiet_host self1 w1 =
      bind (upgrade_distro quiet_host self1) (λ _, ret self1) w1.
Proof.
  destruct (install quiet_host (fresh Alpine) empty_world) as [w1 [self1|e]]
    eqn:E; [|vm_compute in E; discriminate].
  exists w1, self1. split; [done|].
  by apply (install_then_upgrade quiet_host (fresh Alpine) empty_world w1 self1 E).
Defined.

Lemma distribution_has_nano_and_is_updated_witness :
  ∃ w' self,
    Alpine_init hb_host "" "latest" "git" false world_hb = (w', Ok self) ∧
    sandbox_path self = "/home/ann/alpine" ∧
    _dd_pkgs self = ["git"; "nano"] ∧
    _dd_updated self = true.
Proof.
  destruct (Alpine_init hb_host "" "latest" "git" false world_hb)
    as [w' [self|e]] eqn:E; [|vm_compute in E; discriminate].
  exists w', self. split; [done|].
  destruct (distribution_has_nano_and_is_updated hb_host Alpine "alpine" ""
              "latest" "git" false world_hb w' self E)
    as (Hpath & _ & Hpkgs & Hupd).
  by split_and!.
Defined.

Lemma Homebridge_installs_avahi_unless_running_witness :
  ∃ w' self,
    Homebridge_install hb_host "" world_hb = (w', Ok (self, false)) ∧
    _dd_pkgs self =
      ["dialog"; "less"; "gcc"; "g++"; "make"; "python"; "net-tools"; "wget";
       "avahi-daemon"; "nano"] ∧
    sandbox_path self = "/home/ann/hb".
Proof.
  destruct (Homebridge_install hb_host "" world_hb) as [w' [[self b]|e]] eqn:E;
    [|vm_compute in E; discriminate].
  assert (b = false) as ->.
  { vm_compute in E. by injection E as _ _ <-. }
  exists w', self. split; [done|].
  destruct (Homebridge_installs_avahi_unless_running hb_host "" world_hb w'
              self false E)
    as (names & _ & _ & Hpkgs & Hpath & _).
  by split.
Defined.

Section json_more.

Lemma obj_get_set_eq key v ms : obj_get key (obj_set key v ms) = Some v.
Proof.
  induction ms as [|[k x] r IH]; simpl.
  - by rewrite String.eqb_refl.
  - destruct (String.eqb k key) eqn:E; simpl; by rewrite E.
Qed.

Lemma obj_get_set_ne key k v ms :
  k ≠ key → obj_get k (obj_set key v ms) = obj_get k ms.
Proof.
  intros Hne. apply not_eq_sym, String.eqb_neq in Hne.
  induction ms as [|[k0 x] r IH]; simpl.
  - by rewrite Hne.
  - destruct (String.eqb_spec k0 key) as [->|Hk]; simpl.
    + by rewrite Hne.
    + by rewrite IH.
Qed.

Lemma add_log_first pre pl post :
  Forall (λ x, (∃ m, x = JObj m) ∧ ¬ config_platform x) pre →
  obj_get "platform" pl = Some (JStr "config") →
  add_log (pre ++ JObj pl :: post)
  = Ok (Some (pre ++ JObj (obj_set "log" log_to_file pl) :: post)).
Proof.
  intros Hpre Hpl. induction Hpre as [|x pre [[m ->] Hx] _ IH]; simpl.
  - by rewrite Hpl.
  - rewrite IH. destruct (obj_get "platform" m) as [v|] eqn:E; simpl; [|done].
    destruct v as [| | | |s| |]; simpl; try done.
    destruct (String.eqb_spec s "config") as [->|_]; [|done].
    destruct Hx. by exists m.
Qed.

(** X17: in a configuration whose [platforms] list has an entry with the
    platform [config], preceded by objects that are no such entry, the
    first such entry gets the member [log] set to the file method, instead
    of what it had there; the other members of the entry, the other
    entries and the other members of the configuration stay. *)
Theorem config_with_log_marks_first ms pre pl post :
  obj_get "platforms" ms = Some (JArr (pre ++ JObj pl :: post)) →
  Forall (λ x, (∃ m, x = JObj m) ∧ ¬ config_platform x) pre →
  obj_get "platform" pl = Some (JStr "config") →
  ∃ ms', config_with_log (JObj ms) = Ok (JObj ms') ∧
         obj_get "platforms" ms'
           = Some (JArr (pre ++ JObj (obj_set "log" log_to_file pl) :: post)) ∧
         (∀ k, k ≠ "platforms" → obj_get k ms' = obj_get k ms) ∧
         obj_get "log" (obj_set "log" log_to_file pl) = Some log_to_file ∧
         (∀ k, k ≠ "log" →
               obj_get k (obj_set "log" log_to_file pl) = obj_get k pl).
Proof.
  intros Hms Hpre Hpl. eexists. split_and!.
  - unfold config_with_log. simpl. rewrite Hms. simpl.
    by rewrite (add_log_first pre pl post Hpre Hpl).
  - apply obj_get_set_eq.
  - intros k Hk. by apply obj_get_set_ne.
  - apply obj_get_set_eq.
  - intros k Hk. by apply obj_get_set_ne.
Qed.

End json_more.

Lemma config_with_log_marks_first_witness :
  ∃ ms', config_with_log config_with = Ok (JObj ms') ∧
         obj_get "platforms" ms'
           = Some (JArr [JObj [("platform", JStr "cmdSwitch2")];
                         JObj [("platform", JStr "config");
                               ("port", JInt 8581);
                               ("log", log_to_file)]]).
Proof.
  destruct (config_with_log_marks_first
              [("bridge", JObj [("name", JStr "Homebridge")]);
               ("platforms", JArr [JObj [("platform", JStr "cmdSwitch2")];
                                   JObj [("platform", JStr "config");
                                         ("port", JInt 8581)]])]
              [JObj [("platform", JStr "cmdSwitch2")]]
              [("platform", JStr "config"); ("port", JInt 8581)] []
              eq_refl)
    as (ms' & Hrun & Hpl & _); [|reflexivity|by exists ms'].
  constructor; [|constructor]. split; [by eexists|].
  intros (m & [= <-] & Hm). discriminate.
Defined.

Section profiles_more.
Context (host : Host).
Context (json_load : string → result json) (json_dumps : json → string).
Implicit Types (w : World) (sb : Singularity) (self : DistroDocker).

(** X18: the prompt [mkenv] writes names the image by the [ID] and the
    [VERSION_ID] of the os-release file of the image, which are empty
    when that file does not set them, and by [linux] without a version
    when the image has no os-release file. *)
Theorem mkenv_prompt_from_os_release self w :
  DistroDocker_mkenv host self w =
  match selected_os_release (sandbox_path self) w with
  | None =>
      Singularity_mkenv host (dd_sandbox self) "linux" ""
        (_dd_editor self) (_dd_editor_args self) w
  | Some (p, Reg f) =>
      match parse_os_release (f_text f) with
      | Ok data =>
          Singularity_mkenv host (dd_sandbox self)
            (default "" (data !! "ID")) (default "" (data !! "VERSION_ID"))
            (_dd_editor self) (_dd_editor_args self) (after w (EvRead p))
      | Raise e => (after w (EvRead p), Raise e)
      end
  | Some (p, Directory _) => (w, Raise (IsADirectoryError p))
  end.
Proof.
  unfold DistroDocker_mkenv. unfold bind at 1.
  rewrite OSrelease_init_selected.
  destruct (selected_os_release (sandbox_path self) w) as [[p [f|m]]|]; try done.
  unfold OSrelease_from. by destruct (parse_os_release (f_text f)).
Qed.

Lemma staging_path sb :
  Path2 (image_path sb) "/homebridge_config.json" = "/homebridge_config.json".
Proof. reflexivity. Qed.

(** X19: the Homebridge profile writes the changed configuration to
    [/homebridge_config.json], a path of the host that does not depend on
    where the image is, with the permission bits 0o644, and then runs the
    [mv] in the image; where something is at that path already it raises
    [FileExistsError], having only read the configuration. *)
Theorem Homebridge_staging_file self w f data data' :
  let cfg_p := Path2 (sandbox_path self) "var/lib/homebridge/config.json" in
  let move := Words "mv -v /homebridge_config.json /root/.homebridge/config.json" in
  w_files w !! cfg_p = Some (Reg f) →
  json_load (f_text f) = Ok data →
  config_with_log data = Ok data' →
  is_text (json_dumps data') = true →
  (w_files w !! "/homebridge_config.json" = None →
   Homebridge_logging host json_load json_dumps self w =
     exec host (dd_sandbox self) move true
       {| w_files := <["/homebridge_config.json" :=
                         Reg {| f_text := json_dumps data'; f_mode := 420 |}]>
                       (w_files w);
          w_trace := w_trace w ++ [EvRead cfg_p] |}) ∧
  (is_Some (w_files w !! "/homebridge_config.json") →
   ∃ msg, Homebridge_logging host json_load json_dumps self w
          = (after w (EvRead cfg_p), Raise (FileExistsError msg))).
Proof.
  intros cfg_p move Hf Hload Hlog Htext.
  assert (Hstart : Homebridge_logging host json_load json_dumps self w =
    bind (mkfile host (dd_sandbox self) "/homebridge_config.json"
            (Text (json_dumps data')) 420)
      (λ _, exec host (dd_sandbox self) move true) (after w (EvRead cfg_p))).
  { unfold Homebridge_logging. fold cfg_p.
    unfold bind at 1, open_read. rewrite Hf.
    unfold bind at 1, lift. rewrite Hload.
    unfold bind at 1, lift. by rewrite Hlog. }
  rewrite Hstart. split.
  - intros Hfree. unfold bind. rewrite mkfile_fresh.
    + by rewrite staging_path.
    + by rewrite staging_path.
    + by rewrite staging_path.
    + done.
    + done.
  - intros [x Hx]. unfold bind.
    rewrite (mkfile_taken _ _ _ _ _ _ x) by (by rewrite staging_path).
    by eexists.
Qed.

End profiles_more.

Lemma Homebridge_staging_file_witness :
  ∃ data',
    config_with_log config_with = Ok data' ∧
    Homebridge_logging quiet_host (λ _, Ok config_with) (λ _, "{}")
      (fresh Ubuntu) world_config =
    exec quiet_host box
      (Words "mv -v /homebridge_config.json /root/.homebridge/config.json") true
      {| w_files := <["/homebridge_config.json" :=
                        Reg {| f_text := "{}"; f_mode := 420 |}]>
                      (w_files world_config);
         w_trace := [EvRead "/home/ann/box/var/lib/homebridge/config.json"] |}.
Proof.
  destruct (config_with_log config_with) as [data'|e] eqn:E;
    [|vm_compute in E; discriminate].
  exists data'. split; [done|].
  apply (proj1 (Homebridge_staging_file quiet_host (λ _, Ok config_with)
                  (λ _, "{}") (fresh Ubuntu) world_config (file_of "{}")
                  config_with data' eq_refl eq_refl E eq_refl)).
  reflexivity.
Defined.

Section frontend_options.
Implicit Types (args : Args) (kv k v : string) (sb : gmap string value)
  (pre post : list string).

Lemma startswith_app p s : startswith p (p +:+ s) = true.
Proof.
  induction p as [|c p IH]; [by destruct s|].
  rewrite append_cons. simpl. by rewrite Ascii.eqb_refl.
Qed.

Lemma partition_key k v :
  contains_char "=" k = false →
  partition "=" (k +:+ "=" +:+ v) = (k, "=", v).
Proof.
  induction k as [|c k IH]; [done|]. intros Hk. simpl in Hk.
  destruct (Ascii.eqb c "=") eqn:E; [done|].
  rewrite append_cons. cbn [partition]. rewrite E. by rewrite (IH Hk).
Qed.

Lemma contains_char_key k v : contains_char "=" (k +:+ "=" +:+ v) = true.
Proof.
  induction k as [|c k IH]; [done|]. rewrite append_cons.
  cbn [contains_char]. rewrite IH. by destruct (Ascii.eqb c "=").
Qed.

Lemma option_step_sets k v sb :
  contains_char "=" k = false → k ≠ "upgrade" →
  option_step sb (k +:+ "=" +:+ v) = <[k := VStr v]> sb.
Proof.
  intros Hk Hu. unfold option_step.
  rewrite contains_char_key, partition_key by done.
  by apply String.eqb_neq in Hu as ->.
Qed.

Lemma option_step_other_key k sb kv :
  sets_key k kv = false → option_step sb kv !! k = sb !! k.
Proof.
  intros Hp. unfold option_step.
  destruct (contains_char "=" kv) eqn:E; [|done].
  destruct (partition_spec _ _ E) as (a & t & -> & ->).
  assert (a ≠ k).
  { intros ->. unfold sets_key in Hp.
    assert (k +:+ String "=" t = (k +:+ "=") +:+ t) as Heq.
    { clear. induction k as [|c k IH]; [done|].
      rewrite !append_cons. by f_equal. }
    rewrite Heq, startswith_app in Hp. done. }
  destruct (String.eqb a "upgrade"); by rewrite lookup_insert_ne.
Qed.

Lemma foldl_option_step_other_key k sb post :
  Forall (λ kv, sets_key k kv = false) post →
  foldl option_step sb post !! k = sb !! k.
Proof.
  intros H. revert sb. induction H as [|kv post Hkv _ IH]; intros sb; simpl.
  - done.
  - by rewrite IH, option_step_other_key.
Qed.

(** X20: an option [k=v] for a key other than [upgrade] reaches the
    constructor as the string [v], whatever follows the first [=] being
    kept as it is, and the last option for a key decides; an option
    [image_path=...] thus replaces the image path of the command line,
    which otherwise is that of [-i], or the name of the profile when [-i]
    is not given. *)
Theorem last_option_wins args k :
  contains_char "=" k = false → k ≠ "upgrade" →
  (∀ pre v post,
     a_option args = pre ++ (k +:+ "=" +:+ v) :: post →
     Forall (λ kv, sets_key k kv = false) post →
     main_sb_args args !! k = Some (VStr v)) ∧
  (Forall (λ kv, sets_key k kv = false) (a_option args) →
   main_sb_args args !! k =
     if String.eqb k "image_path"
     then Some (VStr (if String.eqb (a_image_path args) "" then a_name args
                      else a_image_path args))
     else None).
Proof.
  intros Hk Hu. split.
  - intros pre v post Hopt Hpost. unfold main_sb_args.
    rewrite Hopt, foldl_app. simpl.
    rewrite foldl_option_step_other_key by done.
    rewrite option_step_sets by done. apply lookup_insert_eq.
  - intros Hnone. unfold main_sb_args.
    rewrite foldl_option_step_other_key by done.
    destruct (String.eqb_spec k "image_path") as [->|Hne].
    + apply lookup_singleton_eq.
    + by apply lookup_singleton_ne.
Qed.

End frontend_options.

Lemma last_option_wins_witness :
  main_sb_args {| a_list := false; a_image_path := "/srv/a"; a_name := "alpine";
                  a_option := ["image_path=/srv/b"; "tag=a=b";
                               "image_path=/srv/c"] |}
    !! "image_path" = Some (VStr "/srv/c") ∧
  main_sb_args {| a_list := false; a_image_path := "/srv/a"; a_name := "alpine";
                  a_option := ["tag=a=b"] |}
    !! "image_path" = Some (VStr "/srv/a").
Proof.
  split.
  - apply (proj1 (last_option_wins
                    {| a_list := false; a_image_path := "/srv/a";
                       a_name := "alpine";
                       a_option := ["image_path=/srv/b"; "tag=a=b";
                                    "image_path=/srv/c"] |}
                    "image_path" eq_refl ltac:(discriminate))
             ["image_path=/srv/b"; "tag=a=b"] "/srv/c" [] eq_refl).
    constructor.
  - apply (proj2 (last_option_wins
                    {| a_list := false; a_image_path := "/srv/a";
                       a_name := "alpine"; a_option := ["tag=a=b"] |}
                    "image_path" eq_refl ltac:(discriminate))).
    repeat constructor.
Defined.
